(** * exparser: a shallow embedding of Rational.py and Expression.py

    The Python program parses an arithmetic expression into nested
    [Expression] objects whose leaves are [Rational] objects, resolves
    operator precedence by consolidating triples of tokens, and evaluates
    the result.  Objects are mutable and shared by reference, so they live
    in an explicit store; exceptions are explicit outcomes.

    Numbers follow CPython: an [int] is unbounded, a [float] is an IEEE 754
    binary64 (the Standard Library's [spec_float]), and [/] is true division
    even between ints.  Loops and recursion of the source that are not
    structural take a bound on their steps; [parse_answers] and
    [consolidate_answers] show that the bounds given to the parser and to the
    consolidation are never exceeded, so that only [calculate] depends on
    its bound, the nesting depth it may descend.  The limits of the
    interpreter itself (recursion depth, memory) and text outside ASCII are
    not part of the model. *)

From Stdlib Require Import ZArith List Bool Ascii String Lia Arith.
From Stdlib Require Import Floats.SpecFloat.
Import ListNotations.

Local Open Scope string_scope.
Local Open Scope list_scope.
Local Open Scope Z_scope.

(** ** Exceptions and outcomes *)

(** The exceptions the program raises itself or receives from the Python
    runtime.  Messages are the ones written in the source, or the runtime's
    own for errors the source does not raise explicitly; the message of an
    [AttributeError] is shortened to the name of the attribute. *)
Inductive exn : Type :=
| ZeroDivisionError (msg : string)
| OverflowError (msg : string)
| ValueError (msg : string)
| IndexError (msg : string)
| AttributeError (msg : string)
| Exception_ (msg : string).

(** [Timeout] is not a Python outcome: it marks a bounded loop or recursion
    of the model that ran out of steps. *)
Inductive outcome (A : Type) : Type :=
| Ret (a : A)
| Raise (e : exn)
| Timeout.
Arguments Ret {A} a.
Arguments Raise {A} e.
Arguments Timeout {A}.

Definition obind {A B : Type} (o : outcome A) (f : A -> outcome B) : outcome B :=
  match o with
  | Ret a => f a
  | Raise e => Raise e
  | Timeout => Timeout
  end.

(** ** Python numbers

    A [Rational]'s [numer] and [denom] attributes hold whatever the caller
    passed: an [int] (unbounded) or a [float] (IEEE 754 binary64). *)

Definition float := spec_float.
Definition prec : Z := 53.
Definition emax : Z := 1024.

Inductive num : Type :=
| I (z : Z)
| F (f : float).

(** *** Rounding an exact quotient to binary64

    CPython's [int / int] and [float(int)] are correctly rounded: the result
    is the binary64 nearest to the exact value, ties to even.
    [round_pos_ratio a b], for [0 < a] and [0 < b], is the mantissa and the
    exponent of that nearest value: [53] significant bits unless the
    exponent is the smallest one, [-1074]. *)
Definition scaled_div (a b e : Z) : Z * Z :=
  if 0 <=? e then Z.div_eucl a (b * 2 ^ e) else Z.div_eucl (a * 2 ^ (- e)) b.

Definition scaled_divisor (b e : Z) : Z :=
  if 0 <=? e then b * 2 ^ e else b.

Definition round_pos_ratio (a b : Z) : Z * Z :=
  let e0 := Z.max (Z.log2 a - Z.log2 b - 53) (-1074) in
  let e := if 2 ^ 53 <=? fst (scaled_div a b e0) then e0 + 1 else e0 in
  let '(m, r) := scaled_div a b e in
  let m' :=
    match 2 * r ?= scaled_divisor b e with
    | Lt => m
    | Eq => if Z.even m then m else m + 1
    | Gt => m + 1
    end in
  if m' =? 2 ^ 53 then (2 ^ 52, e + 1) else (m', e).

(** The binary64 nearest to [a / b], for [b <> 0]; an infinity when the
    quotient is out of range. *)
Definition round_ratio (a b : Z) : float :=
  let s := xorb (a <? 0) (b <? 0) in
  match a with
  | Z0 => S754_zero (b <? 0)
  | _ =>
    let '(m, e) := round_pos_ratio (Z.abs a) (Z.abs b) in
    match m with
    | Zpos p => if e <=? emax - prec then S754_finite s p e else S754_infinity s
    | _ => S754_zero s
    end
  end.

Definition is_finite (f : float) : bool :=
  match f with
  | S754_zero _ | S754_finite _ _ _ => true
  | _ => false
  end.

(** [float(z)]: raises when the integer is too large. *)
Definition float_of_int (z : Z) : outcome float :=
  let f := round_ratio z 1 in
  if is_finite f then Ret f
  else Raise (OverflowError "int too large to convert to float").

(** [float(x)] *)
Definition py_float (x : num) : outcome float :=
  match x with
  | I z => float_of_int z
  | F f => Ret f
  end.

(** [int(x)]: truncation toward zero for a float. *)
Definition py_int (x : num) : outcome Z :=
  match x with
  | I z => Ret z
  | F (S754_zero _) => Ret 0
  | F (S754_finite s m e) =>
    let mag := if 0 <=? e then Zpos m * 2 ^ e else Zpos m / 2 ^ (- e) in
    Ret (if s then - mag else mag)
  | F (S754_infinity _) =>
    Raise (OverflowError "cannot convert float infinity to integer")
  | F S754_nan => Raise (ValueError "cannot convert float NaN to integer")
  end.

(** The integer a float is exactly equal to, if any. *)
Definition float_as_int (f : float) : option Z :=
  match f with
  | S754_zero _ => Some 0
  | S754_finite s m e =>
    if 0 <=? e then Some (if s then - (Zpos m * 2 ^ e) else Zpos m * 2 ^ e)
    else if Zpos m mod 2 ^ (- e) =? 0
         then Some (if s then - (Zpos m / 2 ^ (- e)) else Zpos m / 2 ^ (- e))
         else None
  | _ => None
  end.

(** [x == y]: Python compares an int with a float by exact value. *)
Definition py_eq (x y : num) : bool :=
  match x, y with
  | I a, I b => a =? b
  | F f, F g => SFeqb f g
  | I a, F f | F f, I a =>
    match float_as_int f with
    | Some b => a =? b
    | None => false
    end
  end.

Definition float_binop (fop : float -> float -> float) (x y : num) : outcome num :=
  obind (py_float x) (fun f => obind (py_float y) (fun g => Ret (F (fop f g)))).

(** [x + y], [x - y], [x * y]: exact on ints, binary64 as soon as one operand
    is a float. *)
Definition py_add (x y : num) : outcome num :=
  match x, y with
  | I a, I b => Ret (I (a + b))
  | _, _ => float_binop (SFadd prec emax) x y
  end.

Definition py_sub (x y : num) : outcome num :=
  match x, y with
  | I a, I b => Ret (I (a - b))
  | _, _ => float_binop (SFsub prec emax) x y
  end.

Definition py_mul (x y : num) : outcome num :=
  match x, y with
  | I a, I b => Ret (I (a * b))
  | _, _ => float_binop (SFmul prec emax) x y
  end.

(** [x / y]: true division, always a float. *)
Definition py_truediv (x y : num) : outcome num :=
  match x, y with
  | I a, I b =>
    if b =? 0 then Raise (ZeroDivisionError "division by zero")
    else
      let f := round_ratio a b in
      if is_finite f then Ret (F f)
      else Raise (OverflowError "integer division result too large for a float")
  | _, _ =>
    obind (py_float x) (fun f => obind (py_float y) (fun g =>
      if SFeqb g (S754_zero false)
      then Raise (ZeroDivisionError "float division by zero")
      else Ret (F (SFdiv prec emax f g))))
  end.

(** [math.gcd] is never negative. *)
Definition gcd (a b : Z) : Z := Z.gcd a b.

(** [x // y] on ints: the floor of the quotient. *)
Definition py_floordiv (x y : Z) : outcome Z :=
  if y =? 0 then Raise (ZeroDivisionError "integer division or modulo by zero")
  else Ret (x / y).

(** The exact value of a finite float as a fraction with a positive
    denominator. *)
Definition float_fraction (f : float) : option (Z * Z) :=
  match f with
  | S754_zero _ => Some (0, 1)
  | S754_finite s m e =>
    let m' := if s then Zneg m else Zpos m in
    Some (if 0 <=? e then (m' * 2 ^ e, 1) else (m', 2 ^ (- e)))
  | _ => None
  end.

(** Python orders an int and a float by their exact values; a NaN is
    neither below nor above anything. *)
Definition int_float_compare (a : Z) (f : float) : option comparison :=
  match f with
  | S754_nan => None
  | S754_infinity s => Some (if s then Gt else Lt)
  | _ =>
    match float_fraction f with
    | Some (n, d) => Some (a * d ?= n)
    | None => None
    end
  end.

Definition py_compare (x y : num) : option comparison :=
  match x, y with
  | I a, I b => Some (a ?= b)
  | F f, F g => SFcompare f g
  | I a, F f => int_float_compare a f
  | F f, I a => option_map CompOpp (int_float_compare a f)
  end.

(** [x > y] *)
Definition py_gt (x y : num) : bool :=
  match py_compare x y with
  | Some Gt => true
  | _ => false
  end.

(** [math.floor(f)] and [math.ceil(f)]: ints; they raise on an infinity and
    on a NaN. *)
Definition py_floor (f : float) : outcome Z :=
  match f with
  | S754_infinity _ => Raise (OverflowError "cannot convert float infinity to integer")
  | S754_nan => Raise (ValueError "cannot convert float NaN to integer")
  | _ =>
    match float_fraction f with
    | Some (n, d) => Ret (n / d)
    | None => Ret 0
    end
  end.

Definition py_ceil (f : float) : outcome Z :=
  match f with
  | S754_infinity _ => Raise (OverflowError "cannot convert float infinity to integer")
  | S754_nan => Raise (ValueError "cannot convert float NaN to integer")
  | _ =>
    match float_fraction f with
    | Some (n, d) => Ret (- ((- n) / d))
    | None => Ret 0
    end
  end.

(** ** Objects and the store

    [Rational] and [Expression] objects are mutable and passed around by
    reference; a [Token] is never modified once built, so it is a value. *)

Inductive Operation : Type := ADD | SUBTRACT | MULTIPLY | DIVIDE | EXPONENT.

Definition Operation_eqb (a b : Operation) : bool :=
  match a, b with
  | ADD, ADD | SUBTRACT, SUBTRACT | MULTIPLY, MULTIPLY
  | DIVIDE, DIVIDE | EXPONENT, EXPONENT => true
  | _, _ => false
  end.

Definition ref := nat.

(** [Token.__init__] fills exactly one of [operation] and [value]. *)
Inductive Token : Type :=
| TokOp (operation : Operation)
| TokVal (value : ref).

Inductive obj : Type :=
| ORational (numer denom : num)
| OExpression (tokens : list Token).

(** Objects are never freed: a reference is a position in the store. *)
Definition heap := list obj.

Definition M (A : Type) : Type := heap -> outcome A * heap.

Definition ret {A : Type} (a : A) : M A := fun h => (Ret a, h).
Definition raise {A : Type} (e : exn) : M A := fun h => (Raise e, h).
Definition timeout {A : Type} : M A := fun h => (Timeout, h).

Definition bind {A B : Type} (m : M A) (f : A -> M B) : M B :=
  fun h =>
    match m h with
    | (Ret a, h') => f a h'
    | (Raise e, h') => (Raise e, h')
    | (Timeout, h') => (Timeout, h')
    end.

Definition lift {A : Type} (o : outcome A) : M A := fun h => (o, h).

Declare Scope py_scope.
Delimit Scope py_scope with py.
Notation "x <- m ;; k" := (bind m (fun x => k))
  (at level 61, m at next level, right associativity) : py_scope.
Notation "m ;; k" := (bind m (fun _ => k))
  (at level 61, right associativity) : py_scope.
Local Open Scope py_scope.

Definition alloc (o : obj) : M ref := fun h => (Ret (List.length h), h ++ [o]).

Fixpoint update {A : Type} (l : list A) (i : nat) (a : A) : list A :=
  match l, i with
  | [], _ => []
  | _ :: t, O => a :: t
  | x :: t, S j => x :: update t j a
  end.

Definition store (r : ref) (o : obj) : M unit := fun h => (Ret tt, update h r o).

Definition no_attribute (name : string) : exn :=
  AttributeError ("object has no attribute '" ++ name ++ "'")%string.

Definition get_numer (self : ref) : M num := fun h =>
  match nth_error h self with
  | Some (ORational n _) => (Ret n, h)
  | _ => (Raise (no_attribute "numer"), h)
  end.

Definition get_denom (self : ref) : M num := fun h =>
  match nth_error h self with
  | Some (ORational _ d) => (Ret d, h)
  | _ => (Raise (no_attribute "denom"), h)
  end.

Definition set_numer (self : ref) (n : num) : M unit := fun h =>
  match nth_error h self with
  | Some (ORational _ d) => (Ret tt, update h self (ORational n d))
  | _ => (Raise (no_attribute "numer"), h)
  end.

Definition set_denom (self : ref) (d : num) : M unit := fun h =>
  match nth_error h self with
  | Some (ORational n _) => (Ret tt, update h self (ORational n d))
  | _ => (Raise (no_attribute "denom"), h)
  end.

Definition get_tokens (self : ref) : M (list Token) := fun h =>
  match nth_error h self with
  | Some (OExpression ts) => (Ret ts, h)
  | _ => (Raise (no_attribute "tokens"), h)
  end.

Definition set_tokens (self : ref) (ts : list Token) : M unit := fun h =>
  match nth_error h self with
  | Some (OExpression _) => (Ret tt, update h self (OExpression ts))
  | _ => (Raise (no_attribute "tokens"), h)
  end.

(** ** Strings and decimal literals *)

Definition str := list ascii.

Definition digit_of (c : ascii) : option Z :=
  let n := Z.of_nat (nat_of_ascii c) in
  if (48 <=? n) && (n <=? 57) then Some (n - 48) else None.

(** [is_digit]: [int(x)] succeeds on a one-character string exactly when the
    character is a decimal digit (strings are ASCII here). *)
Definition is_digit (x : ascii) : bool :=
  match digit_of x with
  | Some _ => true
  | None => false
  end.

Fixpoint int_of_digits (acc : Z) (cs : str) : option Z :=
  match cs with
  | [] => Some acc
  | c :: cs' =>
    match digit_of c with
    | Some d => int_of_digits (10 * acc + d) cs'
    | None => None
    end
  end.

(** The characters before the first ["."], and those after it if there is
    one. *)
Fixpoint split_dot (cs : str) : str * option str :=
  match cs with
  | [] => ([], None)
  | c :: cs' =>
    if Ascii.eqb c "."
    then ([], Some cs')
    else let '(a, b) := split_dot cs' in (c :: a, b)
  end.

(** [Decimal(s).as_integer_ratio()] for a string of digits and dots: the
    exact value in lowest terms with a positive denominator; [None] stands
    for [decimal.InvalidOperation] (no digit at all, or a second dot). *)
Definition Decimal_as_integer_ratio (s : str) : option (Z * Z) :=
  let '(ip, fp_) := split_dot s in
  let fp := match fp_ with Some f => f | None => [] end in
  match ip ++ fp with
  | [] => None
  | ds =>
    match int_of_digits 0 ds with
    | Some n =>
      let d := 10 ^ Z.of_nat (List.length fp) in
      let g := Z.gcd n d in
      Some (n / g, d / g)
    | None => None
    end
  end.

(** The character of a decimal digit. *)
Definition digit_char (d : Z) : ascii := ascii_of_nat (Z.to_nat (48 + d)).

Fixpoint digits_of_int (fuel : nat) (n : Z) (acc : str) : str :=
  match fuel with
  | O => acc
  | S fuel' =>
    let acc' := digit_char (n mod 10) :: acc in
    if n <? 10 then acc' else digits_of_int fuel' (n / 10) acc'
  end.

(** [str(z)] for an int: the decimal digits, most significant first, after
    a minus sign when [z] is negative.  A number has at most one decimal
    digit per bit.  (CPython since 3.11 refuses by default to print an int
    of more than 4300 digits; the properties of printing are stated for
    ints within that length.) *)
Definition str_int (z : Z) : str :=
  let n := Z.abs z in
  let digits := digits_of_int (S (Z.to_nat (Z.log2 n))) n [] in
  if z <? 0 then "-"%char :: digits else digits.

(** [" ".join(words)] *)
Fixpoint join_spaces (words : list str) : str :=
  match words with
  | [] => []
  | [w] => w
  | w :: rest => w ++ " "%char :: join_spaces rest
  end.

(** ** Rational.py *)

(** [lcm] *)
Definition lcm (a b : Z) : outcome Z := py_floordiv (Z.abs (a * b)) (gcd a b).

Module Rational.

(** [Rational.simplify]: both quotients go through a float, since [/] is
    true division. *)
Definition simplify (self : ref) : M unit :=
  n <- get_numer self ;;
  ni <- lift (py_int n) ;;
  d <- get_denom self ;;
  di <- lift (py_int d) ;;
  let x := gcd ni di in
  n <- get_numer self ;;
  q <- lift (py_truediv n (I x)) ;;
  qi <- lift (py_int q) ;;
  set_numer self (I qi) ;;
  d <- get_denom self ;;
  q <- lift (py_truediv d (I x)) ;;
  qi <- lift (py_int q) ;;
  set_denom self (I qi).

(** [Rational.__init__] *)
Definition __init__ (numer denom : num) (simplify_ : bool) : M ref :=
  if py_eq denom (I 0)
  then raise (ZeroDivisionError "The denominator must not be zero!")
  else
    self <- alloc (ORational numer denom) ;;
    (if negb (py_eq denom (I 1)) && simplify_ then simplify self else ret tt) ;;
    ret self.

(** [Rational.copy] *)
Definition copy (rat : ref) (simplify_ : bool) : M ref :=
  n <- get_numer rat ;;
  d <- get_denom rat ;;
  __init__ n d simplify_.

(** [Rational.scale] *)
Definition scale (self : ref) (x : num) : M unit :=
  if py_eq x (I 0)
  then raise (ZeroDivisionError "Cannot scale a Rational number by zero!")
  else
    n <- get_numer self ;;
    n' <- lift (py_mul n x) ;;
    set_numer self n' ;;
    d <- get_denom self ;;
    d' <- lift (py_mul d x) ;;
    set_denom self d'.

(** [Rational.reciprocal]: the guard tests the denominator; a zero
    numerator is caught by the constructor. *)
Definition reciprocal (x : ref) : M ref :=
  d <- get_denom x ;;
  if py_eq d (I 0)
  then raise (ZeroDivisionError "Cannot take the reciprocal of zero!")
  else
    d <- get_denom x ;;
    n <- get_numer x ;;
    __init__ d n false.

(** [Rational.match_denominators] *)
Definition match_denominators (a b : ref) : M num :=
  ad <- get_denom a ;;
  bd <- get_denom b ;;
  (if negb (py_eq ad bd)
   then
     a_denom <- get_denom a ;;
     bd <- get_denom b ;;
     scale a bd ;;
     scale b a_denom
   else ret tt) ;;
  get_denom a.

(** [Rational.multiply] *)
Definition multiply (a b : ref) (simplify_ : bool) : M ref :=
  an <- get_numer a ;;
  bn <- get_numer b ;;
  n <- lift (py_mul an bn) ;;
  ni <- lift (py_int n) ;;
  ad <- get_denom a ;;
  bd <- get_denom b ;;
  d <- lift (py_mul ad bd) ;;
  di <- lift (py_int d) ;;
  __init__ (I ni) (I di) simplify_.

(** [Rational.divide] *)
Definition divide (a b : ref) (simplify_ : bool) : M ref :=
  r <- reciprocal b ;;
  multiply a r simplify_.

(** [Rational.add] *)
Definition add (a b : ref) (simplify_ : bool) : M ref :=
  denom <- match_denominators a b ;;
  an <- get_numer a ;;
  bn <- get_numer b ;;
  n <- lift (py_add an bn) ;;
  result <- __init__ n denom simplify_ ;;
  simplify a ;;
  simplify b ;;
  ret result.

(** [Rational.subtract] *)
Definition subtract (a b : ref) (simplify_ : bool) : M ref :=
  denom <- match_denominators a b ;;
  an <- get_numer a ;;
  bn <- get_numer b ;;
  n <- lift (py_sub an bn) ;;
  ni <- lift (py_int n) ;;
  di <- lift (py_int denom) ;;
  result <- __init__ (I ni) (I di) simplify_ ;;
  simplify a ;;
  simplify b ;;
  ret result.

(** [Rational.as_float] *)
Definition as_float (self : ref) : M float :=
  n <- get_numer self ;;
  d <- get_denom self ;;
  q <- lift (py_truediv n d) ;;
  lift (py_float q).

(** [Rational.__eq__], for [o] a Rational *)
Definition __eq__ (self o : ref) : M bool :=
  a <- copy self true ;;
  b <- copy o true ;;
  an <- get_numer a ;;
  bn <- get_numer b ;;
  if py_eq an bn
  then
    ad <- get_denom a ;;
    bd <- get_denom b ;;
    ret (py_eq ad bd)
  else ret false.

(** [Rational.parse] *)
Definition parse (s : str) : M ref :=
  match Decimal_as_integer_ratio s with
  | Some (numer, denom) => __init__ (I numer) (I denom) true
  | None => raise (ValueError "Couldn't parse as a Rational!")
  end.

(** [Rational.is_positive] *)
Definition is_positive (self : ref) : M bool :=
  n <- get_numer self ;;
  if py_gt n (I 0)
  then
    d <- get_denom self ;;
    ret (py_gt d (I 0))
  else ret false.

(** [Rational.is_zero] *)
Definition is_zero (self : ref) : M bool :=
  n <- get_numer self ;;
  ret (py_eq n (I 0)).

(** [Rational.is_negative] *)
Definition is_negative (self : ref) : M bool :=
  p <- is_positive self ;;
  if negb p
  then
    z <- is_zero self ;;
    ret (negb z)
  else ret false.

(** The [while] loop of [Rational.as_egyptian_fraction]; [fuel] bounds the
    number of iterations, [result] is the list built so far. *)
Fixpoint as_egyptian_fraction_loop (fuel : nat) (x : ref) (result : list ref)
    (i : Z) : M (list ref) :=
  match fuel with
  | O => timeout
  | S fuel' =>
    z <- is_zero x ;;
    if negb z
    then
      candidate <- __init__ (I 1) (I i) true ;;
      y <- subtract x candidate true ;;
      neg <- is_negative y ;;
      if negb neg
      then as_egyptian_fraction_loop fuel' y (result ++ [candidate]) (i + 1)
      else as_egyptian_fraction_loop fuel' x result (i + 1)
    else ret result
  end.

(** [Rational.as_egyptian_fraction] *)
Definition as_egyptian_fraction (fuel : nat) (self : ref) : M (list ref) :=
  x <- copy self true ;;
  as_egyptian_fraction_loop fuel x [] 2.

(** [Rational.__ne__], for [o] a Rational *)
Definition __ne__ (self o : ref) : M bool :=
  b <- __eq__ self o ;;
  ret (negb b).

Section Printing.

(** [str] of a float is the shortest decimal string that reads back as the
    same float; [math.log10] comes from the C library.  Both are parameters:
    [float_str] for every float, [log10] for the arguments that are greater
    than zero. *)
Variable float_str : float -> str.
Variable log10 : num -> float.

(** [str(x)] for the number in an attribute *)
Definition str_num (x : num) : str :=
  match x with
  | I z => str_int z
  | F f => float_str f
  end.

(** [math.log10(x)]: a ValueError unless [x] is greater than zero (the text
    of its message is that of CPython up to 3.13). *)
Definition py_log10 (x : num) : outcome float :=
  match x with
  | F S754_nan => Ret S754_nan
  | _ =>
    if py_gt x (I 0) then Ret (log10 x)
    else Raise (ValueError "math domain error")
  end.

(** [Rational.__str__] *)
Definition __str__ (self : ref) : M str :=
  d <- get_denom self ;;
  if py_eq d (I 1)
  then
    n <- get_numer self ;;
    ret (str_num n)
  else
    n <- get_numer self ;;
    d <- get_denom self ;;
    ret (str_num n ++ "/"%char :: str_num d).

(** [Rational.__repr__] *)
Definition __repr__ (self : ref) : M str :=
  s <- __str__ self ;;
  ret (list_ascii_of_string "Rational(" ++ s ++ list_ascii_of_string ")").

(** [Rational.to_string] *)
Definition to_string (self : ref) (float_only : bool) : M str :=
  as_quotient <-
    (if float_only then ret true
     else
       d <- get_denom self ;;
       if negb (py_eq d (I 1))
       then
         d <- get_denom self ;;
         l <- lift (py_log10 d) ;;
         c <- lift (py_ceil l) ;;
         d <- get_denom self ;;
         l <- lift (py_log10 d) ;;
         f <- lift (py_floor l) ;;
         ret (c =? f)
       else ret false) ;;
  if (as_quotient : bool)
  then
    n <- get_numer self ;;
    d <- get_denom self ;;
    q <- lift (py_truediv n d) ;;
    ret (str_num q)
  else __str__ self.

End Printing.

End Rational.

(** ** Expression.py *)

(** Python list indexing and slicing: a negative index counts from the end,
    an index out of range raises, a slice never does. *)
Definition py_index {A : Type} (l : list A) (i : Z) : outcome A :=
  let n := Z.of_nat (List.length l) in
  let k := if i <? 0 then i + n else i in
  match (if (0 <=? k) && (k <? n) then nth_error l (Z.to_nat k) else None) with
  | Some a => Ret a
  | None => Raise (IndexError "list index out of range")
  end.

Definition slice_bound {A : Type} (l : list A) (j : Z) : nat :=
  let n := Z.of_nat (List.length l) in
  Z.to_nat (if j <? 0 then Z.max 0 (j + n) else Z.min j n).

(** [l[:j]] and [l[j:]] *)
Definition py_slice_to {A : Type} (l : list A) (j : Z) : list A :=
  firstn (slice_bound l j) l.

Definition py_slice_from {A : Type} (l : list A) (j : Z) : list A :=
  skipn (slice_bound l j) l.

(** [s[i:j]] for indices that are not negative *)
Definition substring (s : str) (i j : nat) : str :=
  firstn (j - i) (skipn i s).

Fixpoint find_matching_parens_loop (chars : str) (j : nat) (level : Z) : outcome nat :=
  match chars with
  | [] => Raise (ValueError "Couldn't find a matching parens!")
  | char :: rest =>
    if Ascii.eqb char "("
    then find_matching_parens_loop rest (S j) (level + 1)
    else if Ascii.eqb char ")"
    then if level =? 0
         then Ret j
         else find_matching_parens_loop rest (S j) (level - 1)
    else find_matching_parens_loop rest (S j) level
  end.

Definition find_matching_parens (s : str) (i : nat) : outcome nat :=
  find_matching_parens_loop (skipn (i + 1) s) (i + 1)%nat 0.

(** [Operation.__str__] *)
Definition Operation_str (self : Operation) : str :=
  match self with
  | ADD => ["+"%char]
  | SUBTRACT => ["-"%char]
  | MULTIPLY => ["*"%char]
  | DIVIDE => ["/"%char]
  | EXPONENT => ["^"%char]
  end.

(** [Operation.parse]: [None] when the character is no operator. *)
Definition Operation_parse (x : ascii) : option Operation :=
  if Ascii.eqb x "+" then Some ADD
  else if Ascii.eqb x "-" then Some SUBTRACT
  else if Ascii.eqb x "*" then Some MULTIPLY
  else if Ascii.eqb x "/" then Some DIVIDE
  else if Ascii.eqb x "^" then Some EXPONENT
  else None.

Definition Token_is_operation (t : Token) : bool :=
  match t with
  | TokOp _ => true
  | TokVal _ => false
  end.

Definition Token_is_value (t : Token) : bool :=
  match t with
  | TokOp _ => false
  | TokVal _ => true
  end.

Definition Token_operation (t : Token) : option Operation :=
  match t with
  | TokOp o => Some o
  | TokVal _ => None
  end.

Definition Token_value (t : Token) : option ref :=
  match t with
  | TokOp _ => None
  | TokVal v => Some v
  end.

(** The result of Python's [float ** float] when it is a float.  It comes
    from the C library, so it is a parameter of the development; for a
    negative base and a fractional exponent Python answers with a complex
    number, which is outside this model. *)
Definition pow_function := float -> float -> outcome float.


(** [exact_pow x y = Some r] when [x] is finite and not zero, [y] is an
    integer and the power [x ** y] is exactly the finite float [r]. *)
Definition exact_pow (x y : float) : option float :=
  match x, float_as_int y with
  | S754_finite _ _ _, Some n =>
    match float_fraction x with
    | Some (a, b) =>
      let '(pn, pd) :=
        if 0 <=? n then (a ^ n, b ^ n)
        else (Z.sgn a ^ (- n) * b ^ (- n), Z.abs a ^ (- n)) in
      let r := round_ratio pn pd in
      match float_fraction r with
      | Some (c, d) => if (c * pd =? pn * d) && negb (c =? 0) then Some r else None
      | None => None
      end
    | None => None
    end
  | _, _ => None
  end.

Module Expression.

Definition __init__ (tokens : list Token) : M ref := alloc (OExpression tokens).

(** [Expression.add_token] *)
Definition add_token (self : ref) (token : Token) : M unit :=
  ts <- get_tokens self ;;
  set_tokens self (ts ++ [token]).

Definition remove_spaces (s : str) : str :=
  filter (fun c => negb (Ascii.eqb c " ")) s.

(** The two places of [Expression.parse] where a finished literal becomes a
    value token. *)
Definition flush (ex : ref) (building_digit : bool) (working_digit : str) : M unit :=
  if building_digit
  then
    x <- Rational.parse working_digit ;;
    add_token ex (TokVal x)
  else ret tt.

(** The [while] loop of [Expression.parse]; [parse_] is [Expression.parse]
    itself, [n] bounds the number of iterations.  [Operation_parse] finds an
    operation exactly for the characters of the list the source tests. *)
Fixpoint parse_loop (parse_ : str -> M ref) (n : nat) (s : str) (ex : ref)
    (i : nat) (building_digit : bool) (working_digit : str) : M unit :=
  match n with
  | O => timeout
  | S n' =>
    match nth_error s i with
    | None => flush ex building_digit working_digit
    | Some char =>
      if is_digit char || Ascii.eqb char "."
      then parse_loop parse_ n' s ex (S i) true (working_digit ++ [char])
      else
        flush ex building_digit working_digit ;;
        let working_digit := if building_digit then [] else working_digit in
        match Operation_parse char with
        | Some o =>
          add_token ex (TokOp o) ;;
          parse_loop parse_ n' s ex (S i) false working_digit
        | None =>
          if Ascii.eqb char "("
          then
            ts <- get_tokens ex ;;
            (if (0 <? Z.of_nat (List.length ts))
                && match py_index ts (-1) with
                   | Ret t => Token_is_value t
                   | _ => false
                   end
             then add_token ex (TokOp MULTIPLY)
             else ret tt) ;;
            parens_location <- lift (find_matching_parens s i) ;;
            subex <- parse_ (substring s (i + 1) parens_location) ;;
            add_token ex (TokVal subex) ;;
            parse_loop parse_ n' s ex (S parens_location) false working_digit
          else raise (ValueError "Couldn't parse an invalid Expression!")
        end
    end
  end.

Fixpoint parse_fuel (fuel : nat) (s : str) : M ref :=
  match fuel with
  | O => timeout
  | S fuel' =>
    let s := remove_spaces s in
    ex <- __init__ [] ;;
    parse_loop (parse_fuel fuel') (S (List.length s)) s ex 0 false [] ;;
    ret ex
  end.

(** [Expression.parse]: the nesting depth is at most the length of the
    string. *)
Definition parse (s : str) : M ref := parse_fuel (S (List.length s)) s.

(** [Expression.is_valid] *)
Fixpoint is_valid_loop (tokens : list Token) (on_value : bool) : bool :=
  match tokens with
  | [] => true
  | token :: rest =>
    if negb (Bool.eqb (Token_is_value token) on_value)
    then false
    else is_valid_loop rest (negb on_value)
  end.

Definition is_valid (self : ref) : M bool :=
  ts <- get_tokens self ;;
  ret (is_valid_loop ts true).

Definition in_operations (t : Token) (operations : list Operation) : bool :=
  match Token_operation t with
  | Some o => existsb (Operation_eqb o) operations
  | None => false
  end.

(** The [while] loop of [Expression.consolidate]. *)
Fixpoint consolidate_loop (fuel : nat) (self : ref) (operations : list Operation)
    (i : Z) : M unit :=
  match fuel with
  | O => timeout
  | S fuel' =>
    ts <- get_tokens self ;;
    let len := Z.of_nat (List.length ts) in
    if (i <? len) && (4 <=? len)
    then
      t <- lift (py_index ts i) ;;
      if Token_is_operation t && in_operations t operations
      then
        t1 <- lift (py_index ts (i - 1)) ;;
        t2 <- lift (py_index ts i) ;;
        t3 <- lift (py_index ts (i + 1)) ;;
        ex <- __init__ [t1; t2; t3] ;;
        ts <- get_tokens self ;;
        set_tokens self
          (py_slice_to ts (i - 1) ++ [TokVal ex] ++ py_slice_from ts (i + 2)) ;;
        consolidate_loop fuel' self operations (0 + 1)
      else consolidate_loop fuel' self operations (i + 1)
    else ret tt
  end.

(** Enough iterations for any token list: a match at index 0 can make the
    list grow once, every later match shortens it by two. *)
Definition consolidate_fuel (len : nat) : nat := S ((2 * len + 2) * (2 * len + 2)).

(** [Expression.consolidate] *)
Definition consolidate (self : ref) (operations : list Operation) : M unit :=
  ts <- get_tokens self ;;
  consolidate_loop (consolidate_fuel (List.length ts)) self operations 0.

(** [Expression.pemdas] *)
Definition pemdas (self : ref) : M unit :=
  consolidate self [EXPONENT] ;;
  consolidate self [MULTIPLY; DIVIDE] ;;
  consolidate self [ADD; SUBTRACT].

Section Evaluation.

Variable float_pow : pow_function.

(** [op] of Expression.py; [None] is the [operation] attribute of a value
    token. *)
Definition op (a b : ref) (operation : option Operation) : M ref :=
  match operation with
  | Some ADD => Rational.add a b true
  | Some SUBTRACT => Rational.subtract a b true
  | Some MULTIPLY => Rational.multiply a b true
  | Some DIVIDE => Rational.divide a b true
  | Some EXPONENT =>
    x <- Rational.as_float a ;;
    y <- Rational.as_float b ;;
    p <- lift (float_pow x y) ;;
    Rational.__init__ (F p) (I 1) true
  | None => raise (ValueError "Invalid operation!")
  end.

Definition token_at (self : ref) (i : Z) : M Token :=
  ts <- get_tokens self ;;
  lift (py_index ts i).

Definition get_obj (self : ref) : M obj := fun h =>
  match nth_error h self with
  | Some o => (Ret o, h)
  | None => (Raise (no_attribute "calculate"), h)
  end.

(** [token.value.calculate()]: the [value] attribute of an operator token is
    [None]. *)
Definition value_calculate (calculate_ : ref -> M ref) (t : Token) : M ref :=
  match Token_value t with
  | Some v => calculate_ v
  | None => raise (no_attribute "calculate")
  end.

(** The body of [calculate]: [Rational.calculate] for a Rational receiver,
    [Expression.calculate] for an Expression; [calculate_] is the method
    itself, called on the values of tokens. *)
Definition calculate_body (calculate_ : ref -> M ref) (self : ref) : M ref :=
  o <- get_obj self ;;
  match o with
  | ORational _ _ => ret self
  | OExpression _ =>
    valid <- is_valid self ;;
    if negb valid
    then raise (Exception_ "Can't calculate an invalid expression!")
    else
      ts <- get_tokens self ;;
      if Z.of_nat (List.length ts) =? 1
      then
        t <- token_at self 0 ;;
        value_calculate calculate_ t
      else
        pemdas self ;;
        valid <- is_valid self ;;
        if negb valid
        then raise (Exception_ "Something really went wrong!")
        else
          t0 <- token_at self 0 ;;
          a <- value_calculate calculate_ t0 ;;
          t2 <- token_at self 2 ;;
          b <- value_calculate calculate_ t2 ;;
          t1 <- token_at self 1 ;;
          op a b (Token_operation t1)
  end.

(** [calculate]; [fuel] bounds the depth of the recursion into nested
    expressions. *)
Fixpoint calculate (fuel : nat) (self : ref) : M ref :=
  match fuel with
  | O => timeout
  | S fuel' => calculate_body (calculate fuel') self
  end.

End Evaluation.

End Expression.

(** ** The program as a whole, and the vocabulary of the properties *)

(** What app.py does with its argument, short of printing: parse, then
    calculate, starting from an empty store.  The outcome is the state of
    the returned Rational. *)
Definition parse_then_calculate (float_pow : pow_function) (fuel : nat)
    (s : string) : outcome obj :=
  match (ex <- Expression.parse (list_ascii_of_string s) ;;
         Expression.calculate float_pow fuel ex) [] with
  | (Ret r, h) =>
    match nth_error h r with
    | Some o => Ret o
    | None => Raise (no_attribute "numer")
    end
  | (Raise e, _) => Raise e
  | (Timeout, _) => Timeout
  end.

(** [main] of app.py once the command line is read: [float_only] and
    [expression] are the two fields of the parsed arguments.  The outcome is
    the string that is printed and returned. *)
Definition main (float_pow : pow_function) (float_str : float -> str)
    (log10 : num -> float) (fuel : nat) (float_only : bool)
    (expression : list str) : M str :=
  ex <- Expression.parse (join_spaces expression) ;;
  r <- Expression.calculate float_pow fuel ex ;;
  Rational.to_string float_str log10 r float_only.

(** The assumption made on Python's [**]: when the power of a finite float
    by an integer is itself a float, [**] returns it. *)
Definition pow_exact (float_pow : pow_function) : Prop :=
  forall x y r, exact_pow x y = Some r -> float_pow x y = Ret r.

(** The least defined function that satisfies the assumption: it answers
    nothing where the assumption says nothing. *)
Definition pow_exact_only : pow_function :=
  fun x y =>
    match exact_pow x y with
    | Some r => Ret r
    | None => Timeout
    end.

(** The function that answers nothing at all. *)
Definition pow_undefined : pow_function := fun _ _ => Timeout.

(** [m'] does what [m] does wherever [m] gives an answer. *)
Definition refines {A : Type} (m m' : M A) : Prop :=
  forall h o h', m h = (o, h') -> o <> Timeout -> m' h = (o, h').

Definition pow_refines (p p' : pow_function) : Prop :=
  forall x y o, p x y = o -> o <> Timeout -> p' x y = o.

(** The alternation invariant of the specification: value, operator, value,
    ..., starting and ending on a value. *)
Inductive alternating : list Token -> Prop :=
| alternating_one : forall v, alternating [TokVal v]
| alternating_more : forall v o rest,
    alternating rest -> alternating (TokVal v :: TokOp o :: rest).

(** No operator of the list [operations] occurs among the tokens. *)
Definition free_of (operations : list Operation) (ts : list Token) : Prop :=
  forall t, In t ts -> Expression.in_operations t operations = false.


Definition float_two : float := S754_finite false 4503599627370496 (-51).
Definition float_eight : float := S754_finite false 4503599627370496 (-49).
Definition float_sixty_four : float := S754_finite false 4503599627370496 (-46).
Definition float_half : float := S754_finite false 4503599627370496 (-53).
Definition float_minus_one : float := S754_finite true 4503599627370496 (-52).

(** [m] only allocates and changes objects from position [k] on: the
    store does not shrink and the objects below [k] stay as they are. *)
Definition preserves_below {A : Type} (k : nat) (m : M A) : Prop :=
  forall h o h', m h = (o, h') -> (k <= List.length h)%nat ->
  (List.length h <= List.length h')%nat /\
  forall i, (i < k)%nat -> nth_error h' i = nth_error h i.

(** [n' / d'] is the fraction [n / d] in lowest terms. *)
Definition lowest_terms_of (n d n' d' : Z) : Prop :=
  Z.gcd n' d' = 1 /\ d' <> 0 /\ n' * d = n * d'.

(** How tightly an operator binds: the tiers of [pemdas], from the last
    one to the first. *)
Definition tier (o : Operation) : nat :=
  match o with
  | ADD | SUBTRACT => 0
  | MULTIPLY | DIVIDE => 1
  | EXPONENT => 2
  end.

(** The parentheses of a text are balanced from nesting depth [level]:
    no closing parenthesis comes at depth 0, and the depth is 0 at the
    end. *)
Fixpoint balanced (level : Z) (s : str) : bool :=
  match s with
  | [] => level =? 0
  | c :: rest =>
    if Ascii.eqb c "(" then balanced (level + 1) rest
    else if Ascii.eqb c ")"
    then if level =? 0 then false else balanced (level - 1) rest
    else balanced level rest
  end.

(** The characters that [Expression.parse] has a case for. *)
Definition in_alphabet (c : ascii) : bool :=
  is_digit c || Ascii.eqb c "."
  || match Operation_parse c with Some _ => true | None => false end
  || Ascii.eqb c "(" || Ascii.eqb c ")".

(** The exception of [find_matching_parens]. *)
Definition unmatched_message : exn := ValueError "Couldn't find a matching parens!".

(** [m] never runs out of steps. *)
Definition no_timeout {A : Type} (m : M A) : Prop :=
  forall h o h', m h = (o, h') -> o <> Timeout.


(** [m] leaves every Expression of the store an Expression. *)
Definition keeps_expressions {A : Type} (m : M A) : Prop :=
  forall h o h', m h = (o, h') ->
  forall r ts, nth_error h r = Some (OExpression ts) ->
  exists ts', nth_error h' r = Some (OExpression ts').


(** The steps that the loop of [consolidate] may still need from index [i]
    on a list of [len] tokens are within [fuel]. *)
Definition enough_steps (fuel len : nat) (i : Z) : Prop :=
  (1 <= fuel)%nat /\
  (i = 0 -> ((2 * len + 2) * (2 * len + 2) < fuel)%nat) /\
  (0 < i < Z.of_nat len -> Z.of_nat (len * len + len + 1) <= Z.of_nat fuel + i).

(** What an iteration of the loop of [parse] does at an opening parenthesis
    once the pending literal is flushed and the implicit operator decided:
    match the parenthesis, parse what is inside, emit it, go on after the
    closing parenthesis. *)
Definition after_open_paren (parse_ : str -> M ref) (n : nat) (s : str) (ex : ref)
    (i : nat) (working_digit : str) : M unit :=
  parens_location <- lift (find_matching_parens s i) ;;
  subex <- parse_ (substring s (i + 1) parens_location) ;;
  Expression.add_token ex (TokVal subex) ;;
  Expression.parse_loop parse_ n s ex (S parens_location) false working_digit.

(** ** The rounding of quotients, checked on samples *)

(** The rounding written here for [int / int] and [float(int)] agrees with
    the division and the normalisation of the Standard Library's IEEE 754
    specification, on samples that cover exact results, ties, 54-bit
    quotients, subnormal results and overflow. *)
Lemma rounding_agrees_with_SpecFloat_on_samples :
  round_ratio 2 1 = float_two /\
  round_ratio 8 1 = float_eight /\
  round_ratio 1 2 = float_half /\
  round_ratio (-1) 1 = float_minus_one /\
  Forall (fun z => round_ratio z 1 = binary_normalize prec emax z 0 false)
    [1; 3; -7; 2 ^ 53 + 1; 2 ^ 53 + 3; 2 ^ 54 + 3; 10 ^ 308; 10 ^ 309;
     - (10 ^ 400); 2 ^ 1024 - 2 ^ 970; 2 ^ 1024 - 2 ^ 970 - 1] /\
  Forall (fun ab =>
            round_ratio (Zpos (fst ab)) (Zpos (snd ab))
            = SFdiv prec emax (S754_finite false (fst ab) 0) (S754_finite false (snd ab) 0))
    [(1, 3); (2, 3); (1, 10); (7, 10 ^ 400); (10 ^ 400, 7); (1, 2 ^ 1074);
     (1, 2 ^ 1075); (3, 2 ^ 1075); (3, 2 ^ 1076); (2 ^ 54 + 3, 1);
     (9007199254740993, 3); (10 ^ 30, 10 ^ 7 + 1)]%positive.
Proof.
  repeat split;
    repeat (apply Forall_cons; [vm_compute; reflexivity|]);
    try apply Forall_nil; vm_compute; reflexivity.
Qed.

(** ** Properties of the store and of the monad *)

Lemma update_length : forall (A : Type) (l : list A) i a,
  List.length (update l i a) = List.length l.
Proof.
  induction l as [|x l IH]; intros [|i] a; simpl; auto.
Qed.

Lemma nth_error_update_eq : forall (A : Type) (l : list A) i a,
  (i < List.length l)%nat -> nth_error (update l i a) i = Some a.
Proof.
  induction l as [|x l IH]; intros [|i] a Hi; simpl in *; try lia; auto.
  apply IH. lia.
Qed.

Lemma nth_error_update_neq : forall (A : Type) (l : list A) i j a,
  i <> j -> nth_error (update l i a) j = nth_error l j.
Proof.
  induction l as [|x l IH]; intros [|i] [|j] a Hij; simpl; auto;
    try congruence.
Qed.

Lemma update_update : forall (A : Type) (l : list A) i a b,
  update (update l i a) i b = update l i b.
Proof.
  induction l as [|x l IH]; intros [|i] a b; simpl; auto.
  f_equal. apply IH.
Qed.

Lemma nth_error_in_bounds : forall (A : Type) (l : list A) i a,
  nth_error l i = Some a -> (i < List.length l)%nat.
Proof.
  intros A l i a H. apply nth_error_Some. congruence.
Qed.

Lemma nth_error_alloc_old : forall (h : heap) o i x,
  nth_error h i = Some x -> nth_error (h ++ [o]) i = Some x.
Proof.
  intros h o i x H. rewrite nth_error_app1; auto.
  eapply nth_error_in_bounds; eauto.
Qed.

Lemma nth_error_alloc_new : forall (h : heap) o,
  nth_error (h ++ [o]) (List.length h) = Some o.
Proof.
  intros h o. rewrite nth_error_app2 by lia.
  rewrite Nat.sub_diag. reflexivity.
Qed.

Lemma bind_ret_eq : forall (A B : Type) (m : M A) (f : A -> M B) h a h1,
  m h = (Ret a, h1) -> bind m f h = f a h1.
Proof. intros A B m f h a h1 H. unfold bind. rewrite H. reflexivity. Qed.

Lemma bind_raise_eq : forall (A B : Type) (m : M A) (f : A -> M B) h e h1,
  m h = (Raise e, h1) -> bind m f h = (Raise e, h1).
Proof. intros A B m f h e h1 H. unfold bind. rewrite H. reflexivity. Qed.

Lemma bind_timeout_eq : forall (A B : Type) (m : M A) (f : A -> M B) h h1,
  m h = (Timeout, h1) -> bind m f h = (Timeout, h1).
Proof. intros A B m f h h1 H. unfold bind. rewrite H. reflexivity. Qed.

Lemma bind_lift : forall (A B : Type) (o : outcome A) (f : A -> M B) h,
  bind (lift o) f h
  = match o with
    | Ret a => f a h
    | Raise e => (Raise e, h)
    | Timeout => (Timeout, h)
    end.
Proof. intros A B [a|e|] f h; reflexivity. Qed.

Lemma bind_ret_inv : forall (A B : Type) (m : M A) (f : A -> M B) h b h',
  bind m f h = (Ret b, h') ->
  exists a h1, m h = (Ret a, h1) /\ f a h1 = (Ret b, h').
Proof.
  intros A B m f h b h' H. unfold bind in H.
  destruct (m h) as [[a|e|] h1]; try discriminate. eauto.
Qed.

Lemma get_tokens_eq : forall h self ts,
  nth_error h self = Some (OExpression ts) -> get_tokens self h = (Ret ts, h).
Proof. intros h self ts H. unfold get_tokens. rewrite H. reflexivity. Qed.

Lemma set_tokens_eq : forall h self ts ts',
  nth_error h self = Some (OExpression ts) ->
  set_tokens self ts' h = (Ret tt, update h self (OExpression ts')).
Proof. intros h self ts ts' H. unfold set_tokens. rewrite H. reflexivity. Qed.

Lemma get_numer_eq : forall h self n d,
  nth_error h self = Some (ORational n d) -> get_numer self h = (Ret n, h).
Proof. intros h self n d H. unfold get_numer. rewrite H. reflexivity. Qed.

Lemma get_denom_eq : forall h self n d,
  nth_error h self = Some (ORational n d) -> get_denom self h = (Ret d, h).
Proof. intros h self n d H. unfold get_denom. rewrite H. reflexivity. Qed.

Lemma set_numer_eq : forall h self n d n',
  nth_error h self = Some (ORational n d) ->
  set_numer self n' h = (Ret tt, update h self (ORational n' d)).
Proof. intros h self n d n' H. unfold set_numer. rewrite H. reflexivity. Qed.

Lemma set_denom_eq : forall h self n d d',
  nth_error h self = Some (ORational n d) ->
  set_denom self d' h = (Ret tt, update h self (ORational n d')).
Proof. intros h self n d d' H. unfold set_denom. rewrite H. reflexivity. Qed.

Lemma add_token_eq : forall h self ts t,
  nth_error h self = Some (OExpression ts) ->
  Expression.add_token self t h = (Ret tt, update h self (OExpression (ts ++ [t]))).
Proof.
  intros h self ts t H. unfold Expression.add_token.
  rewrite (bind_ret_eq _ _ _ _ _ _ _ (get_tokens_eq _ _ _ H)).
  eapply set_tokens_eq; eauto.
Qed.

Lemma refines_refl : forall (A : Type) (m : M A), refines m m.
Proof. intros A m h o h' H _. exact H. Qed.

Lemma refines_bind : forall (A B : Type) (m m' : M A) (f f' : A -> M B),
  refines m m' -> (forall a, refines (f a) (f' a)) ->
  refines (bind m f) (bind m' f').
Proof.
  intros A B m m' f f' Hm Hf h o h' H Ho.
  unfold bind in *.
  destruct (m h) as [[a|e|] h1] eqn:E.
  - rewrite (Hm _ _ _ E) by discriminate. apply Hf; assumption.
  - rewrite (Hm _ _ _ E) by discriminate. assumption.
  - inversion H; subst. congruence.
Qed.

Lemma refines_timeout : forall (A : Type) (m : M A), refines timeout m.
Proof.
  intros A m h o h' H Ho. unfold timeout in H. inversion H; subst. congruence.
Qed.

Lemma refines_lift : forall (A : Type) (o o' : outcome A),
  (o <> Timeout -> o' = o) -> refines (lift o) (lift o').
Proof.
  intros A o o' H h r h' E Hr. unfold lift in *.
  inversion E; subst. rewrite H; auto.
Qed.

Lemma pow_exact_only_exact : pow_exact pow_exact_only.
Proof.
  intros x y r H. unfold pow_exact_only. rewrite H. reflexivity.
Qed.

Lemma pow_exact_refines : forall float_pow,
  pow_exact float_pow -> pow_refines pow_exact_only float_pow.
Proof.
  intros fp H x y o E Ho. unfold pow_exact_only in E.
  destruct (exact_pow x y) as [r|] eqn:Er.
  - subst o. apply H. assumption.
  - congruence.
Qed.

Lemma pow_undefined_refines : forall float_pow,
  pow_refines pow_undefined float_pow.
Proof.
  intros fp x y o E Ho. unfold pow_undefined in E. congruence.
Qed.

Lemma op_refines : forall p p' a b o,
  pow_refines p p' -> refines (Expression.op p a b o) (Expression.op p' a b o).
Proof.
  intros p p' a b o Hp.
  destruct o as [[| | | |]|]; simpl; try apply refines_refl.
  apply refines_bind; [apply refines_refl|]. intro x.
  apply refines_bind; [apply refines_refl|]. intro y.
  apply refines_bind; [|intro; apply refines_refl].
  apply refines_lift. intro H. apply Hp; auto.
Qed.

Lemma value_calculate_refines : forall (c c' : ref -> M ref) t,
  (forall v, refines (c v) (c' v)) ->
  refines (Expression.value_calculate c t) (Expression.value_calculate c' t).
Proof.
  intros c c' t H. unfold Expression.value_calculate.
  destruct (Token_value t); [apply H | apply refines_refl].
Qed.

Lemma calculate_body_refines : forall p p' (c c' : ref -> M ref) self,
  pow_refines p p' -> (forall v, refines (c v) (c' v)) ->
  refines (Expression.calculate_body p c self) (Expression.calculate_body p' c' self).
Proof.
  intros p p' c c' self Hp Hc. unfold Expression.calculate_body.
  apply refines_bind; [apply refines_refl|]. intros [n d|ts]; [apply refines_refl|].
  apply refines_bind; [apply refines_refl|]. intros valid.
  destruct (negb valid); [apply refines_refl|].
  apply refines_bind; [apply refines_refl|]. intros ts'.
  destruct (Z.of_nat (List.length ts') =? 1).
  - apply refines_bind; [apply refines_refl|]. intro t.
    apply value_calculate_refines, Hc.
  - apply refines_bind; [apply refines_refl|]. intros _.
    apply refines_bind; [apply refines_refl|]. intros valid'.
    destruct (negb valid'); [apply refines_refl|].
    apply refines_bind; [apply refines_refl|]. intros t0.
    apply refines_bind; [apply value_calculate_refines, Hc|]. intros a.
    apply refines_bind; [apply refines_refl|]. intros t2.
    apply refines_bind; [apply value_calculate_refines, Hc|]. intros b.
    apply refines_bind; [apply refines_refl|]. intros t1.
    apply op_refines. assumption.
Qed.

(** More fuel and a more defined power function change no answer of
    [calculate]. *)
Lemma calculate_refines : forall p p', pow_refines p p' ->
  forall fuel fuel' self, (fuel <= fuel')%nat ->
  refines (Expression.calculate p fuel self) (Expression.calculate p' fuel' self).
Proof.
  intros p p' Hp.
  induction fuel as [|fuel IH]; intros fuel' self Hle.
  - apply refines_timeout.
  - destruct fuel' as [|fuel']; [lia|]. simpl.
    apply calculate_body_refines; [assumption|].
    intro v. apply IH. lia.
Qed.

Lemma parse_then_calculate_refines : forall p p' fuel fuel' s o,
  pow_refines p p' -> (fuel <= fuel')%nat ->
  parse_then_calculate p fuel s = o -> o <> Timeout ->
  parse_then_calculate p' fuel' s = o.
Proof.
  intros p p' fuel fuel' s o Hp Hle H Ho.
  unfold parse_then_calculate in *.
  assert (R : refines
    (ex <- Expression.parse (list_ascii_of_string s) ;; Expression.calculate p fuel ex)
    (ex <- Expression.parse (list_ascii_of_string s) ;; Expression.calculate p' fuel' ex)).
  { apply refines_bind; [apply refines_refl|]. intro ex.
    apply calculate_refines; assumption. }
  destruct ((ex <- Expression.parse (list_ascii_of_string s) ;;
             Expression.calculate p fuel ex) []) as [[r|e|] h] eqn:E.
  - rewrite (R _ _ _ E) by discriminate. assumption.
  - rewrite (R _ _ _ E) by discriminate. assumption.
  - congruence.
Qed.

(** Evaluates a closed instance with the least defined power function and
    the least fuel, then transfers the answer. *)
Ltac by_evaluation Hp :=
  match goal with
  | |- parse_then_calculate _ (?n + _) _ = _ =>
    apply (parse_then_calculate_refines pow_exact_only _ n);
    [ apply pow_exact_refines; exact Hp | lia | vm_compute; reflexivity | discriminate ]
  end.

Ltac by_evaluation_any_pow :=
  match goal with
  | |- parse_then_calculate _ (?n + _) _ = _ =>
    apply (parse_then_calculate_refines pow_undefined _ n);
    [ apply pow_undefined_refines | lia | vm_compute; reflexivity | discriminate ]
  end.

(** ** Precedence *)

(** C1. Parsing then calculating resolves precedence: ["2+3*4"] gives the
    Rational 14/1, ["(2+3)*4"] gives 20/1, and ["2^3^2"] is consolidated as
    [(2^3)^2] and gives the float 64.0 over 1, which [__eq__] finds equal to
    Rational(64) (and not to Rational(512)).  Any recursion depth from 3 on gives these answers; [**] is
    assumed exact on exact integer powers. *)
Theorem precedence_is_resolved : forall float_pow k,
  pow_exact float_pow ->
  parse_then_calculate float_pow (3 + k) "2+3*4" = Ret (ORational (I 14) (I 1)) /\
  parse_then_calculate float_pow (3 + k) "(2+3)*4" = Ret (ORational (I 20) (I 1)) /\
  parse_then_calculate float_pow (3 + k) "2^3^2"
    = Ret (ORational (F float_sixty_four) (I 1)) /\
  fst (Rational.__eq__ 0%nat 1%nat
         [ORational (F float_sixty_four) (I 1); ORational (I 64) (I 1)]) = Ret true /\
  fst (Rational.__eq__ 0%nat 1%nat
         [ORational (F float_sixty_four) (I 1); ORational (I 512) (I 1)]) = Ret false /\
  (ex <- Expression.parse (list_ascii_of_string "2^3^2") ;;
   Expression.pemdas ex ;; ret ex) []
    = (Ret 0%nat,
       [OExpression [TokVal 4%nat; TokOp EXPONENT; TokVal 3%nat];
        ORational (I 2) (I 1); ORational (I 3) (I 1); ORational (I 2) (I 1);
        OExpression [TokVal 1%nat; TokOp EXPONENT; TokVal 2%nat]]).
Proof.
  intros float_pow k Hp.
  repeat split; try by_evaluation Hp; vm_compute; reflexivity.
Qed.

Lemma precedence_is_resolved_witness :
  pow_exact pow_exact_only /\
  parse_then_calculate pow_exact_only 3 "2^3^2"
    = Ret (ORational (F float_sixty_four) (I 1)).
Proof.
  split.
  - exact pow_exact_only_exact.
  - exact (proj1 (proj2 (proj2
      (precedence_is_resolved pow_exact_only 0 pow_exact_only_exact)))).
Defined.

(** ** Exactness of division and addition *)

(** C3. ["1/3 + 1/3 + 1/3"] evaluates to the Rational 1/1 exactly, but
    division and addition are not exact in general: [simplify] takes its
    quotients through a float, and they drift from 53 bits on.
    ["1/2+9007199254740993"] evaluates to 18014398509481988/2, which is
    neither the sum 18014398509481987/2 nor in lowest terms, and
    ["18014398509481987/2"] evaluates to 18014398509481988/2 as well.
    This holds whatever the power function, for any recursion depth from
    4, 3 and 2 on. *)
Theorem evaluation_drifts_beyond_53_bits : forall float_pow k,
  parse_then_calculate float_pow (4 + k) "1/3 + 1/3 + 1/3"
    = Ret (ORational (I 1) (I 1)) /\
  parse_then_calculate float_pow (3 + k) "1/2+9007199254740993"
    = Ret (ORational (I 18014398509481988) (I 2)) /\
  18014398509481988 * (2 * 1) <> (1 * 1 + 9007199254740993 * 2) * 2 /\
  parse_then_calculate float_pow (2 + k) "18014398509481987/2"
    = Ret (ORational (I 18014398509481988) (I 2)) /\
  18014398509481988 * 2 <> 18014398509481987 * 2 /\
  Z.gcd 18014398509481988 2 <> 1.
Proof.
  intros float_pow k.
  repeat split; try by_evaluation_any_pow; vm_compute; discriminate.
Qed.

(** ** Implicit multiplication *)

Lemma py_index_last : forall (A : Type) (l : list A) a,
  py_index (l ++ [a]) (-1) = Ret a.
Proof.
  intros A l a. unfold py_index. rewrite length_app. simpl List.length.
  replace (-1 <? 0) with true by reflexivity.
  replace (-1 + Z.of_nat (List.length l + 1)) with (Z.of_nat (List.length l)) by lia.
  replace (0 <=? Z.of_nat (List.length l)) with true by (symmetry; apply Z.leb_le; lia).
  replace (Z.of_nat (List.length l) <? Z.of_nat (List.length l + 1)) with true
    by (symmetry; apply Z.ltb_lt; lia).
  simpl. rewrite Nat2Z.id, nth_error_app2 by lia.
  rewrite Nat.sub_diag. reflexivity.
Qed.

(** C4. When the scan meets ["("], the pending literal is flushed; then, if
    the last token emitted is a value, a MULTIPLY token is appended before
    the parenthesis is matched and the nested expression parsed, and if
    there is no token yet or the last one is an operator, none is.
    ["2(3+1)"] and ["(1+1)(2+2)"] parse to [value * value] and evaluate to
    8/1. *)
Theorem implicit_multiplication :
  forall (parse_ : str -> M ref) n s ex i building_digit working_digit h h1 ts
         float_pow k,
  nth_error s i = Some "("%char ->
  Expression.flush ex building_digit working_digit h = (Ret tt, h1) ->
  nth_error h1 ex = Some (OExpression ts) ->
  ((exists ts' v, ts = ts' ++ [TokVal v]) ->
   Expression.parse_loop parse_ (S n) s ex i building_digit working_digit h
   = after_open_paren parse_ n s ex i (if building_digit then [] else working_digit)
       (update h1 ex (OExpression (ts ++ [TokOp MULTIPLY])))) /\
  (ts = [] \/ (exists ts' o, ts = ts' ++ [TokOp o]) ->
   Expression.parse_loop parse_ (S n) s ex i building_digit working_digit h
   = after_open_paren parse_ n s ex i (if building_digit then [] else working_digit)
       h1) /\
  Expression.parse (list_ascii_of_string "2(3+1)") []
    = (Ret 0%nat,
       [OExpression [TokVal 1%nat; TokOp MULTIPLY; TokVal 2%nat];
        ORational (I 2) (I 1);
        OExpression [TokVal 3%nat; TokOp ADD; TokVal 4%nat];
        ORational (I 3) (I 1); ORational (I 1) (I 1)]) /\
  Expression.parse (list_ascii_of_string "(1+1)(2+2)") []
    = (Ret 0%nat,
       [OExpression [TokVal 1%nat; TokOp MULTIPLY; TokVal 4%nat];
        OExpression [TokVal 2%nat; TokOp ADD; TokVal 3%nat];
        ORational (I 1) (I 1); ORational (I 1) (I 1);
        OExpression [TokVal 5%nat; TokOp ADD; TokVal 6%nat];
        ORational (I 2) (I 1); ORational (I 2) (I 1)]) /\
  parse_then_calculate float_pow (3 + k) "2(3+1)" = Ret (ORational (I 8) (I 1)) /\
  parse_then_calculate float_pow (3 + k) "(1+1)(2+2)" = Ret (ORational (I 8) (I 1)).
Proof.
  intros parse_ n s ex i b w h h1 ts float_pow k Hc Hflush Hex.
  assert (Hstep : forall decide h2,
    (if (0 <? Z.of_nat (List.length ts))
        && match py_index ts (-1) with
           | Ret t => Token_is_value t
           | _ => false
           end
     then Expression.add_token ex (TokOp MULTIPLY)
     else ret tt) h1 = (Ret decide, h2) ->
    Expression.parse_loop parse_ (S n) s ex i b w h
    = after_open_paren parse_ n s ex i (if b then [] else w) h2).
  { intros [] h2 Hd. cbn [Expression.parse_loop]. rewrite Hc.
    replace (is_digit "(" || Ascii.eqb "(" ".")%bool with false by reflexivity.
    rewrite (bind_ret_eq _ _ _ _ _ _ _ Hflush).
    replace (Operation_parse "(") with (@None Operation) by reflexivity.
    replace (Ascii.eqb "(" "(") with true by reflexivity.
    erewrite bind_ret_eq by (eapply get_tokens_eq; eauto). cbv beta.
    rewrite (bind_ret_eq _ _ _ _ _ _ _ Hd). reflexivity. }
  split; [|split; [|repeat split; try by_evaluation_any_pow; vm_compute; reflexivity]].
  - intros [ts' [v ->]]. apply Hstep with (decide := tt).
    rewrite py_index_last.
    replace (0 <? Z.of_nat (List.length (ts' ++ [TokVal v]))) with true
      by (symmetry; apply Z.ltb_lt; rewrite length_app; simpl; lia).
    cbn [andb Token_is_value]. eapply add_token_eq; eauto.
  - intros [->|[ts' [o ->]]]; apply Hstep with (decide := tt).
    + reflexivity.
    + rewrite py_index_last. cbn [Token_is_value]. rewrite andb_false_r. reflexivity.
Qed.

Lemma implicit_multiplication_witness :
  Expression.parse_loop (Expression.parse_fuel 6) 7 (list_ascii_of_string "2(3+1)")
      0%nat 1%nat true (list_ascii_of_string "2") [OExpression []]
    = after_open_paren (Expression.parse_fuel 6) 6 (list_ascii_of_string "2(3+1)")
        0%nat 1%nat []
        [OExpression [TokVal 1%nat; TokOp MULTIPLY]; ORational (I 2) (I 1)].
Proof.
  apply (proj1 (implicit_multiplication (Expression.parse_fuel 6) 6
    (list_ascii_of_string "2(3+1)") 0%nat 1%nat true (list_ascii_of_string "2")
    [OExpression []] [OExpression [TokVal 1%nat]; ORational (I 2) (I 1)]
    [TokVal 1%nat] pow_undefined 0 eq_refl eq_refl eq_refl)).
  exists [], 1%nat. reflexivity.
Defined.

(** ** Validity and evaluation *)

(** A token list whose alternation breaks somewhere along the list is
    refused at once: nothing is consolidated, no object is touched. *)
Lemma calculate_refuses_broken_alternation : forall float_pow fuel h self ts,
  nth_error h self = Some (OExpression ts) ->
  Expression.is_valid_loop ts true = false ->
  Expression.calculate float_pow (S fuel) self h
    = (Raise (Exception_ "Can't calculate an invalid expression!"), h).
Proof.
  intros float_pow fuel h self ts Hs Hv.
  change (Expression.calculate float_pow (S fuel) self)
    with (Expression.calculate_body float_pow (Expression.calculate float_pow fuel) self).
  unfold Expression.calculate_body.
  erewrite bind_ret_eq by (unfold Expression.get_obj; rewrite Hs; reflexivity).
  cbv beta iota. erewrite bind_ret_eq.
  2:{ unfold Expression.is_valid.
      erewrite bind_ret_eq by (eapply get_tokens_eq; eauto). reflexivity. }
  cbv beta. rewrite Hv. reflexivity.
Qed.

(** C5. [is_valid] does not look at where the token list stops, so
    [calculate] does not refuse the empty list nor a list that ends on an
    operator: ["1+"] and [""] pass the check and fail later on an index, and
    for ["1*2+"] the product is consolidated and computed before that. *)
Theorem calculate_misses_trailing_operator : forall float_pow k,
  Expression.parse (list_ascii_of_string "1+") []
    = (Ret 0%nat, [OExpression [TokVal 1%nat; TokOp ADD]; ORational (I 1) (I 1)]) /\
  Expression.is_valid_loop [TokVal 1%nat; TokOp ADD] true = true /\
  ~ alternating [TokVal 1%nat; TokOp ADD] /\
  parse_then_calculate float_pow (2 + k) "1+"
    = Raise (IndexError "list index out of range") /\
  Expression.is_valid_loop [] true = true /\
  ~ alternating [] /\
  parse_then_calculate float_pow (1 + k) ""
    = Raise (IndexError "list index out of range") /\
  (ex <- Expression.parse (list_ascii_of_string "1*2+") ;;
   Expression.calculate float_pow (3 + k) ex) []
    = (Raise (IndexError "list index out of range"),
       [OExpression [TokVal 3%nat; TokOp ADD]; ORational (I 1) (I 1);
        ORational (I 2) (I 1);
        OExpression [TokVal 1%nat; TokOp MULTIPLY; TokVal 2%nat];
        ORational (I 2) (I 1)]).
Proof.
  intros float_pow k.
  assert (R : refines
    (ex <- Expression.parse (list_ascii_of_string "1*2+") ;;
     Expression.calculate pow_undefined 3 ex)
    (ex <- Expression.parse (list_ascii_of_string "1*2+") ;;
     Expression.calculate float_pow (3 + k) ex)).
  { apply refines_bind; [apply refines_refl|]. intro ex.
    apply calculate_refines; [apply pow_undefined_refines | lia]. }
  split; [vm_compute; reflexivity|].
  split; [reflexivity|].
  split; [intro H; inversion H; subst;
          match goal with H' : alternating [] |- _ => inversion H' end|].
  split; [by_evaluation_any_pow|].
  split; [reflexivity|].
  split; [intro H; inversion H|].
  split; [by_evaluation_any_pow|].
  apply R; [vm_compute; reflexivity | discriminate].
Qed.

(** ** Rational arithmetic *)

(** C6. [simplify] divides with [/] and converts back with [int], so a
    quotient beyond 53 bits is rounded.  Adding or subtracting
    9007199254740993/1 and 0/1 returns the exact result but leaves the first
    operand at 9007199254740992/1; adding 1/2 and 9007199254740993/1 returns
    18014398509481988/2 instead of 18014398509481987/2. *)
Theorem add_rounds_large_operands :
  Rational.add 0%nat 1%nat true
      [ORational (I 9007199254740993) (I 1); ORational (I 0) (I 1)]
    = (Ret 2%nat,
       [ORational (I 9007199254740992) (I 1); ORational (I 0) (I 1);
        ORational (I 9007199254740993) (I 1)]) /\
  Rational.subtract 0%nat 1%nat true
      [ORational (I 9007199254740993) (I 1); ORational (I 0) (I 1)]
    = (Ret 2%nat,
       [ORational (I 9007199254740992) (I 1); ORational (I 0) (I 1);
        ORational (I 9007199254740993) (I 1)]) /\
  Rational.add 0%nat 1%nat true
      [ORational (I 1) (I 2); ORational (I 9007199254740993) (I 1)]
    = (Ret 2%nat,
       [ORational (I 1) (I 2); ORational (I 9007199254740992) (I 1);
        ORational (I 18014398509481988) (I 2)]).
Proof.
  repeat split; vm_compute; reflexivity.
Qed.

(** C7. For a Rational whose denominator is not zero, [reciprocal] raises
    ZeroDivisionError exactly when the numerator is zero, and otherwise
    returns a new Rational with numerator and denominator swapped, not
    simplified. *)
Theorem reciprocal_fails_iff_zero_numerator : forall h x n d,
  nth_error h x = Some (ORational n d) ->
  py_eq d (I 0) = false ->
  Rational.reciprocal x h
    = if py_eq n (I 0)
      then (Raise (ZeroDivisionError "The denominator must not be zero!"), h)
      else (Ret (List.length h), h ++ [ORational d n]).
Proof.
  intros h x n d Hx Hd.
  unfold Rational.reciprocal.
  erewrite bind_ret_eq by (eapply get_denom_eq; eauto). cbv beta. rewrite Hd.
  erewrite bind_ret_eq by (eapply get_denom_eq; eauto). cbv beta.
  erewrite bind_ret_eq by (eapply get_numer_eq; eauto). cbv beta.
  unfold Rational.__init__. destruct (py_eq n (I 0)); [reflexivity|].
  rewrite andb_false_r. reflexivity.
Qed.

Lemma reciprocal_fails_iff_zero_numerator_witness :
  Rational.reciprocal 0%nat [ORational (I 3) (I 4)]
    = (Ret 1%nat, [ORational (I 3) (I 4); ORational (I 4) (I 3)]) /\
  Rational.reciprocal 0%nat [ORational (I 0) (I 4)]
    = (Raise (ZeroDivisionError "The denominator must not be zero!"),
       [ORational (I 0) (I 4)]).
Proof.
  split.
  - exact (reciprocal_fails_iff_zero_numerator
             [ORational (I 3) (I 4)] 0%nat (I 3) (I 4) eq_refl eq_refl).
  - exact (reciprocal_fails_iff_zero_numerator
             [ORational (I 0) (I 4)] 0%nat (I 0) (I 4) eq_refl eq_refl).
Defined.

(** What [main] returns once parsing and calculating have given a Rational:
    more fuel and a more defined power function change nothing. *)
Lemma main_after_evaluation :
  forall float_pow float_str log10 fuel fuel' float_only words h r h1,
  (ex <- Expression.parse (join_spaces words) ;;
   Expression.calculate pow_undefined fuel ex) h = (Ret r, h1) ->
  (fuel <= fuel')%nat ->
  main float_pow float_str log10 fuel' float_only words h
  = Rational.to_string float_str log10 r float_only h1.
Proof.
  intros float_pow float_str log10 fuel fuel' float_only words h r h1 H Hle.
  assert (R : refines
    (ex <- Expression.parse (join_spaces words) ;;
     Expression.calculate pow_undefined fuel ex)
    (ex <- Expression.parse (join_spaces words) ;;
     Expression.calculate float_pow fuel' ex)).
  { apply refines_bind; [apply refines_refl|]. intro ex.
    apply calculate_refines; [apply pow_undefined_refines|assumption]. }
  assert (H' := R _ _ _ H ltac:(discriminate)). clear H R.
  unfold main. unfold bind in *.
  destruct (Expression.parse (join_spaces words) h) as [[ex|e|] h0];
    try discriminate.
  rewrite H'. reflexivity.
Qed.

(** C8. No simplification folds the sign of a negative denominator into
    the numerator, although the callers count on a positive denominator.
    ["1/(0-2)"] evaluates to 1/-2 where ["(0-1)/2"] evaluates to -1/2;
    [simplify] and the constructor leave 1/-2 as it is, and [simplify]
    reduces 2/-4 to 1/-2.  On ["1/(0-2)"] [main] raises the ValueError of
    [math.log10] instead of printing the result; [__eq__] finds 1/-2
    different from -1/2; [is_negative] calls -1/-2 negative. *)
Theorem negative_denominator_is_never_folded :
  forall float_pow float_str log10 k,
  parse_then_calculate float_pow (3 + k) "1/(0-2)"
    = Ret (ORational (I 1) (I (-2))) /\
  parse_then_calculate float_pow (3 + k) "(0-1)/2"
    = Ret (ORational (I (-1)) (I 2)) /\
  Rational.simplify 0%nat [ORational (I 1) (I (-2))]
    = (Ret tt, [ORational (I 1) (I (-2))]) /\
  Rational.simplify 0%nat [ORational (I 2) (I (-4))]
    = (Ret tt, [ORational (I 1) (I (-2))]) /\
  Rational.__init__ (I 1) (I (-2)) true [] = (Ret 0%nat, [ORational (I 1) (I (-2))]) /\
  (exists msg h,
     main float_pow float_str log10 (3 + k) false
       [list_ascii_of_string "1/(0-2)"] []
     = (Raise (ValueError msg), h)) /\
  fst (Rational.__eq__ 0%nat 1%nat
         [ORational (I 1) (I (-2)); ORational (I (-1)) (I 2)]) = Ret false /\
  fst (Rational.is_negative 0%nat [ORational (I (-1)) (I (-2))]) = Ret true.
Proof.
  intros float_pow float_str log10 k.
  split; [by_evaluation_any_pow|]. split; [by_evaluation_any_pow|].
  split; [vm_compute; reflexivity|]. split; [vm_compute; reflexivity|].
  split; [vm_compute; reflexivity|].
  split; [|split; vm_compute; reflexivity].
  eexists. eexists.
  erewrite (main_after_evaluation float_pow float_str log10 3 (3 + k) false
              [list_ascii_of_string "1/(0-2)"] []);
    [|vm_compute; reflexivity|lia].
  cbv. reflexivity.
Qed.

(** ** Consolidation *)

Lemma py_index_of_nat : forall (A : Type) (l : list A) n a,
  nth_error l n = Some a -> py_index l (Z.of_nat n) = Ret a.
Proof.
  intros A l n a H. unfold py_index.
  pose proof (nth_error_in_bounds _ _ _ _ H) as Hn.
  replace (Z.of_nat n <? 0) with false by (symmetry; apply Z.ltb_ge; lia).
  replace (0 <=? Z.of_nat n) with true by (symmetry; apply Z.leb_le; lia).
  replace (Z.of_nat n <? Z.of_nat (List.length l)) with true
    by (symmetry; apply Z.ltb_lt; lia).
  simpl. rewrite Nat2Z.id, H. reflexivity.
Qed.

Lemma py_slice_to_of_nat : forall (A : Type) (l : list A) n,
  (n <= List.length l)%nat -> py_slice_to l (Z.of_nat n) = firstn n l.
Proof.
  intros A l n H. unfold py_slice_to, slice_bound.
  replace (Z.of_nat n <? 0) with false by (symmetry; apply Z.ltb_ge; lia).
  rewrite Z.min_l by lia. rewrite Nat2Z.id. reflexivity.
Qed.

Lemma py_slice_from_of_nat : forall (A : Type) (l : list A) n,
  (n <= List.length l)%nat -> py_slice_from l (Z.of_nat n) = skipn n l.
Proof.
  intros A l n H. unfold py_slice_from, slice_bound.
  replace (Z.of_nat n <? 0) with false by (symmetry; apply Z.ltb_ge; lia).
  rewrite Z.min_l by lia. rewrite Nat2Z.id. reflexivity.
Qed.

Lemma alternating_length_odd : forall ts,
  alternating ts -> exists k, List.length ts = S (2 * k).
Proof.
  induction 1 as [v|v o rest H [k IH]].
  - exists 0%nat. reflexivity.
  - exists (S k). simpl. rewrite IH. lia.
Qed.

Lemma alternating_head : forall ts,
  alternating ts -> exists v rest, ts = TokVal v :: rest.
Proof.
  intros ts H. destruct H; eauto.
Qed.

Lemma alternating_replace_head : forall v v' rest,
  alternating (TokVal v :: rest) -> alternating (TokVal v' :: rest).
Proof.
  intros v v' rest H. inversion H; subst; constructor; assumption.
Qed.

(** An operator of an alternating list sits between two values, and the
    three can be replaced by one value. *)
Lemma alternating_operator_context : forall ts,
  alternating ts -> forall n o, nth_error ts n = Some (TokOp o) ->
  exists pre a b post,
    ts = pre ++ TokVal a :: TokOp o :: TokVal b :: post /\
    S (List.length pre) = n /\
    forall v, alternating (pre ++ TokVal v :: post).
Proof.
  induction 1 as [v|v o' rest H IH]; intros n o Hn.
  - destruct n as [|[|n]]; simpl in Hn; discriminate.
  - destruct n as [|[|n]]; simpl in Hn.
    + discriminate.
    + inversion Hn; subst o'.
      destruct (alternating_head _ H) as [b [post ->]].
      exists [], v, b, post. repeat split.
      intro v'. simpl. eapply alternating_replace_head; eauto.
    + destruct (IH _ _ Hn) as [pre [a [b [post [-> [Hlen Halt]]]]]].
      exists (TokVal v :: TokOp o' :: pre), a, b, post. repeat split.
      * simpl. lia.
      * intro v'. simpl. constructor. apply Halt.
Qed.

Lemma free_of_app : forall ops l1 l2,
  free_of ops l1 -> free_of ops l2 -> free_of ops (l1 ++ l2).
Proof.
  intros ops l1 l2 H1 H2 t Ht. apply in_app_or in Ht. destruct Ht; auto.
Qed.

Lemma free_of_value : forall ops v, free_of ops [TokVal v].
Proof.
  intros ops v t [<-|[]]. reflexivity.
Qed.

Lemma free_of_firstn_succ : forall ops ts n t,
  nth_error ts n = Some t ->
  Expression.in_operations t ops = false ->
  free_of ops (firstn n ts) -> free_of ops (firstn (S n) ts).
Proof.
  intros ops ts n t Hn Ht H.
  assert (E : firstn (S n) ts = firstn n ts ++ [t]).
  { clear H Ht. revert ts Hn. induction n as [|n IH]; intros [|x ts] Hn;
      simpl in *; try discriminate.
    - inversion Hn. reflexivity.
    - f_equal. apply IH. assumption. }
  rewrite E. apply free_of_app; [assumption|].
  intros t' [<-|[]]. assumption.
Qed.

(** The loop of [consolidate] stops when the index reaches the end of the
    list or fewer than 4 tokens are left. *)
Lemma consolidate_loop_exit : forall ops self fuel h ts n,
  nth_error h self = Some (OExpression ts) ->
  (List.length ts <= n \/ List.length ts < 4)%nat ->
  Expression.consolidate_loop (S fuel) self ops (Z.of_nat n) h = (Ret tt, h).
Proof.
  intros ops self fuel h ts n Hs Hn. cbn [Expression.consolidate_loop].
  erewrite bind_ret_eq by (eapply get_tokens_eq; eauto). cbv beta zeta.
  replace ((Z.of_nat n <? Z.of_nat (List.length ts)) && (4 <=? Z.of_nat (List.length ts)))
    with false; [reflexivity|].
  symmetry. apply andb_false_iff.
  destruct Hn; [left; apply Z.ltb_ge|right; apply Z.leb_gt]; lia.
Qed.

(** It steps over a token that is a value, or an operator of another
    tier. *)
Lemma consolidate_loop_skip : forall ops self fuel h ts n t,
  nth_error h self = Some (OExpression ts) ->
  (4 <= List.length ts)%nat ->
  nth_error ts n = Some t ->
  Expression.in_operations t ops = false ->
  Expression.consolidate_loop (S fuel) self ops (Z.of_nat n) h
  = Expression.consolidate_loop fuel self ops (Z.of_nat (S n)) h.
Proof.
  intros ops self fuel h ts n t Hs H4 Ht Hin. cbn [Expression.consolidate_loop].
  pose proof (nth_error_in_bounds _ _ _ _ Ht) as Hn.
  erewrite bind_ret_eq by (eapply get_tokens_eq; eauto). cbv beta zeta.
  replace ((Z.of_nat n <? Z.of_nat (List.length ts)) && (4 <=? Z.of_nat (List.length ts)))
    with true
    by (symmetry; apply andb_true_iff; split; [apply Z.ltb_lt|apply Z.leb_le]; lia).
  rewrite bind_lift, (py_index_of_nat _ _ _ _ Ht), Hin, andb_false_r.
  replace (Z.of_nat n + 1) with (Z.of_nat (S n)) by lia. reflexivity.
Qed.

(** At an operator of the tier that stands between two tokens, it builds a
    new Expression from the three tokens, puts one value token for it in
    their place, and scans again from index 1. *)
Lemma consolidate_loop_collapse : forall ops self fuel h pre t1 o t3 post,
  nth_error h self = Some (OExpression (pre ++ t1 :: TokOp o :: t3 :: post)) ->
  (1 <= List.length pre + List.length post)%nat ->
  Expression.in_operations (TokOp o) ops = true ->
  Expression.consolidate_loop (S fuel) self ops (Z.of_nat (S (List.length pre))) h
  = Expression.consolidate_loop fuel self ops 1
      (update (h ++ [OExpression [t1; TokOp o; t3]]) self
         (OExpression (pre ++ TokVal (List.length h) :: post))).
Proof.
  intros ops self fuel h pre t1 o t3 post Hs Hlen Hin.
  set (ts := pre ++ t1 :: TokOp o :: t3 :: post) in *.
  set (n := S (List.length pre)).
  assert (Hl : List.length ts = (List.length pre + 3 + List.length post)%nat)
    by (unfold ts; rewrite length_app; simpl; lia).
  assert (H1 : nth_error ts (n - 1) = Some t1).
  { unfold ts, n. rewrite nth_error_app2 by lia.
    replace (S (List.length pre) - 1 - List.length pre)%nat with 0%nat by lia.
    reflexivity. }
  assert (H2 : nth_error ts n = Some (TokOp o)).
  { unfold ts, n. rewrite nth_error_app2 by lia.
    replace (S (List.length pre) - List.length pre)%nat with 1%nat by lia.
    reflexivity. }
  assert (H3 : nth_error ts (S n) = Some t3).
  { unfold ts, n. rewrite nth_error_app2 by lia.
    replace (S (S (List.length pre)) - List.length pre)%nat with 2%nat by lia.
    reflexivity. }
  cbn [Expression.consolidate_loop].
  erewrite bind_ret_eq by (eapply get_tokens_eq; eauto). cbv beta zeta.
  replace ((Z.of_nat n <? Z.of_nat (List.length ts)) && (4 <=? Z.of_nat (List.length ts)))
    with true
    by (symmetry; apply andb_true_iff; split; [apply Z.ltb_lt|apply Z.leb_le]; unfold n; lia).
  rewrite bind_lift, (py_index_of_nat _ _ _ _ H2), Hin. cbn [Token_is_operation andb].
  replace (Z.of_nat n - 1) with (Z.of_nat (n - 1)) by (unfold n; lia).
  replace (Z.of_nat n + 1) with (Z.of_nat (S n)) by lia.
  replace (Z.of_nat n + 2) with (Z.of_nat (S (S n))) by lia.
  rewrite bind_lift, (py_index_of_nat _ _ _ _ H1). cbv beta iota.
  rewrite bind_lift. cbv beta iota.
  rewrite bind_lift, (py_index_of_nat _ _ _ _ H3). cbv beta iota.
  erewrite bind_ret_eq by (unfold Expression.__init__, alloc; reflexivity). cbv beta.
  erewrite bind_ret_eq by (eapply get_tokens_eq; eapply nth_error_alloc_old; eauto).
  cbv beta.
  erewrite bind_ret_eq by (eapply set_tokens_eq; eapply nth_error_alloc_old; eauto).
  cbv beta.
  rewrite py_slice_to_of_nat by (unfold n; lia).
  rewrite py_slice_from_of_nat by (unfold n; lia).
  assert (Hfirst : firstn (n - 1) ts = pre).
  { unfold ts, n. replace (S (List.length pre) - 1)%nat with (List.length pre + 0)%nat by lia.
    rewrite firstn_app_2. simpl. apply app_nil_r. }
  assert (Hskip : skipn (S (S n)) ts = post).
  { unfold ts, n. rewrite skipn_app. rewrite skipn_all2 by lia.
    replace (S (S (S (List.length pre))) - List.length pre)%nat with 3%nat by lia.
    reflexivity. }
  rewrite Hfirst, Hskip. reflexivity.
Qed.

(** One run of the loop of [consolidate], from index [n], on an alternating
    token list: it returns, the list is still alternating, no longer than
    before, and either shorter than 4 or free of the operators of the tier;
    operators that were absent stay absent. *)
Lemma consolidate_loop_alternating : forall ops self fuel n h ts,
  nth_error h self = Some (OExpression ts) ->
  alternating ts ->
  (n <= List.length ts)%nat ->
  free_of ops (firstn n ts) ->
  (List.length ts * List.length ts + List.length ts + 1 <= fuel + n)%nat ->
  exists h' ts',
    Expression.consolidate_loop fuel self ops (Z.of_nat n) h = (Ret tt, h') /\
    nth_error h' self = Some (OExpression ts') /\
    alternating ts' /\
    (List.length ts' <= List.length ts)%nat /\
    ((List.length ts' < 4)%nat \/ free_of ops ts') /\
    (3 <= List.length ts -> 3 <= List.length ts')%nat /\
    (forall ops', free_of ops' ts -> free_of ops' ts').
Proof.
  intros ops self. induction fuel as [|fuel IH]; intros n h ts Hs Halt Hn Hfree Hfuel.
  - exfalso. nia.
  - destruct (Nat.le_gt_cases (List.length ts) n) as [Hend|Hlt];
      [|destruct (Nat.le_gt_cases 4 (List.length ts)) as [H4|Hshort]].
    + rewrite (consolidate_loop_exit ops self fuel h ts n Hs (or_introl Hend)).
      exists h, ts. rewrite firstn_all2 in Hfree by lia. auto 10.
    + destruct (nth_error ts n) as [t|] eqn:Ht; [|apply nth_error_None in Ht; lia].
      destruct (Expression.in_operations t ops) eqn:Hin.
      * destruct t as [o|v]; [|discriminate].
        destruct (alternating_operator_context _ Halt _ _ Ht)
          as [pre [a [b [post [Hts [Hpre Hnew]]]]]].
        assert (Hl : List.length ts = (List.length pre + 3 + List.length post)%nat)
          by (rewrite Hts, length_app; simpl; lia).
        rewrite Hts in Hs. rewrite <- Hpre.
        rewrite (consolidate_loop_collapse ops self fuel h pre _ o _ post Hs
                   ltac:(lia) Hin).
        set (ex := List.length h).
        set (h2 := update (h ++ [OExpression [TokVal a; TokOp o; TokVal b]]) self
                     (OExpression (pre ++ TokVal ex :: post))).
        assert (Hs2 : nth_error h2 self = Some (OExpression (pre ++ TokVal ex :: post))).
        { unfold h2. apply nth_error_update_eq. rewrite length_app.
          apply nth_error_in_bounds in Hs. lia. }
        assert (Hl2 : (List.length (pre ++ TokVal ex :: post) + 2 = List.length ts)%nat)
          by (rewrite length_app; simpl; lia).
        destruct (alternating_length_odd _ Halt) as [k Hodd].
        destruct (IH 1%nat h2 (pre ++ TokVal ex :: post) Hs2 (Hnew ex))
          as [h' [ts' [Hrun [Hs' [Halt' [Hle [Hdone [H3 Hkeep]]]]]]]].
        -- lia.
        -- destruct (alternating_head _ (Hnew ex)) as [v [rest Hv]].
           rewrite Hv. simpl. apply free_of_value.
        -- nia.
        -- exists h', ts'. change 1 with (Z.of_nat 1).
           split; [exact Hrun|]. split; [exact Hs'|]. split; [exact Halt'|].
           split; [lia|]. split; [exact Hdone|]. split; [lia|].
           intros ops' Hops'. apply Hkeep.
           intros t Hin'. apply in_app_or in Hin'. destruct Hin' as [Hin'|Hin'].
           ++ apply Hops'. rewrite Hts. apply in_or_app. left. assumption.
           ++ simpl in Hin'. destruct Hin' as [<-|Hin']; [reflexivity|].
              apply Hops'. rewrite Hts. apply in_or_app. right.
              simpl. right. right. right. assumption.
      * rewrite (consolidate_loop_skip ops self fuel h ts n t Hs H4 Ht Hin).
        apply IH; auto; try lia.
        eapply free_of_firstn_succ; eauto.
    + rewrite (consolidate_loop_exit ops self fuel h ts n Hs (or_intror Hshort)).
      exists h, ts. split; [reflexivity|]. split; [assumption|]. split; [assumption|].
      split; [lia|]. split; [left; assumption|]. auto.
Qed.

Lemma consolidate_alternating : forall ops self h ts,
  nth_error h self = Some (OExpression ts) ->
  alternating ts ->
  exists h' ts',
    Expression.consolidate self ops h = (Ret tt, h') /\
    nth_error h' self = Some (OExpression ts') /\
    alternating ts' /\
    (List.length ts' <= List.length ts)%nat /\
    ((List.length ts' < 4)%nat \/ free_of ops ts') /\
    (3 <= List.length ts -> 3 <= List.length ts')%nat /\
    (forall ops', free_of ops' ts -> free_of ops' ts').
Proof.
  intros ops self h ts Hs Halt. unfold Expression.consolidate.
  erewrite bind_ret_eq by (eapply get_tokens_eq; eauto). cbv beta.
  change 0 with (Z.of_nat 0).
  apply consolidate_loop_alternating; auto.
  - lia.
  - intros t [].
  - unfold Expression.consolidate_fuel. nia.
Qed.



(** ** Rounded quotients keep the sign *)

Lemma scaled_div_quotient : forall a b e,
  fst (scaled_div a b e)
  = if 0 <=? e then a / (b * 2 ^ e) else (a * 2 ^ (- e)) / b.
Proof.
  intros a b e. unfold scaled_div, Z.div.
  destruct (0 <=? e).
  - destruct (Z.div_eucl a (b * 2 ^ e)); reflexivity.
  - destruct (Z.div_eucl (a * 2 ^ (- e)) b); reflexivity.
Qed.

(** For [b <= a], the scaled quotient is at least [2 ^ (- e)] when [e] is
    negative, and at least 1 when [e] is at most the chosen exponent plus one. *)
Lemma scaled_quotient_lower_bound : forall a b e,
  0 < b -> b <= a -> e <= Z.log2 a - Z.log2 b - 52 ->
  0 < fst (scaled_div a b e) /\ (e < 0 -> 2 ^ (- e) <= fst (scaled_div a b e)).
Proof.
  intros a b e Hb Hab He. rewrite scaled_div_quotient.
  destruct (0 <=? e) eqn:E.
  - apply Z.leb_le in E. split; [|lia].
    assert (Hle : b * 2 ^ e <= a).
    { pose proof (Z.log2_spec a ltac:(lia)) as [Ha1 _].
      pose proof (Z.log2_spec b Hb) as [_ Hb2].
      pose proof (Z.log2_nonneg b) as Hlb.
      assert (2 ^ Z.succ (Z.log2 b) * 2 ^ e <= 2 ^ Z.log2 a).
      { rewrite <- Z.pow_add_r by lia. apply Z.pow_le_mono_r; lia. }
      assert (0 < 2 ^ e) by (apply Z.pow_pos_nonneg; lia).
      nia. }
    assert (0 < b * 2 ^ e) by (assert (0 < 2 ^ e) by (apply Z.pow_pos_nonneg; lia); nia).
    assert (1 <= a / (b * 2 ^ e)) by (apply Z.div_le_lower_bound; lia).
    lia.
  - apply Z.leb_gt in E.
    assert (0 < 2 ^ (- e)) by (apply Z.pow_pos_nonneg; lia).
    assert (2 ^ (- e) <= a * 2 ^ (- e) / b) by (apply Z.div_le_lower_bound; nia).
    split; [lia|]. intros _. assumption.
Qed.

Lemma round_pos_ratio_lower_bound : forall a b m e,
  0 < b -> b <= a -> round_pos_ratio a b = (m, e) ->
  0 < m /\ (e < 0 -> 2 ^ (- e) <= m).
Proof.
  intros a b m e Hb Hab H. unfold round_pos_ratio in H.
  pose proof (Z.log2_le_mono b a Hab) as Hlog.
  rewrite Z.max_l in H by lia.
  set (e0 := Z.log2 a - Z.log2 b - 53) in *.
  set (e1 := if 2 ^ 53 <=? fst (scaled_div a b e0) then e0 + 1 else e0) in *.
  assert (He1 : e1 <= Z.log2 a - Z.log2 b - 52).
  { unfold e1. destruct (2 ^ 53 <=? fst (scaled_div a b e0)); lia. }
  destruct (scaled_quotient_lower_bound a b e1 Hb Hab He1) as [Hpos Hbig].
  destruct (scaled_div a b e1) as [q r]. simpl fst in *.
  set (m' := match 2 * r ?= scaled_divisor b e1 with
             | Eq => if Z.even q then q else q + 1
             | Lt => q
             | Gt => q + 1
             end) in *.
  assert (Hm' : q <= m').
  { unfold m'. destruct (2 * r ?= scaled_divisor b e1); [destruct (Z.even q)| |]; lia. }
  destruct (m' =? 2 ^ 53) eqn:Hcarry; inversion H; subst m e; clear H.
  - apply Z.eqb_eq in Hcarry. split; [reflexivity|]. intro Hneg.
    assert (Hp : 2 ^ (- e1) <= 2 ^ 53) by (specialize (Hbig ltac:(lia)); lia).
    apply Z.pow_le_mono_r_iff in Hp; [|lia|lia].
    assert (G : 2 ^ (- (e1 + 1)) <= 2 ^ 52) by (apply Z.pow_le_mono_r; lia).
    exact G.
  - split; [lia|]. intro Hneg. specialize (Hbig Hneg). lia.
Qed.

(** Dividing an int by a positive int that is not larger in magnitude, then
    converting back with [int], keeps the sign. *)
Lemma int_of_quotient_sign : forall a b q z,
  0 < b -> b <= Z.abs a ->
  py_truediv (I a) (I b) = Ret q -> py_int q = Ret z ->
  Z.sgn z = Z.sgn a.
Proof.
  intros a b q z Hb Hab Hq Hz. unfold py_truediv in Hq.
  replace (b =? 0) with false in Hq by (symmetry; apply Z.eqb_neq; lia).
  destruct (is_finite (round_ratio a b)) eqn:Hfin; [|discriminate].
  inversion Hq; subst q; clear Hq.
  unfold round_ratio in *.
  destruct (round_pos_ratio (Z.abs a) (Z.abs b)) as [m e] eqn:Hr.
  rewrite (Z.abs_eq b) in Hr by lia.
  destruct (round_pos_ratio_lower_bound _ _ _ _ Hb Hab Hr) as [Hm He].
  replace (b <? 0) with false in * by (symmetry; apply Z.ltb_ge; lia).
  rewrite xorb_false_r in *.
  assert (Hmag : forall p, m = Zpos p ->
            0 < (if 0 <=? e then Zpos p * 2 ^ e else Zpos p / 2 ^ (- e))).
  { intros p ->. destruct (0 <=? e) eqn:E.
    - apply Z.leb_le in E. assert (0 < 2 ^ e) by (apply Z.pow_pos_nonneg; lia). nia.
    - apply Z.leb_gt in E. specialize (He E).
      assert (0 < 2 ^ (- e)) by (apply Z.pow_pos_nonneg; lia).
      assert (1 <= Zpos p / 2 ^ (- e)) by (apply Z.div_le_lower_bound; lia).
      lia. }
  assert (Hint : forall s p,
            py_int (F (S754_finite s p e))
            = Ret (if s
                   then - (if 0 <=? e then Zpos p * 2 ^ e else Zpos p / 2 ^ (- e))
                   else (if 0 <=? e then Zpos p * 2 ^ e else Zpos p / 2 ^ (- e))))
    by reflexivity.
  destruct a as [|a|a]; [simpl in Hab; lia| |];
    (destruct m as [|p|p]; [lia| |lia]);
    (destruct (e <=? emax - prec); [|discriminate]);
    rewrite Hint in Hz; injection Hz as <-;
    specialize (Hmag p eq_refl).
  - replace (Z.pos a <? 0) with false by reflexivity.
    rewrite Z.sgn_pos by assumption. reflexivity.
  - replace (Z.neg a <? 0) with true by reflexivity.
    apply Z.sgn_neg. apply Z.opp_neg_pos. assumption.
Qed.

Lemma int_of_zero_quotient : forall b q z,
  py_truediv (I 0) (I b) = Ret q -> py_int q = Ret z -> z = 0.
Proof.
  intros b q z Hq Hz. unfold py_truediv in Hq.
  destruct (b =? 0); [discriminate|]. simpl in Hq. inversion Hq; subst q.
  simpl in Hz. inversion Hz. reflexivity.
Qed.

(** ** Signs under simplification *)

Lemma gcd_bounds : forall n d, d <> 0 ->
  0 < gcd n d /\ gcd n d <= Z.abs d /\ (n <> 0 -> gcd n d <= Z.abs n).
Proof.
  intros n d Hd. unfold gcd.
  pose proof (Z.gcd_nonneg n d) as H0.
  assert (Z.gcd n d <> 0) by (intro E; apply Z.gcd_eq_0_r in E; contradiction).
  split; [lia|]. split.
  - apply Z.divide_pos_le; [lia|]. apply Z.divide_abs_r. apply Z.gcd_divide_r.
  - intro Hn. apply Z.divide_pos_le; [lia|]. apply Z.divide_abs_r. apply Z.gcd_divide_l.
Qed.

(** [simplify] on ints: whenever it returns, it has replaced numerator and
    denominator by ints of the same signs. *)
Lemma simplify_int : forall h self n d h',
  nth_error h self = Some (ORational (I n) (I d)) ->
  d <> 0 ->
  Rational.simplify self h = (Ret tt, h') ->
  exists n' d',
    h' = update h self (ORational (I n') (I d')) /\
    Z.sgn n' = Z.sgn n /\ Z.sgn d' = Z.sgn d.
Proof.
  intros h self n d h' Hs Hd H.
  pose proof (nth_error_in_bounds _ _ _ _ Hs) as Hb.
  destruct (gcd_bounds n d Hd) as [Hx [Hxd Hxn]].
  unfold Rational.simplify in H.
  erewrite bind_ret_eq in H by (eapply get_numer_eq; eauto). cbv beta in H.
  rewrite bind_lift in H. cbn [py_int] in H.
  erewrite bind_ret_eq in H by (eapply get_denom_eq; eauto). cbv beta in H.
  rewrite bind_lift in H. cbn [py_int] in H. cbv zeta in H.
  erewrite bind_ret_eq in H by (eapply get_numer_eq; eauto). cbv beta in H.
  rewrite bind_lift in H.
  destruct (py_truediv (I n) (I (gcd n d))) as [qn| |] eqn:Eqn; try discriminate.
  rewrite bind_lift in H.
  destruct (py_int qn) as [n'| |] eqn:En; try discriminate.
  erewrite bind_ret_eq in H by (eapply set_numer_eq; eauto). cbv beta in H.
  assert (Hs1 : nth_error (update h self (ORational (I n') (I d))) self
                = Some (ORational (I n') (I d)))
    by (apply nth_error_update_eq; assumption).
  erewrite bind_ret_eq in H by (eapply get_denom_eq; eauto). cbv beta in H.
  rewrite bind_lift in H.
  destruct (py_truediv (I d) (I (gcd n d))) as [qd| |] eqn:Eqd; try discriminate.
  rewrite bind_lift in H.
  destruct (py_int qd) as [d'| |] eqn:Ed; try discriminate.
  erewrite set_denom_eq in H by eauto. rewrite update_update in H.
  inversion H; subst h'.
  exists n', d'. split; [reflexivity|]. split.
  - destruct (Z.eq_dec n 0) as [->|Hn].
    + rewrite (int_of_zero_quotient _ _ _ Eqn En). reflexivity.
    + eapply int_of_quotient_sign; eauto.
  - eapply int_of_quotient_sign; eauto.
Qed.

Lemma update_alloc : forall (h : heap) o o',
  update (h ++ [o]) (List.length h) o' = h ++ [o'].
Proof.
  induction h as [|x h IH]; intros o o'; simpl; [reflexivity|].
  f_equal. apply IH.
Qed.

(** The constructor on ints: whenever it returns, the new object is last in
    the store and holds ints of the same signs as the arguments. *)
Lemma new_int : forall h n d simp r h',
  Rational.__init__ (I n) (I d) simp h = (Ret r, h') ->
  r = List.length h /\ d <> 0 /\
  exists n' d',
    h' = h ++ [ORational (I n') (I d')] /\
    Z.sgn n' = Z.sgn n /\ Z.sgn d' = Z.sgn d.
Proof.
  intros h n d simp r h' H. unfold Rational.__init__ in H.
  cbn [py_eq] in H.
  destruct (d =? 0) eqn:Hd; [discriminate|]. apply Z.eqb_neq in Hd.
  erewrite bind_ret_eq in H by reflexivity. cbv beta in H.
  destruct (negb (d =? 1) && simp).
  - apply bind_ret_inv in H. destruct H as [[] [h1 [Hsimp H]]].
    inversion H; subst r h'; clear H.
    apply simplify_int with (n := n) (d := d) in Hsimp;
      [|apply nth_error_alloc_new|assumption].
    destruct Hsimp as [n' [d' [-> [Hn' Hd']]]].
    split; [reflexivity|]. split; [assumption|].
    exists n', d'. rewrite update_alloc. auto.
  - inversion H; subst r h'. split; [reflexivity|]. split; [assumption|].
    exists n, d. auto.
Qed.


(** ** Rationals of ints under the arithmetic *)

Lemma scale_int : forall h self n d x,
  nth_error h self = Some (ORational (I n) (I d)) -> x <> 0 ->
  Rational.scale self (I x) h
  = (Ret tt, update h self (ORational (I (n * x)) (I (d * x)))).
Proof.
  intros h self n d x Hs Hx. unfold Rational.scale. cbn [py_eq].
  replace (x =? 0) with false by (symmetry; apply Z.eqb_neq; assumption).
  pose proof (nth_error_in_bounds _ _ _ _ Hs) as Hb.
  erewrite bind_ret_eq by (eapply get_numer_eq; eauto). cbv beta.
  rewrite bind_lift. cbn [py_mul].
  erewrite bind_ret_eq by (eapply set_numer_eq; eauto). cbv beta.
  erewrite bind_ret_eq
    by (eapply get_denom_eq; apply nth_error_update_eq; assumption).
  cbv beta. rewrite bind_lift. cbn [py_mul].
  erewrite set_denom_eq by (apply nth_error_update_eq; assumption).
  rewrite update_update. reflexivity.
Qed.









Lemma as_float_heap : forall self h f h',
  Rational.as_float self h = (Ret f, h') -> h' = h.
Proof.
  intros self h f h' H. unfold Rational.as_float in H.
  apply bind_ret_inv in H. destruct H as [n [h1 [Hn H]]].
  apply bind_ret_inv in H. destruct H as [d [h2 [Hd H]]].
  unfold get_numer in Hn. unfold get_denom in Hd.
  destruct (nth_error h self) as [[? ?|?]|]; inversion Hn; subst.
  destruct (nth_error h1 self) as [[? ?|?]|]; inversion Hd; subst.
  rewrite bind_lift in H. destruct (py_truediv n d); try discriminate.
  unfold lift in H. inversion H. reflexivity.
Qed.






(** ** Below 53 bits the quotients of [simplify] are exact *)

Lemma div_eucl_multiple : forall q b, 0 < b -> Z.div_eucl (q * b) b = (q, 0).
Proof.
  intros q b Hb.
  pose proof (Z.div_mul q b ltac:(lia)) as Hq.
  pose proof (Z.mod_mul q b ltac:(lia)) as Hr.
  unfold Z.div, Z.modulo in *.
  destruct (Z.div_eucl (q * b) b) as [q' r']. congruence.
Qed.

Lemma scaled_div_multiple : forall q b e,
  0 < b -> e <= 0 -> scaled_div (q * b) b e = (q * 2 ^ (- e), 0).
Proof.
  intros q b e Hb He. unfold scaled_div.
  destruct (0 <=? e) eqn:E.
  - apply Z.leb_le in E. assert (e = 0) by lia. subst e.
    simpl. rewrite !Z.mul_1_r. apply div_eucl_multiple. assumption.
  - replace (q * b * 2 ^ (- e)) with (q * 2 ^ (- e) * b) by ring.
    apply div_eucl_multiple. assumption.
Qed.

Lemma round_pos_ratio_multiple : forall q b,
  0 < b -> 0 < q < 2 ^ 53 ->
  exists m e, round_pos_ratio (q * b) b = (m, e) /\ e <= 0 /\ m = q * 2 ^ (- e).
Proof.
  intros q b Hb Hq. unfold round_pos_ratio.
  assert (Ha : 0 < q * b) by nia.
  pose proof (Z.log2_spec (q * b) Ha) as [La1 La2].
  pose proof (Z.log2_spec b Hb) as [Lb1 Lb2].
  pose proof (Z.log2_nonneg b) as Lb0.
  pose proof (Z.log2_le_mono b (q * b) ltac:(nia)) as Lmono.
  assert (Lup : Z.log2 (q * b) <= Z.log2 b + 53).
  { assert (Hlt : Z.log2 (q * b) < Z.log2 b + 54); [|lia].
    apply Z.log2_lt_pow2; [assumption|].
    replace (Z.log2 b + 54) with (53 + Z.succ (Z.log2 b)) by lia.
    rewrite Z.pow_add_r by lia. nia. }
  rewrite Z.max_l by lia.
  set (e0 := Z.log2 (q * b) - Z.log2 b - 53).
  assert (He0 : -53 <= e0 <= 0) by (unfold e0; lia).
  rewrite (scaled_div_multiple q b e0 Hb) by lia. simpl fst.
  assert (Hq54 : q * 2 ^ (- e0) < 2 ^ 54).
  { assert (Hql : q < 2 ^ (Z.log2 (q * b) - Z.log2 b + 1)).
    { assert (2 ^ (Z.log2 (q * b) - Z.log2 b + 1) * 2 ^ Z.log2 b
              = 2 ^ Z.succ (Z.log2 (q * b))).
      { rewrite <- Z.pow_add_r by lia. f_equal. lia. }
      nia. }
    assert (2 ^ (Z.log2 (q * b) - Z.log2 b + 1) * 2 ^ (- e0) = 2 ^ 54).
    { rewrite <- Z.pow_add_r by lia. f_equal. unfold e0. lia. }
    assert (0 < 2 ^ (- e0)) by (apply Z.pow_pos_nonneg; lia).
    nia. }
  set (e := if 2 ^ 53 <=? q * 2 ^ (- e0) then e0 + 1 else e0).
  assert (He : e <= 0 /\ q * 2 ^ (- e) < 2 ^ 53).
  { unfold e. destruct (2 ^ 53 <=? q * 2 ^ (- e0)) eqn:E.
    - apply Z.leb_le in E.
      assert (e0 <> 0) by (intro E0; rewrite E0 in E; simpl in E; lia).
      split; [lia|].
      replace (- e0) with (1 + - (e0 + 1)) in Hq54 by lia.
      rewrite Z.pow_add_r in Hq54 by lia.
      change (2 ^ 54) with (2 * 2 ^ 53) in Hq54. change (2 ^ 1) with 2 in Hq54. nia.
    - apply Z.leb_gt in E. split; [lia|assumption]. }
  destruct He as [He Hm].
  rewrite (scaled_div_multiple q b e Hb He).
  assert (Hdiv : 0 < scaled_divisor b e).
  { unfold scaled_divisor. destruct (0 <=? e) eqn:E; [|assumption].
    apply Z.leb_le in E.
    assert (0 < 2 ^ e) by (apply Z.pow_pos_nonneg; lia). nia. }
  replace (2 * 0 ?= scaled_divisor b e) with Lt
    by (symmetry; apply Z.compare_lt_iff; lia).
  replace (q * 2 ^ (- e) =? 2 ^ 53) with false
    by (symmetry; apply Z.eqb_neq; lia).
  eauto.
Qed.

(** An exact quotient below [2 ^ 53] in magnitude survives the division by
    [/] and the conversion by [int]. *)
Lemma int_of_exact_quotient : forall q x,
  0 < x -> Z.abs q < 2 ^ 53 ->
  obind (py_truediv (I (q * x)) (I x)) py_int = Ret q.
Proof.
  intros q x Hx Hq. unfold py_truediv.
  replace (x =? 0) with false by (symmetry; apply Z.eqb_neq; lia).
  destruct (Z.eq_dec q 0) as [->|Hq0]; [reflexivity|].
  destruct (round_pos_ratio_multiple (Z.abs q) x Hx ltac:(lia))
    as [m [e [Hr [He Hm]]]].
  assert (Hpow : 0 < 2 ^ (- e)) by (apply Z.pow_pos_nonneg; lia).
  assert (Hmpos : 0 < m) by nia.
  unfold round_ratio.
  replace (Z.abs (q * x)) with (Z.abs q * x) by (rewrite Z.abs_mul; lia).
  rewrite (Z.abs_eq x) by lia. rewrite Hr.
  replace (x <? 0) with false by (symmetry; apply Z.ltb_ge; lia).
  rewrite xorb_false_r.
  assert (Hsign : (q * x <? 0) = (q <? 0)).
  { destruct (q <? 0) eqn:E; [apply Z.ltb_lt in E; apply Z.ltb_lt; nia|].
    apply Z.ltb_ge in E. apply Z.ltb_ge. nia. }
  rewrite Hsign.
  destruct (q * x) as [|p|p] eqn:Eqx; [nia| |];
    (destruct m as [|pm|pm]; [lia| |lia]);
    (replace (e <=? emax - prec) with true
       by (symmetry; apply Z.leb_le; unfold emax, prec; lia));
    cbn [is_finite obind py_int];
    f_equal;
    (assert (Hmag : (if 0 <=? e then Z.pos pm * 2 ^ e else Z.pos pm / 2 ^ (- e))
                    = Z.abs q);
     [ destruct (0 <=? e) eqn:E0;
       [ apply Z.leb_le in E0; assert (e = 0) by lia; subst e;
         simpl in Hm |- *; lia
       | rewrite Hm; apply Z.div_mul; lia ]
     | rewrite Hmag ]);
    destruct (q <? 0) eqn:E; try (apply Z.ltb_lt in E); try (apply Z.ltb_ge in E); lia.
Qed.

(** [simplify] on ints below [2 ^ 53] in magnitude: it returns, and divides
    both exactly by their gcd. *)
Lemma simplify_exact_when_small : forall h self n d,
  nth_error h self = Some (ORational (I n) (I d)) ->
  d <> 0 -> Z.abs n < 2 ^ 53 -> Z.abs d < 2 ^ 53 ->
  Rational.simplify self h
  = (Ret tt, update h self (ORational (I (n / gcd n d)) (I (d / gcd n d)))).
Proof.
  intros h self n d Hs Hd Hn53 Hd53.
  pose proof (nth_error_in_bounds _ _ _ _ Hs) as Hb.
  destruct (gcd_bounds n d Hd) as [Hx _].
  set (x := gcd n d) in *.
  assert (Hnx : n = (n / x) * x).
  { destruct (Z.gcd_divide_l n d) as [k Hk]. fold (gcd n d) in Hk. fold x in Hk.
    rewrite Hk at 2. rewrite Z.div_mul by lia. exact Hk. }
  assert (Hdx : d = (d / x) * x).
  { destruct (Z.gcd_divide_r n d) as [k Hk]. fold (gcd n d) in Hk. fold x in Hk.
    rewrite Hk at 2. rewrite Z.div_mul by lia. exact Hk. }
  assert (Hqn : Z.abs (n / x) < 2 ^ 53) by nia.
  assert (Hqd : Z.abs (d / x) < 2 ^ 53) by nia.
  pose proof (int_of_exact_quotient (n / x) x Hx Hqn) as En.
  pose proof (int_of_exact_quotient (d / x) x Hx Hqd) as Ed.
  rewrite <- Hnx in En. rewrite <- Hdx in Ed.
  unfold Rational.simplify.
  erewrite bind_ret_eq by (eapply get_numer_eq; eauto). cbv beta.
  rewrite bind_lift. cbn [py_int].
  erewrite bind_ret_eq by (eapply get_denom_eq; eauto). cbv beta.
  rewrite bind_lift. cbn [py_int]. cbv zeta. fold x.
  erewrite bind_ret_eq by (eapply get_numer_eq; eauto). cbv beta.
  rewrite bind_lift.
  destruct (py_truediv (I n) (I x)) as [qn| |]; try discriminate.
  simpl obind in En. rewrite bind_lift, En.
  erewrite bind_ret_eq by (eapply set_numer_eq; eauto). cbv beta.
  erewrite bind_ret_eq
    by (eapply get_denom_eq; apply nth_error_update_eq; assumption).
  cbv beta. rewrite bind_lift.
  destruct (py_truediv (I d) (I x)) as [qd| |]; try discriminate.
  simpl obind in Ed. rewrite bind_lift, Ed.
  erewrite set_denom_eq by (apply nth_error_update_eq; assumption).
  rewrite update_update. reflexivity.
Qed.

(** ** Matching parentheses *)

Lemma find_matching_parens_loop_cases : forall chars j level,
  (exists k, find_matching_parens_loop chars j level = Ret k /\
             (j <= k < j + List.length chars)%nat) \/
  find_matching_parens_loop chars j level = Raise unmatched_message.
Proof.
  induction chars as [|c chars IH]; intros j level; simpl.
  - right. reflexivity.
  - destruct (Ascii.eqb c "(").
    + destruct (IH (S j) (level + 1)) as [[k [-> Hk]] | ->]; [left|right; reflexivity].
      exists k. split; [reflexivity|lia].
    + destruct (Ascii.eqb c ")").
      * destruct (level =? 0).
        -- left. exists j. split; [reflexivity|lia].
        -- destruct (IH (S j) (level - 1)) as [[k [-> Hk]] | ->]; [left|right; reflexivity].
           exists k. split; [reflexivity|lia].
      * destruct (IH (S j) level) as [[k [-> Hk]] | ->]; [left|right; reflexivity].
        exists k. split; [reflexivity|lia].
Qed.





Lemma remove_spaces_app : forall l1 l2,
  Expression.remove_spaces (l1 ++ l2)
  = Expression.remove_spaces l1 ++ Expression.remove_spaces l2.
Proof. intros. unfold Expression.remove_spaces. apply filter_app. Qed.



(** ** The parser does not run out of steps *)

Lemma no_timeout_bind : forall (A B : Type) (m : M A) (f : A -> M B),
  no_timeout m -> (forall a, no_timeout (f a)) -> no_timeout (bind m f).
Proof.
  intros A B m f Hm Hf h o h' H. unfold bind in H.
  destruct (m h) as [[a|e|] h1] eqn:E.
  - eapply Hf; eauto.
  - inversion H. discriminate.
  - exfalso. eapply Hm; eauto.
Qed.

Lemma no_timeout_ret : forall (A : Type) (a : A), no_timeout (ret a).
Proof. intros A a h o h' H. inversion H. discriminate. Qed.

Lemma no_timeout_raise : forall (A : Type) e, no_timeout (@raise A e).
Proof. intros A e h o h' H. inversion H. discriminate. Qed.

Lemma no_timeout_lift : forall (A : Type) (o : outcome A),
  o <> Timeout -> no_timeout (lift o).
Proof. intros A o Ho h o' h' H. inversion H. subst. assumption. Qed.

Lemma no_timeout_alloc : forall o, no_timeout (alloc o).
Proof. intros o h o' h' H. inversion H. discriminate. Qed.

Lemma no_timeout_get_numer : forall self, no_timeout (get_numer self).
Proof.
  intros self h o h' H. unfold get_numer in H.
  destruct (nth_error h self) as [[? ?|?]|]; inversion H; discriminate.
Qed.

Lemma no_timeout_get_denom : forall self, no_timeout (get_denom self).
Proof.
  intros self h o h' H. unfold get_denom in H.
  destruct (nth_error h self) as [[? ?|?]|]; inversion H; discriminate.
Qed.

Lemma no_timeout_set_numer : forall self n, no_timeout (set_numer self n).
Proof.
  intros self n h o h' H. unfold set_numer in H.
  destruct (nth_error h self) as [[? ?|?]|]; inversion H; discriminate.
Qed.

Lemma no_timeout_set_denom : forall self d, no_timeout (set_denom self d).
Proof.
  intros self d h o h' H. unfold set_denom in H.
  destruct (nth_error h self) as [[? ?|?]|]; inversion H; discriminate.
Qed.

Lemma no_timeout_get_tokens : forall self, no_timeout (get_tokens self).
Proof.
  intros self h o h' H. unfold get_tokens in H.
  destruct (nth_error h self) as [[? ?|?]|]; inversion H; discriminate.
Qed.

Lemma no_timeout_set_tokens : forall self ts, no_timeout (set_tokens self ts).
Proof.
  intros self ts h o h' H. unfold set_tokens in H.
  destruct (nth_error h self) as [[? ?|?]|]; inversion H; discriminate.
Qed.

Lemma py_int_answers : forall x, py_int x <> Timeout.
Proof. intros [z|[s|s| |s m e]]; simpl; discriminate. Qed.

Lemma py_truediv_int_answers : forall a b, py_truediv (I a) (I b) <> Timeout.
Proof.
  intros a b. unfold py_truediv.
  destruct (b =? 0); [discriminate|].
  destruct (is_finite (round_ratio a b)); discriminate.
Qed.

Lemma float_of_int_answers : forall z, float_of_int z <> Timeout.
Proof.
  intro z. unfold float_of_int. destruct (is_finite (round_ratio z 1)); discriminate.
Qed.

Lemma py_truediv_answers : forall x y, py_truediv x y <> Timeout.
Proof.
  intros [a|f] [b|g]; try apply py_truediv_int_answers;
    unfold py_truediv, obind, py_float;
    try (pose proof (float_of_int_answers a));
    try (pose proof (float_of_int_answers b));
    repeat match goal with
    | |- context [float_of_int ?z] => destruct (float_of_int z)
    | |- context [SFeqb ?g ?z] => destruct (SFeqb g z)
    end; congruence.
Qed.

Ltac no_timeout_step :=
  first
  [ apply no_timeout_bind; [|intro]
  | apply no_timeout_ret
  | apply no_timeout_raise
  | apply no_timeout_alloc
  | apply no_timeout_get_numer
  | apply no_timeout_get_denom
  | apply no_timeout_set_numer
  | apply no_timeout_set_denom
  | apply no_timeout_get_tokens
  | apply no_timeout_set_tokens
  | apply no_timeout_lift; first [apply py_int_answers | apply py_truediv_answers] ].

Lemma no_timeout_simplify : forall self, no_timeout (Rational.simplify self).
Proof. intro self. unfold Rational.simplify. repeat no_timeout_step. Qed.

Lemma no_timeout_new : forall n d simp, no_timeout (Rational.__init__ n d simp).
Proof.
  intros n d simp. unfold Rational.__init__.
  destruct (py_eq d (I 0)); [apply no_timeout_raise|].
  apply no_timeout_bind; [apply no_timeout_alloc|]. intro self.
  apply no_timeout_bind; [|intro; apply no_timeout_ret].
  destruct (negb (py_eq d (I 1)) && simp);
    [apply no_timeout_simplify|apply no_timeout_ret].
Qed.

Lemma no_timeout_Rational_parse : forall s, no_timeout (Rational.parse s).
Proof.
  intro s. unfold Rational.parse.
  destruct (Decimal_as_integer_ratio s) as [[n d]|];
    [apply no_timeout_new|apply no_timeout_raise].
Qed.

Lemma no_timeout_add_token : forall self t, no_timeout (Expression.add_token self t).
Proof. intros self t. unfold Expression.add_token. repeat no_timeout_step. Qed.

Lemma no_timeout_flush : forall ex b w, no_timeout (Expression.flush ex b w).
Proof.
  intros ex b w. unfold Expression.flush. destruct b; [|apply no_timeout_ret].
  apply no_timeout_bind; [apply no_timeout_Rational_parse|].
  intro. apply no_timeout_add_token.
Qed.

Lemma find_matching_parens_answers : forall s i,
  find_matching_parens s i <> Timeout.
Proof.
  intros s i. unfold find_matching_parens.
  destruct (find_matching_parens_loop_cases (skipn (i + 1) s) (i + 1)%nat 0)
    as [[k [-> _]] | ->]; discriminate.
Qed.

Lemma find_matching_parens_after : forall s i k,
  find_matching_parens s i = Ret k -> (i < k)%nat.
Proof.
  intros s i k H. unfold find_matching_parens in H.
  destruct (find_matching_parens_loop_cases (skipn (i + 1) s) (i + 1)%nat 0)
    as [[k' [E Hk]] | E]; rewrite E in H; inversion H. lia.
Qed.

Lemma substring_length : forall s i j,
  (i < List.length s)%nat -> (List.length (substring s (i + 1) j) < List.length s)%nat.
Proof.
  intros s i j Hi. unfold substring.
  rewrite length_firstn, length_skipn. lia.
Qed.

(** With one step per character, the loop of [parse] does not run out of
    steps, as long as the nested calls do not on shorter strings. *)
Lemma no_timeout_parse_loop : forall (parse_ : str -> M ref) s,
  (forall s', (List.length s' < List.length s)%nat -> no_timeout (parse_ s')) ->
  forall n ex i b w, (List.length s - i < n)%nat ->
  no_timeout (Expression.parse_loop parse_ n s ex i b w).
Proof.
  intros parse_ s Hrec. induction n as [|n IH]; intros ex i b w Hn; [lia|].
  cbn [Expression.parse_loop].
  destruct (nth_error s i) as [c|] eqn:Hc; [|apply no_timeout_flush].
  pose proof (nth_error_in_bounds _ _ _ _ Hc) as Hi.
  destruct (is_digit c || Ascii.eqb c "."); [apply IH; lia|].
  apply no_timeout_bind; [apply no_timeout_flush|]. intros _.
  destruct (Operation_parse c).
  - apply no_timeout_bind; [apply no_timeout_add_token|]. intros _. apply IH. lia.
  - destruct (Ascii.eqb c "("); [|apply no_timeout_raise].
    apply no_timeout_bind; [apply no_timeout_get_tokens|]. intros ts.
    apply no_timeout_bind.
    { match goal with |- no_timeout (if ?c then _ else _) => destruct c end;
        [apply no_timeout_add_token|apply no_timeout_ret]. }
    intros _.
    intros h o h' H. rewrite bind_lift in H.
    destruct (find_matching_parens s i) as [k| |] eqn:Ek.
    + revert h o h' H.
      apply no_timeout_bind; [apply Hrec, substring_length; assumption|]. intros subex.
      apply no_timeout_bind; [apply no_timeout_add_token|]. intros _.
      apply IH. apply find_matching_parens_after in Ek. lia.
    + inversion H. discriminate.
    + exfalso. eapply find_matching_parens_answers; eauto.
Qed.

Lemma remove_spaces_length : forall s,
  (List.length (Expression.remove_spaces s) <= List.length s)%nat.
Proof. intro s. unfold Expression.remove_spaces. apply filter_length_le. Qed.

Lemma no_timeout_parse_fuel : forall fuel s,
  (List.length s < fuel)%nat -> no_timeout (Expression.parse_fuel fuel s).
Proof.
  induction fuel as [|fuel IH]; intros s Hs; [lia|].
  cbn [Expression.parse_fuel]. cbv zeta.
  pose proof (remove_spaces_length s) as Hr.
  apply no_timeout_bind; [apply no_timeout_alloc|]. intro ex.
  apply no_timeout_bind; [|intro; apply no_timeout_ret].
  apply no_timeout_parse_loop; [|lia].
  intros s' Hs'. apply IH. lia.
Qed.

(** ** An opening parenthesis without a match makes [parse] raise *)









(** ** More fuel changes no answer of the parser *)

Lemma parse_loop_refines : forall (p p' : str -> M ref) s,
  (forall s', refines (p s') (p' s')) ->
  forall n n' ex i b w, (n <= n')%nat ->
  refines (Expression.parse_loop p n s ex i b w)
          (Expression.parse_loop p' n' s ex i b w).
Proof.
  intros p p' s Hp. induction n as [|n IH]; intros n' ex i b w Hn.
  - apply refines_timeout.
  - destruct n' as [|n']; [lia|]. cbn [Expression.parse_loop].
    destruct (nth_error s i) as [c|]; [|apply refines_refl].
    destruct (is_digit c || Ascii.eqb c ".")%bool; [apply IH; lia|].
    apply refines_bind; [apply refines_refl|]. intros _.
    destruct (Operation_parse c).
    + apply refines_bind; [apply refines_refl|]. intros _. apply IH. lia.
    + destruct (Ascii.eqb c "("); [|apply refines_refl].
      apply refines_bind; [apply refines_refl|]. intros ts.
      apply refines_bind; [apply refines_refl|]. intros _.
      apply refines_bind; [apply refines_refl|]. intros k.
      apply refines_bind; [apply Hp|]. intros subex.
      apply refines_bind; [apply refines_refl|]. intros _. apply IH. lia.
Qed.

Lemma parse_fuel_refines : forall fuel fuel' s, (fuel <= fuel')%nat ->
  refines (Expression.parse_fuel fuel s) (Expression.parse_fuel fuel' s).
Proof.
  induction fuel as [|fuel IH]; intros fuel' s Hf.
  - apply refines_timeout.
  - destruct fuel' as [|fuel']; [lia|]. cbn [Expression.parse_fuel]. cbv zeta.
    apply refines_bind; [apply refines_refl|]. intros ex.
    apply refines_bind; [|intro; apply refines_refl].
    apply parse_loop_refines; [|lia]. intro s'. apply IH. lia.
Qed.

(** ** Expressions stay Expressions *)

Lemma keeps_bind : forall (A B : Type) (m : M A) (f : A -> M B),
  keeps_expressions m -> (forall a, keeps_expressions (f a)) ->
  keeps_expressions (bind m f).
Proof.
  intros A B m f Hm Hf h o h' H r ts Hr. unfold bind in H.
  destruct (m h) as [[a|e|] h1] eqn:E.
  - destruct (Hm _ _ _ E _ _ Hr) as [ts1 Hr1]. eapply Hf; eauto.
  - inversion H; subst. eapply Hm; eauto.
  - inversion H; subst. eapply Hm; eauto.
Qed.

Lemma keeps_same_heap : forall (A : Type) (m : M A),
  (forall h o h', m h = (o, h') -> h' = h) -> keeps_expressions m.
Proof.
  intros A m Hm h o h' H r ts Hr. rewrite (Hm _ _ _ H). eauto.
Qed.

Lemma keeps_ret : forall (A : Type) (a : A), keeps_expressions (ret a).
Proof. intros. apply keeps_same_heap. intros h o h' H. inversion H. reflexivity. Qed.

Lemma keeps_raise : forall (A : Type) e, keeps_expressions (@raise A e).
Proof. intros. apply keeps_same_heap. intros h o h' H. inversion H. reflexivity. Qed.

Lemma keeps_lift : forall (A : Type) (o : outcome A), keeps_expressions (lift o).
Proof. intros. apply keeps_same_heap. intros h o' h' H. inversion H. reflexivity. Qed.

Lemma keeps_alloc : forall o, keeps_expressions (alloc o).
Proof.
  intros o h o' h' H r ts Hr. inversion H; subst.
  exists ts. apply nth_error_alloc_old. assumption.
Qed.

Lemma keeps_get_numer : forall self, keeps_expressions (get_numer self).
Proof.
  intro self. apply keeps_same_heap. intros h o h' H. unfold get_numer in H.
  destruct (nth_error h self) as [[? ?|?]|]; inversion H; reflexivity.
Qed.

Lemma keeps_get_denom : forall self, keeps_expressions (get_denom self).
Proof.
  intro self. apply keeps_same_heap. intros h o h' H. unfold get_denom in H.
  destruct (nth_error h self) as [[? ?|?]|]; inversion H; reflexivity.
Qed.

Lemma keeps_get_tokens : forall self, keeps_expressions (get_tokens self).
Proof.
  intro self. apply keeps_same_heap. intros h o h' H. unfold get_tokens in H.
  destruct (nth_error h self) as [[? ?|?]|]; inversion H; reflexivity.
Qed.

Lemma keeps_set_numer : forall self n, keeps_expressions (set_numer self n).
Proof.
  intros self n h o h' H r ts Hr. unfold set_numer in H.
  destruct (nth_error h self) as [[n0 d0|?]|] eqn:E; inversion H; subst; eauto.
  exists ts. rewrite nth_error_update_neq; [assumption|].
  intro; subst r. congruence.
Qed.

Lemma keeps_set_denom : forall self d, keeps_expressions (set_denom self d).
Proof.
  intros self d h o h' H r ts Hr. unfold set_denom in H.
  destruct (nth_error h self) as [[n0 d0|?]|] eqn:E; inversion H; subst; eauto.
  exists ts. rewrite nth_error_update_neq; [assumption|].
  intro; subst r. congruence.
Qed.

Lemma keeps_set_tokens : forall self ts, keeps_expressions (set_tokens self ts).
Proof.
  intros self ts h o h' H r ts0 Hr. unfold set_tokens in H.
  destruct (nth_error h self) as [[n0 d0|?]|] eqn:E; inversion H; subst; eauto.
  destruct (Nat.eq_dec self r) as [->|Hne].
  - exists ts. apply nth_error_update_eq. eapply nth_error_in_bounds; eauto.
  - exists ts0. rewrite nth_error_update_neq; assumption.
Qed.

Ltac keeps_step :=
  first
  [ apply keeps_bind; [|intro]
  | apply keeps_ret
  | apply keeps_raise
  | apply keeps_lift
  | apply keeps_alloc
  | apply keeps_get_numer
  | apply keeps_get_denom
  | apply keeps_set_numer
  | apply keeps_set_denom
  | apply keeps_get_tokens
  | apply keeps_set_tokens ].

Lemma keeps_simplify : forall self, keeps_expressions (Rational.simplify self).
Proof. intro self. unfold Rational.simplify. repeat keeps_step. Qed.

Lemma keeps_Rational_parse : forall s, keeps_expressions (Rational.parse s).
Proof.
  intro s. unfold Rational.parse.
  destruct (Decimal_as_integer_ratio s) as [[n d]|]; [|apply keeps_raise].
  unfold Rational.__init__. destruct (py_eq (I d) (I 0)); [apply keeps_raise|].
  apply keeps_bind; [apply keeps_alloc|]. intro self.
  apply keeps_bind; [|intro; apply keeps_ret].
  destruct (negb (py_eq (I d) (I 1)) && true); [apply keeps_simplify|apply keeps_ret].
Qed.

Lemma keeps_add_token : forall self t, keeps_expressions (Expression.add_token self t).
Proof. intros self t. unfold Expression.add_token. repeat keeps_step. Qed.

Lemma keeps_flush : forall ex b w, keeps_expressions (Expression.flush ex b w).
Proof.
  intros ex b w. unfold Expression.flush. destruct b; [|apply keeps_ret].
  apply keeps_bind; [apply keeps_Rational_parse|]. intro. apply keeps_add_token.
Qed.

Lemma keeps_parse_loop : forall (parse_ : str -> M ref) s,
  (forall s', keeps_expressions (parse_ s')) ->
  forall n ex i b w, keeps_expressions (Expression.parse_loop parse_ n s ex i b w).
Proof.
  intros parse_ s Hrec. induction n as [|n IH]; intros ex i b w.
  - apply keeps_same_heap. intros h o h' H. inversion H. reflexivity.
  - cbn [Expression.parse_loop].
    destruct (nth_error s i) as [c|]; [|apply keeps_flush].
    destruct (is_digit c || Ascii.eqb c ".")%bool; [apply IH|].
    apply keeps_bind; [apply keeps_flush|]. intros _.
    destruct (Operation_parse c).
    + apply keeps_bind; [apply keeps_add_token|]. intros _. apply IH.
    + destruct (Ascii.eqb c "("); [|apply keeps_raise].
      apply keeps_bind; [apply keeps_get_tokens|]. intros ts.
      apply keeps_bind.
      { match goal with |- keeps_expressions (if ?c then _ else _) => destruct c end;
          [apply keeps_add_token|apply keeps_ret]. }
      intros _.
      apply keeps_bind; [apply keeps_lift|]. intros k.
      apply keeps_bind; [apply Hrec|]. intros subex.
      apply keeps_bind; [apply keeps_add_token|]. intros _. apply IH.
Qed.

Lemma keeps_parse_fuel : forall fuel s, keeps_expressions (Expression.parse_fuel fuel s).
Proof.
  induction fuel as [|fuel IH]; intro s.
  - apply keeps_same_heap. intros h o h' H. inversion H. reflexivity.
  - cbn [Expression.parse_fuel]. cbv zeta.
    apply keeps_bind; [apply keeps_alloc|]. intro ex.
    apply keeps_bind; [|intro; apply keeps_ret].
    apply keeps_parse_loop. exact IH.
Qed.

(** ** The scan reaches the unmatched parenthesis *)






(** ** What [is_valid] accepts *)

Lemma list_pair_induction : forall (A : Type) (P : list A -> Prop),
  P [] -> (forall x, P [x]) -> (forall x y l, P l -> P (x :: y :: l)) ->
  forall l, P l.
Proof.
  intros A P H0 H1 H2 l.
  assert (H : P l /\ forall x, P (x :: l)).
  { induction l as [|y l [IH1 IH2]]; split; auto. }
  apply H.
Qed.

Lemma is_valid_loop_alternating : forall ts,
  alternating ts -> Expression.is_valid_loop ts true = true.
Proof. induction 1; simpl; auto. Qed.

Lemma is_valid_loop_trailing_operator : forall ts o,
  alternating ts -> Expression.is_valid_loop (ts ++ [TokOp o]) true = true.
Proof. induction 1; simpl; auto. Qed.

(** What [is_valid] accepts: the alternating lists, and also the empty list
    and the alternating lists followed by one more operator. *)
Lemma is_valid_loop_accepts : forall ts,
  Expression.is_valid_loop ts true = true <->
  ts = [] \/ alternating ts \/
  exists ts' o, alternating ts' /\ ts = ts' ++ [TokOp o].
Proof.
  intro ts. split.
  - induction ts as [|t|t1 t2 rest IH] using list_pair_induction; intro H.
    + left. reflexivity.
    + right. left. destruct t; simpl in H; [discriminate|constructor].
    + destruct t1 as [o1|v]; simpl in H; [discriminate|].
      destruct t2 as [o|v2]; simpl in H; [|discriminate].
      right. destruct (IH H) as [->|[Halt|[ts' [o' [Halt ->]]]]].
      * right. exists [TokVal v], o. split; [constructor|reflexivity].
      * left. constructor. assumption.
      * right. exists (TokVal v :: TokOp o :: ts'), o'.
        split; [constructor; assumption|reflexivity].
  - intros [->|[H|[ts' [o [H ->]]]]].
    + reflexivity.
    + apply is_valid_loop_alternating. assumption.
    + apply is_valid_loop_trailing_operator. assumption.
Qed.

(** ** [consolidate] does not run out of steps, on any token list *)

Lemma py_index_in_range : forall (A : Type) (l : list A) i a,
  py_index l i = Ret a ->
  - Z.of_nat (List.length l) <= i < Z.of_nat (List.length l).
Proof.
  intros A l i a H. unfold py_index in H.
  destruct (i <? 0) eqn:Ei;
    [apply Z.ltb_lt in Ei|apply Z.ltb_ge in Ei];
    match type of H with
    | context [if ?c then _ else _] => destruct c eqn:Ec
    end; try discriminate;
    apply andb_true_iff in Ec; destruct Ec as [E1 E2];
    apply Z.leb_le in E1; apply Z.ltb_lt in E2; lia.
Qed.

Lemma py_slice_to_length : forall (A : Type) (l : list A) j,
  List.length (py_slice_to l j) = slice_bound l j.
Proof.
  intros A l j. unfold py_slice_to. rewrite length_firstn.
  unfold slice_bound.
  destruct (j <? 0) eqn:E; [apply Z.ltb_lt in E|apply Z.ltb_ge in E]; lia.
Qed.

Lemma py_slice_from_length : forall (A : Type) (l : list A) j,
  List.length (py_slice_from l j) = (List.length l - slice_bound l j)%nat.
Proof.
  intros A l j. unfold py_slice_from. apply length_skipn.
Qed.

Lemma consolidate_loop_answers : forall ops self fuel i h,
  0 <= i ->
  (forall ts, nth_error h self = Some (OExpression ts) ->
              enough_steps fuel (List.length ts) i) ->
  (1 <= fuel)%nat ->
  fst (Expression.consolidate_loop fuel self ops i h) <> Timeout.
Proof.
  intros ops self. induction fuel as [|fuel IH]; intros i h Hi Hfuel H1; [lia|].
  cbn [Expression.consolidate_loop]. unfold bind at 1.
  unfold get_tokens at 1.
  destruct (nth_error h self) as [[n d|ts]|] eqn:Hs; try (simpl; discriminate).
  specialize (Hfuel ts eq_refl). destruct Hfuel as [_ [Hzero Hpos]].
  cbv zeta.
  destruct ((i <? Z.of_nat (List.length ts)) && (4 <=? Z.of_nat (List.length ts)))
    eqn:Hcond; [|simpl; discriminate].
  apply andb_true_iff in Hcond. destruct Hcond as [Hlt H4].
  apply Z.ltb_lt in Hlt. apply Z.leb_le in H4.
  assert (Hnext : fst (Expression.consolidate_loop fuel self ops (i + 1) h) <> Timeout).
  { apply IH; [lia| |].
    - intros ts' Hs'. rewrite Hs in Hs'. inversion Hs'; subst ts'.
      unfold enough_steps. destruct (Z.eq_dec i 0) as [->|Hne].
      + specialize (Hzero eq_refl). split; [lia|]. split; [lia|]. intros _. nia.
      + specialize (Hpos ltac:(lia)). split; [nia|]. split; [lia|]. intros _. lia.
    - destruct (Z.eq_dec i 0) as [->|Hne].
      + specialize (Hzero eq_refl). lia.
      + specialize (Hpos ltac:(lia)). nia. }
  rewrite bind_lift.
  destruct (py_index ts i) as [t| |] eqn:Et; try (simpl; discriminate);
    [|unfold py_index in Et;
      match type of Et with context [match ?x with _ => _ end] => destruct x end;
      discriminate].
  destruct (Token_is_operation t && Expression.in_operations t ops);
    [|exact Hnext].
  rewrite bind_lift.
  destruct (py_index ts (i - 1)) as [t1| |] eqn:Et1; try (simpl; discriminate);
    [|unfold py_index in Et1;
      match type of Et1 with context [match ?x with _ => _ end] => destruct x end;
      discriminate].
  rewrite bind_lift. cbv iota. rewrite bind_lift.
  destruct (py_index ts (i + 1)) as [t3| |] eqn:Et3; try (simpl; discriminate);
    [|unfold py_index in Et3;
      match type of Et3 with context [match ?x with _ => _ end] => destruct x end;
      discriminate].
  apply py_index_in_range in Et3.
  pose proof (nth_error_in_bounds _ _ _ _ Hs) as Hb.
  erewrite bind_ret_eq by (unfold Expression.__init__, alloc; reflexivity). cbv beta.
  erewrite bind_ret_eq by (eapply get_tokens_eq; eapply nth_error_alloc_old; eauto).
  cbv beta.
  erewrite bind_ret_eq by (eapply set_tokens_eq; eapply nth_error_alloc_old; eauto).
  cbv beta.
  assert (Hto : List.length (py_slice_to ts (i - 1))
                = if i =? 0 then (List.length ts - 1)%nat else Z.to_nat (i - 1)).
  { rewrite py_slice_to_length. unfold slice_bound.
    destruct (i =? 0) eqn:E0; [apply Z.eqb_eq in E0|apply Z.eqb_neq in E0].
    - subst i. replace (0 - 1 <? 0) with true by reflexivity. lia.
    - replace (i - 1 <? 0) with false by (symmetry; apply Z.ltb_ge; lia). lia. }
  assert (Hfrom : List.length (py_slice_from ts (i + 2))
                  = (List.length ts - Z.to_nat (i + 2))%nat).
  { rewrite py_slice_from_length. unfold slice_bound.
    replace (i + 2 <? 0) with false by (symmetry; apply Z.ltb_ge; lia). lia. }
  apply IH; [lia| |].
  - intros ts' Hs'.
    rewrite nth_error_update_eq in Hs' by (rewrite length_app; lia).
    inversion Hs'; subst ts'; clear Hs'.
    rewrite length_app. simpl List.length. rewrite Hto, Hfrom.
    unfold enough_steps. change (0 + 1) with 1.
    destruct (i =? 0) eqn:E0; [apply Z.eqb_eq in E0|apply Z.eqb_neq in E0].
    + subst i. specialize (Hzero eq_refl).
      split; [lia|]. split; [lia|]. intros _. nia.
    + specialize (Hpos ltac:(lia)).
      split; [nia|]. split; [lia|]. intros _. nia.
  - destruct (Z.eq_dec i 0) as [->|Hne].
    + specialize (Hzero eq_refl). lia.
    + specialize (Hpos ltac:(lia)). nia.
Qed.

Lemma consolidate_answers : forall self ops h,
  fst (Expression.consolidate self ops h) <> Timeout.
Proof.
  intros self ops h. unfold Expression.consolidate, bind at 1.
  unfold get_tokens at 1.
  destruct (nth_error h self) as [[n d|ts]|] eqn:Hs; try (simpl; discriminate).
  apply consolidate_loop_answers; [lia| |unfold Expression.consolidate_fuel; lia].
  intros ts' Hs'. rewrite Hs in Hs'. inversion Hs'; subst ts'.
  unfold enough_steps, Expression.consolidate_fuel.
  split; [lia|]. split; [lia|]. lia.
Qed.

(** [parse] does not run out of steps either: the only bound that can be
    exceeded is the recursion depth given to [calculate]. *)
Lemma parse_answers : forall s h, fst (Expression.parse s h) <> Timeout.
Proof.
  intros s h. destruct (Expression.parse s h) as [o h'] eqn:E. simpl.
  eapply (no_timeout_parse_fuel (S (List.length s)) s); [lia|exact E].
Qed.

(** ** The least common multiple *)

(** X1. [lcm] of Rational.py.  When both arguments are zero the gcd is zero and
    the floor division raises ZeroDivisionError; otherwise the result is the
    least common multiple: not negative, a multiple of both, and a divisor
    of every common multiple. *)
Theorem lcm_is_least_common_multiple : forall a b,
  (a = 0 /\ b = 0 -> exists msg, lcm a b = Raise (ZeroDivisionError msg)) /\
  (a <> 0 \/ b <> 0 ->
   exists m,
     lcm a b = Ret m /\ 0 <= m /\ (a | m) /\ (b | m) /\
     forall c, (a | c) -> (b | c) -> (m | c)).
Proof.
  intros a b. split.
  - intros [-> ->]. eexists. reflexivity.
  - intro Hab. exists (Z.lcm a b).
    assert (Hg : Z.gcd a b <> 0).
    { intro E. destruct Hab as [Ha|Hb].
      - apply Ha. eapply Z.gcd_eq_0_l; eauto.
      - apply Hb. eapply Z.gcd_eq_0_r; eauto. }
    pose proof (Z.gcd_nonneg a b) as Hg0.
    split; [|split; [apply Z.lcm_nonneg|split; [apply Z.divide_lcm_l|split;
      [apply Z.divide_lcm_r|intros c Ha Hb; apply Z.lcm_least; assumption]]]].
    unfold lcm, py_floordiv, gcd.
    replace (Z.gcd a b =? 0) with false by (symmetry; apply Z.eqb_neq; assumption).
    f_equal. unfold Z.lcm.
    destruct (Z.gcd_divide_r a b) as [k Hk].
    set (g := Z.gcd a b) in *.
    assert (E1 : b / g = k) by (rewrite Hk; apply Z.div_mul; assumption).
    assert (E2 : Z.abs (a * b) = Z.abs (a * k) * g).
    { rewrite Hk. replace (a * (k * g)) with (a * k * g) by ring.
      rewrite Z.abs_mul, (Z.abs_eq g) by assumption. reflexivity. }
    rewrite E1, E2. apply Z.div_mul. assumption.
Qed.

Lemma lcm_is_least_common_multiple_witness :
  exists m,
    lcm 4 6 = Ret m /\ 0 <= m /\ (4 | m) /\ (6 | m) /\
    forall c, (4 | c) -> (6 | c) -> (m | c).
Proof.
  apply (proj2 (lcm_is_least_common_multiple 4 6)). left. discriminate.
Defined.

(** ** Exact arithmetic below 53 bits *)

Lemma gcd_quotients : forall n d, d <> 0 ->
  0 < gcd n d /\ n = n / gcd n d * gcd n d /\ d = d / gcd n d * gcd n d /\
  Z.gcd (n / gcd n d) (d / gcd n d) = 1 /\
  d / gcd n d <> 0 /\ Z.sgn (d / gcd n d) = Z.sgn d.
Proof.
  intros n d Hd. destruct (gcd_bounds n d Hd) as [Hx _].
  set (x := gcd n d) in *.
  assert (Hnx : n = (n / x) * x).
  { destruct (Z.gcd_divide_l n d) as [k Hk]. fold (gcd n d) in Hk. fold x in Hk.
    rewrite Hk at 2. rewrite Z.div_mul by lia. exact Hk. }
  assert (Hdx : d = (d / x) * x).
  { destruct (Z.gcd_divide_r n d) as [k Hk]. fold (gcd n d) in Hk. fold x in Hk.
    rewrite Hk at 2. rewrite Z.div_mul by lia. exact Hk. }
  split; [assumption|]. split; [assumption|]. split; [assumption|].
  split; [apply Z.gcd_div_gcd; [lia|reflexivity]|].
  split; [intro E; rewrite E in Hdx; lia|].
  rewrite Hdx at 2. rewrite Z.sgn_mul, (Z.sgn_pos x) by assumption. lia.
Qed.

(** The value of a fraction in lowest terms: [n' / d'] is [n / d]. *)
Lemma lowest_terms_value : forall n d, d <> 0 ->
  n / gcd n d * d = n * (d / gcd n d).
Proof.
  intros n d Hd. destruct (gcd_quotients n d Hd) as [Hx [Hn [Hdd _]]].
  set (x := gcd n d) in *. rewrite Hdd at 1. rewrite Hn at 2. ring.
Qed.

Lemma lowest_terms_of_quotients : forall n d, d <> 0 ->
  lowest_terms_of n d (n / gcd n d) (d / gcd n d).
Proof.
  intros n d Hd. destruct (gcd_quotients n d Hd) as [_ [_ [_ [Hg [Hd0 _]]]]].
  split; [assumption|]. split; [assumption|]. apply lowest_terms_value. assumption.
Qed.

(** The constructor, simplification asked for, on ints below [2 ^ 53] in
    magnitude: the new object holds the fraction in lowest terms. *)
Lemma init_exact_when_small : forall h n d,
  d <> 0 -> Z.abs n < 2 ^ 53 -> Z.abs d < 2 ^ 53 ->
  Rational.__init__ (I n) (I d) true h
  = (Ret (List.length h), h ++ [ORational (I (n / gcd n d)) (I (d / gcd n d))]).
Proof.
  intros h n d Hd Hn53 Hd53. unfold Rational.__init__. cbn [py_eq].
  replace (d =? 0) with false by (symmetry; apply Z.eqb_neq; assumption).
  erewrite bind_ret_eq by reflexivity. cbv beta.
  destruct (d =? 1) eqn:E1; cbn [negb andb].
  - apply Z.eqb_eq in E1. subst d.
    erewrite bind_ret_eq by reflexivity.
    unfold gcd. rewrite Z.gcd_1_r, !Z.div_1_r. reflexivity.
  - erewrite bind_ret_eq
      by (apply simplify_exact_when_small with (n := n) (d := d);
          [apply nth_error_alloc_new|assumption|assumption|assumption]).
    rewrite update_alloc. reflexivity.
Qed.

(** The constructor with [simplify=False] on ints only checks the
    denominator. *)
Lemma init_unsimplified : forall h n d,
  d <> 0 ->
  Rational.__init__ (I n) (I d) false h
  = (Ret (List.length h), h ++ [ORational (I n) (I d)]).
Proof.
  intros h n d Hd. unfold Rational.__init__. cbn [py_eq].
  replace (d =? 0) with false by (symmetry; apply Z.eqb_neq; assumption).
  erewrite bind_ret_eq by reflexivity. cbv beta.
  rewrite andb_false_r. erewrite bind_ret_eq by reflexivity. reflexivity.
Qed.

(** X2. [simplify] on ints below [2 ^ 53] in magnitude gives the fraction in
    lowest terms: numerator and denominator have no common divisor, the
    value is the same, the denominator keeps its sign, and simplifying again
    changes nothing. *)
Theorem simplify_gives_lowest_terms : forall h self n d,
  nth_error h self = Some (ORational (I n) (I d)) ->
  d <> 0 -> Z.abs n < 2 ^ 53 -> Z.abs d < 2 ^ 53 ->
  exists n' d' h',
    Rational.simplify self h = (Ret tt, h') /\
    h' = update h self (ORational (I n') (I d')) /\
    lowest_terms_of n d n' d' /\ Z.sgn d' = Z.sgn d /\
    Rational.simplify self h' = (Ret tt, h').
Proof.
  intros h self n d Hs Hd Hn53 Hd53.
  destruct (gcd_quotients n d Hd) as [Hx [Hn [Hdd [Hg [Hd0 Hsgn]]]]].
  pose proof (lowest_terms_of_quotients n d Hd) as Hlow.
  set (n' := n / gcd n d) in *. set (d' := d / gcd n d) in *.
  exists n', d', (update h self (ORational (I n') (I d'))).
  split; [apply simplify_exact_when_small; assumption|].
  split; [reflexivity|]. split; [assumption|]. split; [assumption|].
  pose proof (nth_error_in_bounds _ _ _ _ Hs) as Hb.
  assert (Hn' : Z.abs n' < 2 ^ 53) by nia.
  assert (Hd' : Z.abs d' < 2 ^ 53) by nia.
  rewrite (simplify_exact_when_small _ self n' d'
             (nth_error_update_eq _ _ _ _ Hb) Hd0 Hn' Hd').
  rewrite update_update. unfold gcd. rewrite Hg, !Z.div_1_r. reflexivity.
Qed.

Lemma simplify_gives_lowest_terms_witness :
  exists n' d' h',
    Rational.simplify 0%nat [ORational (I 6) (I (-4))] = (Ret tt, h') /\
    h' = update [ORational (I 6) (I (-4))] 0%nat (ORational (I n') (I d')) /\
    lowest_terms_of 6 (-4) n' d' /\ Z.sgn d' = Z.sgn (-4) /\
    Rational.simplify 0%nat h' = (Ret tt, h').
Proof.
  apply (simplify_gives_lowest_terms [ORational (I 6) (I (-4))] 0%nat 6 (-4));
    [reflexivity|discriminate|reflexivity|reflexivity].
Defined.

(** [match_denominators] on ints: nothing happens when the denominators are
    equal; otherwise each operand is scaled by the denominator of the
    other. *)
Lemma match_denominators_scales : forall h a b na da nb db,
  nth_error h a = Some (ORational (I na) (I da)) ->
  nth_error h b = Some (ORational (I nb) (I db)) ->
  da <> 0 -> db <> 0 ->
  Rational.match_denominators a b h
  = if da =? db then (Ret (I da), h)
    else (Ret (I (da * db)),
          update (update h a (ORational (I (na * db)) (I (da * db))))
                 b (ORational (I (nb * da)) (I (db * da)))).
Proof.
  intros h a b na da nb db Ha Hb Hda Hdb.
  unfold Rational.match_denominators.
  erewrite bind_ret_eq by (eapply get_denom_eq; eauto). cbv beta.
  erewrite bind_ret_eq by (eapply get_denom_eq; eauto). cbv beta.
  cbn [py_eq]. destruct (da =? db) eqn:E; cbn [negb].
  - erewrite bind_ret_eq by reflexivity.
    erewrite get_denom_eq by eauto. reflexivity.
  - apply Z.eqb_neq in E.
    assert (Hab : a <> b) by (intro; subst b; rewrite Ha in Hb; congruence).
    pose proof (nth_error_in_bounds _ _ _ _ Ha) as Hba.
    pose proof (nth_error_in_bounds _ _ _ _ Hb) as Hbb.
    set (h1 := update h a (ORational (I (na * db)) (I (da * db)))).
    set (h2 := update h1 b (ORational (I (nb * da)) (I (db * da)))).
    assert (Hb1 : nth_error h1 b = Some (ORational (I nb) (I db)))
      by (unfold h1; rewrite nth_error_update_neq; assumption).
    assert (Ha2 : nth_error h2 a = Some (ORational (I (na * db)) (I (da * db)))).
    { unfold h2. rewrite nth_error_update_neq by congruence.
      unfold h1. apply nth_error_update_eq. assumption. }
    erewrite bind_ret_eq.
    2:{ erewrite bind_ret_eq by (eapply get_denom_eq; eauto). cbv beta.
        erewrite bind_ret_eq by (eapply get_denom_eq; eauto). cbv beta.
        erewrite bind_ret_eq by (apply scale_int; eauto). cbv beta.
        fold h1. apply scale_int; eauto. }
    fold h2. erewrite get_denom_eq by eauto. reflexivity.
Qed.

Lemma match_denominators_common : forall h a b na da nb db,
  nth_error h a = Some (ORational (I na) (I da)) ->
  nth_error h b = Some (ORational (I nb) (I db)) ->
  da <> 0 -> db <> 0 ->
  exists h' na' nb' dd,
    Rational.match_denominators a b h = (Ret (I dd), h') /\
    dd = (if da =? db then da else da * db) /\
    nth_error h' a = Some (ORational (I na') (I dd)) /\
    nth_error h' b = Some (ORational (I nb') (I dd)) /\
    na' * da = na * dd /\ nb' * db = nb * dd /\ dd <> 0 /\
    List.length h' = List.length h /\
    forall r, r <> a -> r <> b -> nth_error h' r = nth_error h r.
Proof.
  intros h a b na da nb db Ha Hb Hda Hdb.
  rewrite (match_denominators_scales h a b na da nb db Ha Hb Hda Hdb).
  destruct (da =? db) eqn:E.
  - apply Z.eqb_eq in E. subst db.
    exists h, na, nb, da. repeat (split; [first [reflexivity|assumption|ring]|]).
    intros; reflexivity.
  - apply Z.eqb_neq in E.
    assert (Hab : a <> b) by (intro; subst b; rewrite Ha in Hb; congruence).
    pose proof (nth_error_in_bounds _ _ _ _ Ha) as Hba.
    pose proof (nth_error_in_bounds _ _ _ _ Hb) as Hbb.
    eexists _, (na * db), (nb * da), (da * db).
    split; [reflexivity|]. split; [reflexivity|].
    split.
    { rewrite nth_error_update_neq by congruence.
      apply nth_error_update_eq. assumption. }
    split.
    { replace (da * db) with (db * da) at 2 by ring.
      apply nth_error_update_eq. rewrite update_length. assumption. }
    split; [ring|]. split; [ring|]. split; [nia|].
    split; [rewrite !update_length; reflexivity|].
    intros r Hra Hrb. rewrite !nth_error_update_neq by congruence. reflexivity.
Qed.

(** X3. [match_denominators] brings two Rationals of ints to a common
    denominator, the one it returns: the denominator they share already, or
    else the product of the two (not their least common multiple).  Each
    operand keeps its value, and no other object changes. *)
Theorem match_denominators_gives_common_denominator :
  forall h a b na da nb db,
  nth_error h a = Some (ORational (I na) (I da)) ->
  nth_error h b = Some (ORational (I nb) (I db)) ->
  da <> 0 -> db <> 0 ->
  exists h' na' nb' dd,
    Rational.match_denominators a b h = (Ret (I dd), h') /\
    dd = (if da =? db then da else da * db) /\
    nth_error h' a = Some (ORational (I na') (I dd)) /\
    nth_error h' b = Some (ORational (I nb') (I dd)) /\
    na' * da = na * dd /\ nb' * db = nb * dd /\ dd <> 0 /\
    List.length h' = List.length h /\
    forall r, r <> a -> r <> b -> nth_error h' r = nth_error h r.
Proof. exact match_denominators_common. Qed.

Lemma match_denominators_gives_common_denominator_witness :
  exists h' na' nb' dd,
    Rational.match_denominators 0%nat 1%nat
      [ORational (I 1) (I 2); ORational (I 1) (I 4)] = (Ret (I dd), h') /\
    dd = (if 2 =? 4 then 2 else 2 * 4) /\
    nth_error h' 0%nat = Some (ORational (I na') (I dd)) /\
    nth_error h' 1%nat = Some (ORational (I nb') (I dd)) /\
    na' * 2 = 1 * dd /\ nb' * 4 = 1 * dd /\ dd <> 0 /\
    List.length h' = List.length [ORational (I 1) (I 2); ORational (I 1) (I 4)] /\
    forall r, r <> 0%nat -> r <> 1%nat ->
      nth_error h' r = nth_error [ORational (I 1) (I 2); ORational (I 1) (I 4)] r.
Proof.
  apply (match_denominators_gives_common_denominator
           [ORational (I 1) (I 2); ORational (I 1) (I 4)] 0%nat 1%nat 1 2 1 4);
    [reflexivity|reflexivity|discriminate|discriminate].
Defined.

Lemma multiply_exact : forall h a b na da nb db,
  nth_error h a = Some (ORational (I na) (I da)) ->
  nth_error h b = Some (ORational (I nb) (I db)) ->
  da <> 0 -> db <> 0 ->
  Z.abs (na * nb) < 2 ^ 53 -> Z.abs (da * db) < 2 ^ 53 ->
  Rational.multiply a b true h
  = (Ret (List.length h),
     h ++ [ORational (I (na * nb / gcd (na * nb) (da * db)))
                     (I (da * db / gcd (na * nb) (da * db)))]).
Proof.
  intros h a b na da nb db Ha Hb Hda Hdb Hn53 Hd53.
  assert (Hq : da * db <> 0) by nia.
  unfold Rational.multiply.
  erewrite bind_ret_eq by (eapply get_numer_eq; eauto). cbv beta.
  erewrite bind_ret_eq by (eapply get_numer_eq; eauto). cbv beta.
  rewrite bind_lift. cbn [py_mul]. rewrite bind_lift. cbn [py_int].
  erewrite bind_ret_eq by (eapply get_denom_eq; eauto). cbv beta.
  erewrite bind_ret_eq by (eapply get_denom_eq; eauto). cbv beta.
  rewrite bind_lift. cbn [py_mul]. rewrite bind_lift. cbn [py_int].
  apply init_exact_when_small; assumption.
Qed.

(** X4. [multiply] on ints whose products stay below [2 ^ 53] in magnitude
    returns a new Rational, the product in lowest terms, and changes no
    object of the store. *)
Theorem multiply_is_exact_when_small : forall h a b na da nb db,
  nth_error h a = Some (ORational (I na) (I da)) ->
  nth_error h b = Some (ORational (I nb) (I db)) ->
  da <> 0 -> db <> 0 ->
  Z.abs (na * nb) < 2 ^ 53 -> Z.abs (da * db) < 2 ^ 53 ->
  exists n d,
    Rational.multiply a b true h
    = (Ret (List.length h), h ++ [ORational (I n) (I d)]) /\
    lowest_terms_of (na * nb) (da * db) n d.
Proof.
  intros h a b na da nb db Ha Hb Hda Hdb Hn53 Hd53.
  eexists _, _. split; [apply multiply_exact; eassumption|].
  apply lowest_terms_of_quotients. nia.
Qed.

Lemma multiply_is_exact_when_small_witness :
  exists n d,
    Rational.multiply 0%nat 1%nat true [ORational (I 2) (I 3); ORational (I 3) (I 4)]
    = (Ret 2%nat, [ORational (I 2) (I 3); ORational (I 3) (I 4)] ++ [ORational (I n) (I d)]) /\
    lowest_terms_of (2 * 3) (3 * 4) n d.
Proof.
  apply (multiply_is_exact_when_small
           [ORational (I 2) (I 3); ORational (I 3) (I 4)] 0%nat 1%nat 2 3 3 4);
    [reflexivity|reflexivity|discriminate|discriminate|reflexivity|reflexivity].
Defined.

Lemma reciprocal_int : forall h b nb db,
  nth_error h b = Some (ORational (I nb) (I db)) -> db <> 0 ->
  Rational.reciprocal b h = Rational.__init__ (I db) (I nb) false h.
Proof.
  intros h b nb db Hb Hdb. unfold Rational.reciprocal.
  erewrite bind_ret_eq by (eapply get_denom_eq; eauto). cbv beta. cbn [py_eq].
  replace (db =? 0) with false by (symmetry; apply Z.eqb_neq; assumption).
  erewrite bind_ret_eq by (eapply get_denom_eq; eauto). cbv beta.
  erewrite bind_ret_eq by (eapply get_numer_eq; eauto). reflexivity.
Qed.

Lemma divide_exact : forall h a b na da nb db,
  nth_error h a = Some (ORational (I na) (I da)) ->
  nth_error h b = Some (ORational (I nb) (I db)) ->
  da <> 0 -> db <> 0 -> nb <> 0 ->
  Z.abs (na * db) < 2 ^ 53 -> Z.abs (da * nb) < 2 ^ 53 ->
  Rational.divide a b true h
  = (Ret (S (List.length h)),
     h ++ [ORational (I db) (I nb);
           ORational (I (na * db / gcd (na * db) (da * nb)))
                     (I (da * nb / gcd (na * db) (da * nb)))]).
Proof.
  intros h a b na da nb db Ha Hb Hda Hdb Hnb Hn53 Hd53. unfold Rational.divide.
  erewrite bind_ret_eq
    by (rewrite (reciprocal_int _ _ _ _ Hb Hdb); apply init_unsimplified; assumption).
  cbv beta.
  rewrite (multiply_exact (h ++ [ORational (I db) (I nb)])
             a (List.length h) na da db nb
             (nth_error_alloc_old _ _ _ _ Ha) (nth_error_alloc_new _ _)
             Hda Hnb Hn53 Hd53).
  rewrite length_app, <- app_assoc. simpl.
  replace (List.length h + 1)%nat with (S (List.length h)) by lia. reflexivity.
Qed.

(** X5. [divide] on ints.  A divisor with numerator zero makes it raise the
    ZeroDivisionError of the constructor, with the store untouched.
    Otherwise, for products below [2 ^ 53] in magnitude, it allocates the
    reciprocal of the divisor and then the quotient in lowest terms; the
    operands do not change. *)
Theorem divide_is_exact_or_refuses_zero : forall h a b na da nb db,
  nth_error h a = Some (ORational (I na) (I da)) ->
  nth_error h b = Some (ORational (I nb) (I db)) ->
  da <> 0 -> db <> 0 ->
  (nb = 0 ->
   Rational.divide a b true h
   = (Raise (ZeroDivisionError "The denominator must not be zero!"), h)) /\
  (nb <> 0 -> Z.abs (na * db) < 2 ^ 53 -> Z.abs (da * nb) < 2 ^ 53 ->
   exists n d,
     Rational.divide a b true h
     = (Ret (S (List.length h)),
        h ++ [ORational (I db) (I nb); ORational (I n) (I d)]) /\
     lowest_terms_of (na * db) (da * nb) n d).
Proof.
  intros h a b na da nb db Ha Hb Hda Hdb. split.
  - intros ->. unfold Rational.divide.
    erewrite bind_raise_eq; [reflexivity|].
    rewrite (reciprocal_int _ _ _ _ Hb Hdb). reflexivity.
  - intros Hnb Hn53 Hd53. eexists _, _.
    split; [apply divide_exact; eassumption|].
    apply lowest_terms_of_quotients. nia.
Qed.

Lemma divide_is_exact_or_refuses_zero_witness :
  Rational.divide 0%nat 1%nat true [ORational (I 1) (I 2); ORational (I 0) (I 5)]
  = (Raise (ZeroDivisionError "The denominator must not be zero!"),
     [ORational (I 1) (I 2); ORational (I 0) (I 5)]).
Proof.
  apply (proj1 (divide_is_exact_or_refuses_zero
                  [ORational (I 1) (I 2); ORational (I 0) (I 5)] 0%nat 1%nat 1 2 0 5
                  eq_refl eq_refl ltac:(discriminate) ltac:(discriminate))).
  reflexivity.
Defined.

(** What [add] and [subtract] do once the denominators match and the
    numerator of the result is known: build the result in lowest terms, then
    simplify the two operands. *)
Lemma result_and_operands_exact : forall h a b na nb dd s,
  nth_error h a = Some (ORational (I na) (I dd)) ->
  nth_error h b = Some (ORational (I nb) (I dd)) ->
  a <> b -> dd <> 0 ->
  Z.abs na < 2 ^ 53 -> Z.abs nb < 2 ^ 53 -> Z.abs s < 2 ^ 53 ->
  Z.abs dd < 2 ^ 53 ->
  (result <- Rational.__init__ (I s) (I dd) true ;;
   Rational.simplify a ;; Rational.simplify b ;; ret result) h
  = (Ret (List.length h),
     update
       (update (h ++ [ORational (I (s / gcd s dd)) (I (dd / gcd s dd))])
          a (ORational (I (na / gcd na dd)) (I (dd / gcd na dd))))
       b (ORational (I (nb / gcd nb dd)) (I (dd / gcd nb dd)))).
Proof.
  intros h a b na nb dd s Ha Hb Hab Hdd Hna Hnb Hs Hd53.
  erewrite bind_ret_eq by (apply init_exact_when_small; assumption). cbv beta.
  set (h1 := h ++ [ORational (I (s / gcd s dd)) (I (dd / gcd s dd))]).
  assert (Ha1 : nth_error h1 a = Some (ORational (I na) (I dd)))
    by (apply nth_error_alloc_old; assumption).
  assert (Hb1 : nth_error h1 b = Some (ORational (I nb) (I dd)))
    by (apply nth_error_alloc_old; assumption).
  erewrite bind_ret_eq by (apply simplify_exact_when_small; eassumption).
  cbv beta.
  erewrite bind_ret_eq
    by (apply simplify_exact_when_small with (n := nb) (d := dd);
        [rewrite nth_error_update_neq by congruence; assumption
        |assumption|assumption|assumption]).
  reflexivity.
Qed.

(** The store that [add] and [subtract] leave, read at the result and at
    the operands. *)
Lemma result_and_operands_read : forall h a b (na nb dd s : Z) h',
  nth_error h a = Some (ORational (I na) (I dd)) ->
  nth_error h b = Some (ORational (I nb) (I dd)) ->
  a <> b ->
  h' = update
         (update (h ++ [ORational (I (s / gcd s dd)) (I (dd / gcd s dd))])
            a (ORational (I (na / gcd na dd)) (I (dd / gcd na dd))))
         b (ORational (I (nb / gcd nb dd)) (I (dd / gcd nb dd))) ->
  nth_error h' (List.length h)
  = Some (ORational (I (s / gcd s dd)) (I (dd / gcd s dd))) /\
  nth_error h' a = Some (ORational (I (na / gcd na dd)) (I (dd / gcd na dd))) /\
  nth_error h' b = Some (ORational (I (nb / gcd nb dd)) (I (dd / gcd nb dd))) /\
  List.length h' = S (List.length h) /\
  forall r, r <> a -> r <> b -> (r < List.length h)%nat ->
            nth_error h' r = nth_error h r.
Proof.
  intros h a b na nb dd s h' Ha Hb Hab ->.
  pose proof (nth_error_in_bounds _ _ _ _ Ha) as Hba.
  pose proof (nth_error_in_bounds _ _ _ _ Hb) as Hbb.
  split; [|split; [|split; [|split]]].
  - rewrite !nth_error_update_neq by lia. apply nth_error_alloc_new.
  - rewrite nth_error_update_neq by congruence.
    apply nth_error_update_eq. rewrite length_app. simpl. lia.
  - apply nth_error_update_eq. rewrite update_length, length_app. simpl. lia.
  - rewrite !update_length, length_app. simpl. lia.
  - intros r Hra Hrb Hr. rewrite !nth_error_update_neq by congruence.
    apply nth_error_app1. assumption.
Qed.

(** A fraction scaled by [k] has the lowest terms of the fraction. *)
Lemma lowest_terms_of_scaled : forall n d k n' d',
  k <> 0 -> lowest_terms_of (n * k) (d * k) n' d' -> lowest_terms_of n d n' d'.
Proof.
  intros n d k n' d' Hk [Hg [Hd0 Hv]]. split; [assumption|]. split; [assumption|].
  apply (Z.mul_cancel_r _ _ k Hk). lia.
Qed.

(** The sum or difference of two fractions over the product of their
    denominators, when the denominators are equal already. *)
Lemma lowest_terms_of_same_denominator : forall s d n' d',
  d <> 0 -> lowest_terms_of s d n' d' -> lowest_terms_of (s * d) (d * d) n' d'.
Proof.
  intros s d n' d' Hd [Hg [Hd0 Hv]]. split; [assumption|]. split; [assumption|].
  replace (n' * (d * d)) with (n' * d * d) by ring. rewrite Hv. ring.
Qed.

Lemma quotient_by_gcd_positive : forall n d, 0 < d -> 0 < d / gcd n d.
Proof.
  intros n d Hd. destruct (gcd_quotients n d ltac:(lia)) as [_ [_ [_ [_ [_ Hs]]]]].
  rewrite (Z.sgn_pos d Hd) in Hs. apply Z.sgn_pos_iff. assumption.
Qed.

Lemma abs_le_product : forall x k, k <> 0 -> Z.abs x <= Z.abs (x * k).
Proof. intros x k Hk. rewrite Z.abs_mul. nia. Qed.

(** [add] and [subtract] share their shape: [combine] is the operation on
    the numerators, [method] the body after [match_denominators]. *)
Lemma add_subtract_exact :
  forall (combine : Z -> Z -> Z) (method : ref -> ref -> bool -> M ref),
  (forall x y, Z.abs (combine x y) <= Z.abs x + Z.abs y) ->
  (forall x y k, combine (x * k) (y * k) = combine x y * k) ->
  (forall h a b na nb dd,
     nth_error h a = Some (ORational (I na) (I dd)) ->
     nth_error h b = Some (ORational (I nb) (I dd)) ->
     forall hm,
     Rational.match_denominators a b hm = (Ret (I dd), h) ->
     method a b true hm
     = (result <- Rational.__init__ (I (combine na nb)) (I dd) true ;;
        Rational.simplify a ;; Rational.simplify b ;; ret result) h) ->
  forall h a b na da nb db,
  nth_error h a = Some (ORational (I na) (I da)) ->
  nth_error h b = Some (ORational (I nb) (I db)) ->
  a <> b -> da <> 0 -> db <> 0 ->
  Z.abs (na * db) + Z.abs (nb * da) < 2 ^ 53 ->
  Z.abs (da * db) < 2 ^ 53 ->
  exists h' rn rd na' da' nb' db',
    method a b true h = (Ret (List.length h), h') /\
    nth_error h' (List.length h) = Some (ORational (I rn) (I rd)) /\
    nth_error h' a = Some (ORational (I na') (I da')) /\
    nth_error h' b = Some (ORational (I nb') (I db')) /\
    lowest_terms_of (combine (na * db) (nb * da)) (da * db) rn rd /\
    lowest_terms_of na da na' da' /\
    lowest_terms_of nb db nb' db' /\
    (0 < da -> 0 < db -> 0 < rd /\ 0 < da' /\ 0 < db') /\
    List.length h' = S (List.length h) /\
    forall r, r <> a -> r <> b -> (r < List.length h)%nat ->
              nth_error h' r = nth_error h r.
Proof.
  intros combine method Hbound Hscale Hbody h a b na da nb db Ha Hb Hab Hda Hdb
    Hn53 Hd53.
  pose proof (match_denominators_scales h a b na da nb db Ha Hb Hda Hdb) as Hm.
  pose proof (nth_error_in_bounds _ _ _ _ Ha) as Hba.
  pose proof (nth_error_in_bounds _ _ _ _ Hb) as Hbb.
  destruct (da =? db) eqn:E.
  - apply Z.eqb_eq in E. subst db.
    pose proof (Hbody h a b na nb da Ha Hb h Hm) as Hrun.
    pose proof (abs_le_product na da Hda) as Hna'.
    pose proof (abs_le_product nb da Hda) as Hnb'.
    pose proof (abs_le_product da da Hda) as Hdd'.
    pose proof (Hbound na nb) as Hs'.
    assert (Hna : Z.abs na < 2 ^ 53) by lia.
    assert (Hnb : Z.abs nb < 2 ^ 53) by lia.
    assert (Hdd : Z.abs da < 2 ^ 53) by lia.
    assert (Hs : Z.abs (combine na nb) < 2 ^ 53) by lia.
    rewrite (result_and_operands_exact h a b na nb da (combine na nb)
               Ha Hb Hab Hda Hna Hnb Hs Hdd) in Hrun.
    destruct (result_and_operands_read h a b na nb da (combine na nb) _
                Ha Hb Hab eq_refl) as [Hr [Ha' [Hb' [Hlen Hframe]]]].
    eexists _, _, _, _, _, _, _.
    split; [exact Hrun|]. split; [exact Hr|]. split; [exact Ha'|].
    split; [exact Hb'|].
    split; [rewrite Hscale; apply lowest_terms_of_same_denominator;
            [assumption|apply lowest_terms_of_quotients; assumption]|].
    split; [apply lowest_terms_of_quotients; assumption|].
    split; [apply lowest_terms_of_quotients; assumption|].
    split; [intros Hpa _; repeat split; apply quotient_by_gcd_positive; assumption|].
    split; assumption.
  - apply Z.eqb_neq in E.
    set (h1 := update (update h a (ORational (I (na * db)) (I (da * db))))
                 b (ORational (I (nb * da)) (I (db * da)))) in *.
    assert (Ha1 : nth_error h1 a = Some (ORational (I (na * db)) (I (da * db)))).
    { unfold h1. rewrite nth_error_update_neq by congruence.
      apply nth_error_update_eq. assumption. }
    assert (Hb1 : nth_error h1 b = Some (ORational (I (nb * da)) (I (da * db)))).
    { unfold h1. replace (da * db) with (db * da) by ring.
      apply nth_error_update_eq. rewrite update_length. assumption. }
    assert (Hlen1 : List.length h1 = List.length h)
      by (unfold h1; rewrite !update_length; reflexivity).
    pose proof (Hbody h1 a b (na * db) (nb * da) (da * db) Ha1 Hb1 h Hm) as Hrun.
    assert (Hq : da * db <> 0) by nia.
    assert (Hna : Z.abs (na * db) < 2 ^ 53) by lia.
    assert (Hnb : Z.abs (nb * da) < 2 ^ 53) by lia.
    assert (Hs : Z.abs (combine (na * db) (nb * da)) < 2 ^ 53)
      by (pose proof (Hbound (na * db) (nb * da)); lia).
    rewrite (result_and_operands_exact h1 a b _ _ _ _
               Ha1 Hb1 Hab Hq Hna Hnb Hs Hd53) in Hrun.
    destruct (result_and_operands_read h1 a b (na * db) (nb * da) (da * db)
                (combine (na * db) (nb * da)) _ Ha1 Hb1 Hab eq_refl)
      as [Hr [Ha' [Hb' [Hlen Hframe]]]].
    rewrite Hlen1 in *.
    eexists _, _, _, _, _, _, _.
    split; [exact Hrun|]. split; [exact Hr|]. split; [exact Ha'|].
    split; [exact Hb'|].
    split; [apply lowest_terms_of_quotients; assumption|].
    split; [apply lowest_terms_of_scaled with (k := db);
            [assumption|apply lowest_terms_of_quotients; assumption]|].
    split; [apply lowest_terms_of_scaled with (k := da); [assumption|];
            replace (db * da) with (da * db) by ring;
            apply lowest_terms_of_quotients; assumption|].
    split; [intros Hpa Hpb; repeat split; apply quotient_by_gcd_positive; nia|].
    split; [assumption|].
    intros r Hra Hrb Hr'. rewrite (Hframe r Hra Hrb Hr').
    unfold h1. rewrite !nth_error_update_neq by congruence. reflexivity.
Qed.

Lemma add_exact : forall h a b na da nb db,
  nth_error h a = Some (ORational (I na) (I da)) ->
  nth_error h b = Some (ORational (I nb) (I db)) ->
  a <> b -> da <> 0 -> db <> 0 ->
  Z.abs (na * db) + Z.abs (nb * da) < 2 ^ 53 ->
  Z.abs (da * db) < 2 ^ 53 ->
  exists h' rn rd na' da' nb' db',
    Rational.add a b true h = (Ret (List.length h), h') /\
    nth_error h' (List.length h) = Some (ORational (I rn) (I rd)) /\
    nth_error h' a = Some (ORational (I na') (I da')) /\
    nth_error h' b = Some (ORational (I nb') (I db')) /\
    lowest_terms_of (na * db + nb * da) (da * db) rn rd /\
    lowest_terms_of na da na' da' /\
    lowest_terms_of nb db nb' db' /\
    (0 < da -> 0 < db -> 0 < rd /\ 0 < da' /\ 0 < db') /\
    List.length h' = S (List.length h) /\
    forall r, r <> a -> r <> b -> (r < List.length h)%nat ->
              nth_error h' r = nth_error h r.
Proof.
  apply (add_subtract_exact Z.add Rational.add).
  - intros x y. lia.
  - intros x y k. ring.
  - intros h a b na nb dd Ha Hb hm Hm. unfold Rational.add.
    rewrite (bind_ret_eq _ _ _ _ _ _ _ Hm).
    erewrite bind_ret_eq by (eapply get_numer_eq; eauto). cbv beta.
    erewrite bind_ret_eq by (eapply get_numer_eq; eauto). cbv beta.
    rewrite bind_lift. reflexivity.
Qed.

(** X6. [add] on two distinct Rationals of ints [na/da] and [nb/db], when
    the magnitudes of the two cross products [na * db] and [nb * da] add up
    to less than [2 ^ 53] and the product of the denominators is below
    [2 ^ 53] in magnitude: the result is a new Rational, the exact sum in
    lowest terms; both operands are left in lowest terms with their values;
    positive denominators give positive denominators; no other object
    changes.  (A bound on each cross product alone is not enough: 1/1 plus
    9007199254740991/2 is rounded.) *)
Theorem add_is_exact_when_small : forall h a b na da nb db,
  nth_error h a = Some (ORational (I na) (I da)) ->
  nth_error h b = Some (ORational (I nb) (I db)) ->
  a <> b -> da <> 0 -> db <> 0 ->
  Z.abs (na * db) + Z.abs (nb * da) < 2 ^ 53 ->
  Z.abs (da * db) < 2 ^ 53 ->
  exists h' rn rd na' da' nb' db',
    Rational.add a b true h = (Ret (List.length h), h') /\
    nth_error h' (List.length h) = Some (ORational (I rn) (I rd)) /\
    nth_error h' a = Some (ORational (I na') (I da')) /\
    nth_error h' b = Some (ORational (I nb') (I db')) /\
    lowest_terms_of (na * db + nb * da) (da * db) rn rd /\
    lowest_terms_of na da na' da' /\
    lowest_terms_of nb db nb' db' /\
    (0 < da -> 0 < db -> 0 < rd /\ 0 < da' /\ 0 < db') /\
    List.length h' = S (List.length h) /\
    forall r, r <> a -> r <> b -> (r < List.length h)%nat ->
              nth_error h' r = nth_error h r.
Proof. exact add_exact. Qed.

Lemma add_is_exact_when_small_witness :
  exists h' rn rd na' da' nb' db',
    Rational.add 0%nat 1%nat true [ORational (I 1) (I 2); ORational (I 1) (I 6)]
    = (Ret 2%nat, h') /\
    nth_error h' 2%nat = Some (ORational (I rn) (I rd)) /\
    nth_error h' 0%nat = Some (ORational (I na') (I da')) /\
    nth_error h' 1%nat = Some (ORational (I nb') (I db')) /\
    lowest_terms_of (1 * 6 + 1 * 2) (2 * 6) rn rd /\
    lowest_terms_of 1 2 na' da' /\
    lowest_terms_of 1 6 nb' db' /\
    (0 < 2 -> 0 < 6 -> 0 < rd /\ 0 < da' /\ 0 < db') /\
    List.length h' = 3%nat /\
    forall r, r <> 0%nat -> r <> 1%nat -> (r < 2)%nat ->
              nth_error h' r = nth_error [ORational (I 1) (I 2); ORational (I 1) (I 6)] r.
Proof.
  apply (add_is_exact_when_small
           [ORational (I 1) (I 2); ORational (I 1) (I 6)] 0%nat 1%nat 1 2 1 6);
    [reflexivity|reflexivity|discriminate|discriminate|discriminate
    |reflexivity|reflexivity].
Defined.

Lemma subtract_exact : forall h a b na da nb db,
  nth_error h a = Some (ORational (I na) (I da)) ->
  nth_error h b = Some (ORational (I nb) (I db)) ->
  a <> b -> da <> 0 -> db <> 0 ->
  Z.abs (na * db) + Z.abs (nb * da) < 2 ^ 53 ->
  Z.abs (da * db) < 2 ^ 53 ->
  exists h' rn rd na' da' nb' db',
    Rational.subtract a b true h = (Ret (List.length h), h') /\
    nth_error h' (List.length h) = Some (ORational (I rn) (I rd)) /\
    nth_error h' a = Some (ORational (I na') (I da')) /\
    nth_error h' b = Some (ORational (I nb') (I db')) /\
    lowest_terms_of (na * db - nb * da) (da * db) rn rd /\
    lowest_terms_of na da na' da' /\
    lowest_terms_of nb db nb' db' /\
    (0 < da -> 0 < db -> 0 < rd /\ 0 < da' /\ 0 < db') /\
    List.length h' = S (List.length h) /\
    forall r, r <> a -> r <> b -> (r < List.length h)%nat ->
              nth_error h' r = nth_error h r.
Proof.
  apply (add_subtract_exact Z.sub Rational.subtract).
  - intros x y. lia.
  - intros x y k. ring.
  - intros h a b na nb dd Ha Hb hm Hm. unfold Rational.subtract.
    rewrite (bind_ret_eq _ _ _ _ _ _ _ Hm).
    erewrite bind_ret_eq by (eapply get_numer_eq; eauto). cbv beta.
    erewrite bind_ret_eq by (eapply get_numer_eq; eauto). cbv beta.
    rewrite !bind_lift. reflexivity.
Qed.

(** X7. [subtract] on two distinct Rationals of ints [na/da] and [nb/db],
    when the magnitudes of the two cross products [na * db] and [nb * da]
    add up to less than [2 ^ 53] and the product of the denominators is
    below [2 ^ 53] in magnitude: the result is a new Rational, the exact
    difference in lowest terms; both operands are left in lowest terms with
    their values; positive denominators give positive denominators; no
    other object changes. *)
Theorem subtract_is_exact_when_small : forall h a b na da nb db,
  nth_error h a = Some (ORational (I na) (I da)) ->
  nth_error h b = Some (ORational (I nb) (I db)) ->
  a <> b -> da <> 0 -> db <> 0 ->
  Z.abs (na * db) + Z.abs (nb * da) < 2 ^ 53 ->
  Z.abs (da * db) < 2 ^ 53 ->
  exists h' rn rd na' da' nb' db',
    Rational.subtract a b true h = (Ret (List.length h), h') /\
    nth_error h' (List.length h) = Some (ORational (I rn) (I rd)) /\
    nth_error h' a = Some (ORational (I na') (I da')) /\
    nth_error h' b = Some (ORational (I nb') (I db')) /\
    lowest_terms_of (na * db - nb * da) (da * db) rn rd /\
    lowest_terms_of na da na' da' /\
    lowest_terms_of nb db nb' db' /\
    (0 < da -> 0 < db -> 0 < rd /\ 0 < da' /\ 0 < db') /\
    List.length h' = S (List.length h) /\
    forall r, r <> a -> r <> b -> (r < List.length h)%nat ->
              nth_error h' r = nth_error h r.
Proof. exact subtract_exact. Qed.

Lemma subtract_is_exact_when_small_witness :
  exists h' rn rd na' da' nb' db',
    Rational.subtract 0%nat 1%nat true [ORational (I 1) (I 2); ORational (I 1) (I 6)]
    = (Ret 2%nat, h') /\
    nth_error h' 2%nat = Some (ORational (I rn) (I rd)) /\
    nth_error h' 0%nat = Some (ORational (I na') (I da')) /\
    nth_error h' 1%nat = Some (ORational (I nb') (I db')) /\
    lowest_terms_of (1 * 6 - 1 * 2) (2 * 6) rn rd /\
    lowest_terms_of 1 2 na' da' /\
    lowest_terms_of 1 6 nb' db' /\
    (0 < 2 -> 0 < 6 -> 0 < rd /\ 0 < da' /\ 0 < db') /\
    List.length h' = 3%nat /\
    forall r, r <> 0%nat -> r <> 1%nat -> (r < 2)%nat ->
              nth_error h' r = nth_error [ORational (I 1) (I 2); ORational (I 1) (I 6)] r.
Proof.
  apply (subtract_is_exact_when_small
           [ORational (I 1) (I 2); ORational (I 1) (I 6)] 0%nat 1%nat 1 2 1 6);
    [reflexivity|reflexivity|discriminate|discriminate|discriminate
    |reflexivity|reflexivity].
Defined.

(** ** Equality of Rationals *)

(** Two fractions have the same lowest terms exactly when they have the same
    value and denominators of the same sign. *)
Lemma same_lowest_terms_iff : forall na da nb db,
  da <> 0 -> db <> 0 ->
  (na / gcd na da =? nb / gcd nb db) && (da / gcd na da =? db / gcd nb db)
  = (na * db =? nb * da) && (Z.sgn da =? Z.sgn db).
Proof.
  intros na da nb db Hda Hdb.
  destruct (gcd_quotients na da Hda) as [Hga [Hna [Hda' [Hg1 [Hb1 Hs1]]]]].
  destruct (gcd_quotients nb db Hdb) as [Hgb [Hnb [Hdb' [Hg2 [Hb2 Hs2]]]]].
  set (ga := gcd na da) in *. set (gb := gcd nb db) in *.
  set (a1 := na / ga) in *. set (b1 := da / ga) in *.
  set (a2 := nb / gb) in *. set (b2 := db / gb) in *.
  apply eq_true_iff_eq. rewrite !andb_true_iff, !Z.eqb_eq. split.
  - intros [Ea Eb]. split.
    + rewrite Hna, Hdb', Hnb, Hda', Ea, Eb. ring.
    + rewrite <- Hs1, <- Hs2, Eb. reflexivity.
  - intros [Hc Hs].
    assert (Hx : a1 * b2 = a2 * b1).
    { apply (Z.mul_cancel_r _ _ (ga * gb)); [nia|].
      replace (a1 * b2 * (ga * gb)) with ((a1 * ga) * (b2 * gb)) by ring.
      replace (a2 * b1 * (ga * gb)) with ((a2 * gb) * (b1 * ga)) by ring.
      rewrite <- Hna, <- Hdb', <- Hnb, <- Hda'. exact Hc. }
    assert (D12 : (b1 | b2)).
    { apply Z.gauss with (m := a1); [|rewrite Z.gcd_comm; assumption].
      exists a2. rewrite Hx. reflexivity. }
    assert (D21 : (b2 | b1)).
    { apply Z.gauss with (m := a2); [|rewrite Z.gcd_comm; assumption].
      exists a1. symmetry. exact Hx. }
    assert (Eb : b1 = b2).
    { rewrite <- Hs1, <- Hs2 in Hs.
      destruct (Z.divide_antisym b1 b2 D12 D21) as [E|E]; lia. }
    split; [|assumption].
    apply (Z.mul_cancel_r _ _ b2 Hb2). rewrite Hx, Eb. reflexivity.
Qed.

(** [copy] with simplification, on ints below [2 ^ 53] in magnitude. *)
Lemma copy_exact_when_small : forall h rat n d,
  nth_error h rat = Some (ORational (I n) (I d)) ->
  d <> 0 -> Z.abs n < 2 ^ 53 -> Z.abs d < 2 ^ 53 ->
  Rational.copy rat true h
  = (Ret (List.length h), h ++ [ORational (I (n / gcd n d)) (I (d / gcd n d))]).
Proof.
  intros h rat n d Hs Hd Hn53 Hd53. unfold Rational.copy.
  erewrite bind_ret_eq by (eapply get_numer_eq; eauto). cbv beta.
  erewrite bind_ret_eq by (eapply get_denom_eq; eauto). cbv beta.
  apply init_exact_when_small; assumption.
Qed.

(** X8. [__eq__] and [__ne__] on Rationals of ints below [2 ^ 53] in magnitude.
    The comparison is made on simplified copies, and simplification keeps
    the sign of the denominator: two Rationals are equal exactly when they
    have the same value and denominators of the same sign, so that [1/-2]
    and [-1/2] are different.  The operands are not modified; the two
    copies stay in the store. *)
Theorem eq_compares_value_and_denominator_sign : forall h a b na da nb db,
  nth_error h a = Some (ORational (I na) (I da)) ->
  nth_error h b = Some (ORational (I nb) (I db)) ->
  da <> 0 -> db <> 0 ->
  Z.abs na < 2 ^ 53 -> Z.abs da < 2 ^ 53 ->
  Z.abs nb < 2 ^ 53 -> Z.abs db < 2 ^ 53 ->
  exists ca cb,
    Rational.__eq__ a b h
    = (Ret ((na * db =? nb * da) && (Z.sgn da =? Z.sgn db)), h ++ [ca; cb]) /\
    Rational.__ne__ a b h
    = (Ret (negb ((na * db =? nb * da) && (Z.sgn da =? Z.sgn db))), h ++ [ca; cb]).
Proof.
  intros h a b na da nb db Ha Hb Hda Hdb Hna Hda53 Hnb Hdb53.
  set (ca := ORational (I (na / gcd na da)) (I (da / gcd na da))).
  set (cb := ORational (I (nb / gcd nb db)) (I (db / gcd nb db))).
  assert (Heq : Rational.__eq__ a b h
                = (Ret ((na * db =? nb * da) && (Z.sgn da =? Z.sgn db)), h ++ [ca; cb])).
  { unfold Rational.__eq__.
    erewrite bind_ret_eq by (apply copy_exact_when_small; eauto). cbv beta.
    fold ca.
    erewrite bind_ret_eq
      by (apply copy_exact_when_small with (n := nb) (d := db);
          [apply nth_error_alloc_old; eassumption|assumption|assumption|assumption]).
    cbv beta. fold cb.
    assert (Hla : nth_error ((h ++ [ca]) ++ [cb]) (List.length h) = Some ca).
    { apply nth_error_alloc_old. apply nth_error_alloc_new. }
    assert (Hlb : nth_error ((h ++ [ca]) ++ [cb]) (List.length (h ++ [ca])) = Some cb)
      by apply nth_error_alloc_new.
    erewrite bind_ret_eq by (eapply get_numer_eq; exact Hla). cbv beta.
    erewrite bind_ret_eq by (eapply get_numer_eq; exact Hlb). cbv beta.
    cbn [py_eq].
    rewrite <- (same_lowest_terms_iff na da nb db Hda Hdb).
    rewrite <- app_assoc. simpl app.
    destruct (na / gcd na da =? nb / gcd nb db); cbn [andb].
    - erewrite bind_ret_eq by (eapply get_denom_eq; rewrite <- app_assoc in Hla; exact Hla).
      cbv beta.
      erewrite bind_ret_eq by (eapply get_denom_eq; rewrite <- app_assoc in Hlb; exact Hlb).
      reflexivity.
    - reflexivity. }
  exists ca, cb. split; [exact Heq|].
  unfold Rational.__ne__. rewrite (bind_ret_eq _ _ _ _ _ _ _ Heq). reflexivity.
Qed.

Lemma eq_compares_value_and_denominator_sign_witness :
  exists ca cb,
    Rational.__eq__ 0%nat 1%nat [ORational (I 1) (I (-2)); ORational (I (-1)) (I 2)]
    = (Ret ((1 * 2 =? -1 * -2) && (Z.sgn (-2) =? Z.sgn 2)),
       [ORational (I 1) (I (-2)); ORational (I (-1)) (I 2)] ++ [ca; cb]) /\
    Rational.__ne__ 0%nat 1%nat [ORational (I 1) (I (-2)); ORational (I (-1)) (I 2)]
    = (Ret (negb ((1 * 2 =? -1 * -2) && (Z.sgn (-2) =? Z.sgn 2))),
       [ORational (I 1) (I (-2)); ORational (I (-1)) (I 2)] ++ [ca; cb]).
Proof.
  apply (eq_compares_value_and_denominator_sign
           [ORational (I 1) (I (-2)); ORational (I (-1)) (I 2)] 0%nat 1%nat 1 (-2) (-1) 2);
    [reflexivity|reflexivity|discriminate|discriminate
    |reflexivity|reflexivity|reflexivity|reflexivity].
Defined.

(** ** Signs *)

Lemma py_gt_int : forall a b, py_gt (I a) (I b) = (b <? a).
Proof.
  intros a b. unfold py_gt, py_compare, Z.ltb.
  rewrite (Z.compare_antisym a b). destruct (a ?= b); reflexivity.
Qed.

Lemma is_zero_int : forall h self n d,
  nth_error h self = Some (ORational (I n) (I d)) ->
  Rational.is_zero self h = (Ret (n =? 0), h).
Proof.
  intros h self n d Hs. unfold Rational.is_zero.
  erewrite bind_ret_eq by (eapply get_numer_eq; eauto). reflexivity.
Qed.

Lemma is_positive_int : forall h self n d,
  nth_error h self = Some (ORational (I n) (I d)) ->
  Rational.is_positive self h = (Ret ((0 <? n) && (0 <? d)), h).
Proof.
  intros h self n d Hs. unfold Rational.is_positive.
  erewrite bind_ret_eq by (eapply get_numer_eq; eauto). cbv beta.
  rewrite py_gt_int. destruct (0 <? n); cbn [andb]; [|reflexivity].
  erewrite bind_ret_eq by (eapply get_denom_eq; eauto). cbv beta.
  rewrite py_gt_int. reflexivity.
Qed.

Lemma is_negative_int : forall h self n d,
  nth_error h self = Some (ORational (I n) (I d)) ->
  Rational.is_negative self h
  = (Ret (negb ((0 <? n) && (0 <? d)) && negb (n =? 0)), h).
Proof.
  intros h self n d Hs. unfold Rational.is_negative.
  erewrite bind_ret_eq by (eapply is_positive_int; eauto). cbv beta.
  destruct ((0 <? n) && (0 <? d)); cbn [negb andb]; [reflexivity|].
  erewrite bind_ret_eq by (eapply is_zero_int; eauto). reflexivity.
Qed.

(** X9. [is_positive], [is_zero] and [is_negative] on a Rational of ints.  With
    a positive denominator they tell the sign of the value.  With a negative
    denominator [is_positive] is always False, and [is_negative] is True for
    every numerator but zero: a Rational such as [-1/-2], whose value is
    positive, counts as negative. *)
Theorem sign_tests_assume_positive_denominator : forall h self n d,
  nth_error h self = Some (ORational (I n) (I d)) ->
  d <> 0 ->
  Rational.is_zero self h = (Ret (n * d =? 0), h) /\
  (0 < d ->
   Rational.is_positive self h = (Ret (0 <? n * d), h) /\
   Rational.is_negative self h = (Ret (n * d <? 0), h)) /\
  (d < 0 ->
   Rational.is_positive self h = (Ret false, h) /\
   Rational.is_negative self h = (Ret (negb (n =? 0)), h)).
Proof.
  intros h self n d Hs Hd.
  rewrite (is_zero_int _ _ _ _ Hs), (is_positive_int _ _ _ _ Hs),
    (is_negative_int _ _ _ _ Hs).
  split; [|split].
  - f_equal. f_equal. apply eq_true_iff_eq. rewrite !Z.eqb_eq. nia.
  - intro Hp. replace (0 <? d) with true by (symmetry; apply Z.ltb_lt; assumption).
    rewrite andb_true_r.
    assert (E1 : (0 <? n) = (0 <? n * d))
      by (apply eq_true_iff_eq; rewrite !Z.ltb_lt; nia).
    assert (E2 : negb (0 <? n) && negb (n =? 0) = (n * d <? 0)).
    { apply eq_true_iff_eq.
      rewrite andb_true_iff, !negb_true_iff, Z.ltb_ge, Z.eqb_neq, Z.ltb_lt. nia. }
    rewrite E2, E1. split; reflexivity.
  - intro Hn. replace (0 <? d) with false by (symmetry; apply Z.ltb_ge; lia).
    rewrite andb_false_r. split; reflexivity.
Qed.

Lemma sign_tests_assume_positive_denominator_witness :
  Rational.is_positive 0%nat [ORational (I (-1)) (I (-2))]
  = (Ret false, [ORational (I (-1)) (I (-2))]) /\
  Rational.is_negative 0%nat [ORational (I (-1)) (I (-2))]
  = (Ret (negb (-1 =? 0)), [ORational (I (-1)) (I (-2))]).
Proof.
  apply (proj2 (proj2 (sign_tests_assume_positive_denominator
                         [ORational (I (-1)) (I (-2))] 0%nat (-1) (-2)
                         eq_refl ltac:(discriminate)))).
  reflexivity.
Defined.

(** ** Egyptian fractions *)

(** [simplify] is exact as soon as the two quotients are below [2 ^ 53] in
    magnitude, whatever the size of numerator and denominator. *)
Lemma simplify_exact_when_quotients_small : forall h self n d,
  nth_error h self = Some (ORational (I n) (I d)) ->
  d <> 0 ->
  Z.abs (n / gcd n d) < 2 ^ 53 -> Z.abs (d / gcd n d) < 2 ^ 53 ->
  Rational.simplify self h
  = (Ret tt, update h self (ORational (I (n / gcd n d)) (I (d / gcd n d)))).
Proof.
  intros h self n d Hs Hd Hqn Hqd.
  pose proof (nth_error_in_bounds _ _ _ _ Hs) as Hb.
  destruct (gcd_quotients n d Hd) as [Hx [Hnx [Hdx _]]].
  set (x := gcd n d) in *.
  pose proof (int_of_exact_quotient (n / x) x Hx Hqn) as En.
  pose proof (int_of_exact_quotient (d / x) x Hx Hqd) as Ed.
  rewrite <- Hnx in En. rewrite <- Hdx in Ed.
  unfold Rational.simplify.
  erewrite bind_ret_eq by (eapply get_numer_eq; eauto). cbv beta.
  rewrite bind_lift. cbn [py_int].
  erewrite bind_ret_eq by (eapply get_denom_eq; eauto). cbv beta.
  rewrite bind_lift. cbn [py_int]. cbv zeta. fold x.
  erewrite bind_ret_eq by (eapply get_numer_eq; eauto). cbv beta.
  rewrite bind_lift.
  destruct (py_truediv (I n) (I x)) as [qn| |]; try discriminate.
  simpl obind in En. rewrite bind_lift, En.
  erewrite bind_ret_eq by (eapply set_numer_eq; eauto). cbv beta.
  erewrite bind_ret_eq
    by (eapply get_denom_eq; apply nth_error_update_eq; assumption).
  cbv beta. rewrite bind_lift.
  destruct (py_truediv (I d) (I x)) as [qd| |]; try discriminate.
  simpl obind in Ed. rewrite bind_lift, Ed.
  erewrite set_denom_eq by (apply nth_error_update_eq; assumption).
  rewrite update_update. reflexivity.
Qed.

(** A copy of zero is zero over 1 or over -1. *)
Lemma copy_of_zero : forall h rat d,
  nth_error h rat = Some (ORational (I 0) (I d)) -> d <> 0 ->
  Rational.copy rat true h
  = (Ret (List.length h), h ++ [ORational (I 0) (I (Z.sgn d))]).
Proof.
  intros h rat d Hs Hd. unfold Rational.copy.
  erewrite bind_ret_eq by (eapply get_numer_eq; eauto). cbv beta.
  erewrite bind_ret_eq by (eapply get_denom_eq; eauto). cbv beta.
  unfold Rational.__init__. cbn [py_eq].
  replace (d =? 0) with false by (symmetry; apply Z.eqb_neq; assumption).
  erewrite bind_ret_eq by reflexivity. cbv beta.
  destruct (d =? 1) eqn:E1; cbn [negb andb].
  - apply Z.eqb_eq in E1. subst d. erewrite bind_ret_eq by reflexivity. reflexivity.
  - assert (Hg : gcd 0 d = Z.abs d) by apply Z.gcd_0_l.
    assert (Hq : d / Z.abs d = Z.sgn d).
    { rewrite <- (Z.abs_sgn d) at 1. rewrite Z.mul_comm. apply Z.div_mul. lia. }
    erewrite bind_ret_eq.
    2:{ apply simplify_exact_when_quotients_small with (n := 0) (d := d);
          [apply nth_error_alloc_new|assumption| |];
          rewrite Hg; [rewrite Z.div_0_l by lia; reflexivity|rewrite Hq; lia]. }
    rewrite update_alloc, Hg, Hq, Z.div_0_l by lia. reflexivity.
Qed.

(** X10. [as_egyptian_fraction] of a Rational whose numerator is the int 0: the
    loop is not entered and the result is the empty list; the only change
    to the store is the working copy. *)
Theorem egyptian_fraction_of_zero_is_empty : forall h self d fuel,
  nth_error h self = Some (ORational (I 0) (I d)) ->
  d <> 0 ->
  Rational.as_egyptian_fraction (S fuel) self h
  = (Ret [], h ++ [ORational (I 0) (I (Z.sgn d))]).
Proof.
  intros h self d fuel Hs Hd. unfold Rational.as_egyptian_fraction.
  erewrite bind_ret_eq by (apply copy_of_zero; eassumption). cbv beta.
  cbn [Rational.as_egyptian_fraction_loop].
  erewrite bind_ret_eq by (eapply is_zero_int; apply nth_error_alloc_new).
  reflexivity.
Qed.

Lemma egyptian_fraction_of_zero_is_empty_witness :
  Rational.as_egyptian_fraction 1 0%nat [ORational (I 0) (I 5)]
  = (Ret [], [ORational (I 0) (I 5)] ++ [ORational (I 0) (I (Z.sgn 5))]).
Proof.
  apply (egyptian_fraction_of_zero_is_empty [ORational (I 0) (I 5)] 0%nat 5 0%nat);
    [reflexivity|discriminate].
Defined.

(** The signs that [subtract] leaves, on ints of any size: the result has
    the sign of the exact difference, its denominator and the operands keep
    the signs they have once the denominators match. *)
Lemma subtract_int_signs : forall h a b na da nb db r h',
  nth_error h a = Some (ORational (I na) (I da)) ->
  nth_error h b = Some (ORational (I nb) (I db)) ->
  a <> b -> da <> 0 -> db <> 0 ->
  Rational.subtract a b true h = (Ret r, h') ->
  exists rn rd na' da',
    nth_error h' r = Some (ORational (I rn) (I rd)) /\
    nth_error h' a = Some (ORational (I na') (I da')) /\
    Z.sgn rn = Z.sgn (if da =? db then na - nb else na * db - nb * da) /\
    Z.sgn rd = Z.sgn (if da =? db then da else da * db) /\
    Z.sgn na' = Z.sgn (if da =? db then na else na * db) /\
    Z.sgn da' = Z.sgn (if da =? db then da else da * db).
Proof.
  intros h a b na da nb db r h' Ha Hb Hab Hda Hdb H.
  pose proof (match_denominators_scales h a b na da nb db Ha Hb Hda Hdb) as Hm.
  pose proof (nth_error_in_bounds _ _ _ _ Ha) as Hba.
  pose proof (nth_error_in_bounds _ _ _ _ Hb) as Hbb.
  assert (Hcommon : exists h1 na1 nb1 dd,
            Rational.match_denominators a b h = (Ret (I dd), h1) /\
            nth_error h1 a = Some (ORational (I na1) (I dd)) /\
            nth_error h1 b = Some (ORational (I nb1) (I dd)) /\
            dd <> 0 /\
            na1 = (if da =? db then na else na * db) /\
            dd = (if da =? db then da else da * db) /\
            na1 - nb1 = (if da =? db then na - nb else na * db - nb * da)).
  { destruct (da =? db) eqn:E.
    - apply Z.eqb_eq in E. subst db. exists h, na, nb, da. auto 10.
    - eexists _, (na * db), (nb * da), (da * db).
      split; [exact Hm|]. split.
      { rewrite nth_error_update_neq by congruence.
        apply nth_error_update_eq. assumption. }
      split.
      { replace (da * db) with (db * da) by ring.
        apply nth_error_update_eq. rewrite update_length. assumption. }
      split; [nia|]. auto. }
  clear Hm. destruct Hcommon as [h1 [na1 [nb1 [dd [Hm [Ha1 [Hb1 [Hdd [En [Ed Es]]]]]]]]]].
  rewrite <- En, <- Ed, <- Es. clear En Ed Es.
  unfold Rational.subtract in H.
  rewrite (bind_ret_eq _ _ _ _ _ _ _ Hm) in H.
  erewrite bind_ret_eq in H by (eapply get_numer_eq; eauto). cbv beta in H.
  erewrite bind_ret_eq in H by (eapply get_numer_eq; eauto). cbv beta in H.
  rewrite !bind_lift in H. cbn [py_sub py_int] in H.
  rewrite !bind_lift in H. cbn [py_int] in H.
  apply bind_ret_inv in H. destruct H as [r' [h2 [Hnew H]]].
  destruct (new_int _ _ _ _ _ _ Hnew) as [-> [_ [rn [rd [-> [Hrn Hrd]]]]]].
  apply bind_ret_inv in H. destruct H as [[] [h3 [Hsa H]]].
  apply bind_ret_inv in H. destruct H as [[] [h4 [Hsb H]]].
  inversion H; subst r h4; clear H.
  pose proof (nth_error_in_bounds _ _ _ _ Ha1) as Hba1.
  pose proof (nth_error_in_bounds _ _ _ _ Hb1) as Hbb1.
  destruct (simplify_int _ _ _ _ _ (nth_error_alloc_old _ _ _ _ Ha1) Hdd Hsa)
    as [na' [da' [-> [Hna' Hda']]]].
  assert (Hb3 : nth_error
                  (update (h1 ++ [ORational (I rn) (I rd)]) a (ORational (I na') (I da')))
                  b = Some (ORational (I nb1) (I dd))).
  { rewrite nth_error_update_neq by congruence. apply nth_error_alloc_old. assumption. }
  destruct (simplify_int _ _ _ _ _ Hb3 Hdd Hsb) as [nb' [db' [-> _]]].
  exists rn, rd, na', da'.
  assert (Hra : a <> List.length h1) by (clear - Hba1; lia).
  assert (Hrb : b <> List.length h1) by (clear - Hbb1; lia).
  split.
  { rewrite !nth_error_update_neq by assumption. apply nth_error_alloc_new. }
  split.
  { rewrite nth_error_update_neq by congruence.
    apply nth_error_update_eq. rewrite length_app. simpl. lia. }
  auto.
Qed.

(** One more iteration leaves the loop of [as_egyptian_fraction] where it
    was, as long as the value is negative. *)
Lemma egyptian_loop_never_returns : forall fuel h x result i n d,
  nth_error h x = Some (ORational (I n) (I d)) ->
  n < 0 -> 0 < d -> 0 < i ->
  fst (Rational.as_egyptian_fraction_loop fuel x result i h) = Timeout \/
  exists e, fst (Rational.as_egyptian_fraction_loop fuel x result i h) = Raise e.
Proof.
  induction fuel as [|fuel IH]; intros h x result i n d Hx Hn Hd Hi.
  - left. reflexivity.
  - cbn [Rational.as_egyptian_fraction_loop].
    erewrite bind_ret_eq by (eapply is_zero_int; eauto). cbv beta.
    replace (n =? 0) with false by (symmetry; apply Z.eqb_neq; lia).
    cbn [negb].
    destruct (Rational.__init__ (I 1) (I i) true h) as [[c|e|] h1] eqn:Enew;
      [|right; exists e; erewrite bind_raise_eq by eassumption; reflexivity
       |left; erewrite bind_timeout_eq by eassumption; reflexivity].
    rewrite (bind_ret_eq _ _ _ _ _ _ _ Enew).
    destruct (new_int _ _ _ _ _ _ Enew) as [-> [_ [n1 [i1 [-> [Hn1 Hi1]]]]]].
    rewrite (Z.sgn_pos 1) in Hn1 by lia. rewrite (Z.sgn_pos i) in Hi1 by lia.
    apply Z.sgn_pos_iff in Hn1. apply Z.sgn_pos_iff in Hi1.
    pose proof (nth_error_in_bounds _ _ _ _ Hx) as Hbx.
    destruct (Rational.subtract x (List.length h) true (h ++ [ORational (I n1) (I i1)]))
      as [[y|e|] h2] eqn:Esub;
      [|right; exists e; erewrite bind_raise_eq by eassumption; reflexivity
       |left; erewrite bind_timeout_eq by eassumption; reflexivity].
    rewrite (bind_ret_eq _ _ _ _ _ _ _ Esub).
    destruct (subtract_int_signs _ _ _ n d n1 i1 _ _
                (nth_error_alloc_old _ _ _ _ Hx) (nth_error_alloc_new _ _)
                ltac:(lia) ltac:(lia) ltac:(lia) Esub)
      as [rn [rd [n' [d' [Hy [Hx' [Hrn [Hrd [Hn' Hd']]]]]]]]].
    assert (Hneg : rn < 0).
    { apply Z.sgn_neg_iff. rewrite Hrn. apply Z.sgn_neg_iff.
      clear - Hn Hd Hn1 Hi1. destruct (d =? i1); nia. }
    assert (Hn'' : n' < 0).
    { apply Z.sgn_neg_iff. rewrite Hn'. apply Z.sgn_neg_iff.
      clear - Hn Hd Hn1 Hi1. destruct (d =? i1); nia. }
    assert (Hd'' : 0 < d').
    { apply Z.sgn_pos_iff. rewrite Hd'. apply Z.sgn_pos_iff.
      clear - Hn Hd Hn1 Hi1. destruct (d =? i1); nia. }
    erewrite bind_ret_eq by (eapply is_negative_int; eauto). cbv beta.
    replace (0 <? rn) with false by (symmetry; apply Z.ltb_ge; lia).
    replace (rn =? 0) with false by (symmetry; apply Z.eqb_neq; lia).
    cbn [negb andb].
    apply (IH h2 x result (i + 1) n' d' Hx' Hn'' Hd''). lia.
Qed.

(** X11. [as_egyptian_fraction] of a Rational of ints with a negative numerator
    and a positive denominator never returns a list: no unit fraction can be
    subtracted, so the value is never zero and the loop runs on with larger
    and larger denominators (unless an operation raises).  Whatever the
    bound on the number of iterations, the bound is reached. *)
Theorem egyptian_fraction_of_negative_never_returns : forall fuel h self n d,
  nth_error h self = Some (ORational (I n) (I d)) ->
  n < 0 -> 0 < d ->
  fst (Rational.as_egyptian_fraction fuel self h) = Timeout \/
  exists e, fst (Rational.as_egyptian_fraction fuel self h) = Raise e.
Proof.
  intros fuel h self n d Hs Hn Hd. unfold Rational.as_egyptian_fraction.
  destruct (Rational.copy self true h) as [[x|e|] h1] eqn:Ecopy;
    [|right; exists e; erewrite bind_raise_eq by eassumption; reflexivity
     |left; erewrite bind_timeout_eq by eassumption; reflexivity].
  rewrite (bind_ret_eq _ _ _ _ _ _ _ Ecopy).
  unfold Rational.copy in Ecopy.
  erewrite bind_ret_eq in Ecopy by (eapply get_numer_eq; eauto). cbv beta in Ecopy.
  erewrite bind_ret_eq in Ecopy by (eapply get_denom_eq; eauto). cbv beta in Ecopy.
  destruct (new_int _ _ _ _ _ _ Ecopy) as [-> [_ [n' [d' [-> [Hn' Hd']]]]]].
  rewrite (Z.sgn_neg n) in Hn' by lia. rewrite (Z.sgn_pos d) in Hd' by lia.
  apply Z.sgn_neg_iff in Hn'. apply Z.sgn_pos_iff in Hd'.
  apply (egyptian_loop_never_returns fuel _ _ [] 2 n' d'
           (nth_error_alloc_new _ _) Hn' Hd'). lia.
Qed.

Lemma egyptian_fraction_of_negative_never_returns_witness :
  fst (Rational.as_egyptian_fraction 3 0%nat [ORational (I (-1)) (I 2)]) = Timeout \/
  exists e,
    fst (Rational.as_egyptian_fraction 3 0%nat [ORational (I (-1)) (I 2)]) = Raise e.
Proof.
  apply (egyptian_fraction_of_negative_never_returns
           3 [ORational (I (-1)) (I 2)] 0%nat (-1) 2);
    reflexivity.
Defined.

(** A unit fraction, and zero, in lowest terms with a positive
    denominator. *)
Lemma lowest_terms_of_unit : forall k n' d',
  lowest_terms_of 1 k n' d' -> 0 < k -> 0 < d' -> n' = 1 /\ d' = k.
Proof.
  intros k n' d' [Hg [_ Hv]] Hk Hd'.
  assert (Hn : 0 < n') by nia.
  assert (E : d' = n' * k) by lia. subst d'.
  rewrite Z.gcd_mul_diag_l in Hg by lia. subst n'. lia.
Qed.

Lemma lowest_terms_of_zero : forall D n' d',
  lowest_terms_of 0 D n' d' -> D <> 0 -> 0 < d' -> n' = 0 /\ d' = 1.
Proof.
  intros D n' d' [Hg [_ Hv]] HD Hd'.
  assert (Hn : n' = 0) by nia. subst n'.
  rewrite Z.gcd_0_l in Hg. lia.
Qed.

(** The loop of [as_egyptian_fraction] on [1/k], from a candidate
    denominator [i] up to [k]: the candidates below [k] are too large, the
    candidate [1/k] is taken and leaves zero. *)
Lemma egyptian_loop_unit_fraction : forall m fuel h x i k,
  nth_error h x = Some (ORational (I 1) (I k)) ->
  2 <= i <= k -> k * k < 2 ^ 53 ->
  Z.to_nat (k - i) = m -> (m + 2 <= fuel)%nat ->
  exists c h',
    Rational.as_egyptian_fraction_loop fuel x [] i h = (Ret [c], h') /\
    nth_error h' c = Some (ORational (I 1) (I k)).
Proof.
  induction m as [|m IH]; intros fuel h x i k Hx Hi Hk Hm Hfuel;
    (destruct fuel as [|fuel]; [lia|]);
    cbn [Rational.as_egyptian_fraction_loop];
    erewrite bind_ret_eq by (eapply is_zero_int; eauto); cbv beta;
    change (1 =? 0) with false; cbn [negb];
    pose proof (nth_error_in_bounds _ _ _ _ Hx) as Hbx;
    assert (H1 : Z.abs 1 < 2 ^ 53) by reflexivity;
    assert (Hi53 : Z.abs i < 2 ^ 53) by nia;
    assert (Hsum : Z.abs (1 * i) + Z.abs (1 * k) < 2 ^ 53) by nia;
    assert (Hprod : Z.abs (k * i) < 2 ^ 53) by nia;
    (erewrite bind_ret_eq by (apply init_exact_when_small; [lia|assumption|assumption]));
    cbv beta;
    (replace (gcd 1 i) with 1 by (symmetry; apply Z.gcd_1_l));
    rewrite !Z.div_1_r;
    (destruct (subtract_exact (h ++ [ORational (I 1) (I i)]) x (List.length h)
                1 k 1 i
                (nth_error_alloc_old _ _ _ _ Hx) (nth_error_alloc_new _ _)
                ltac:(lia) ltac:(lia) ltac:(lia) Hsum Hprod)
       as [h2 [rn [rd [na' [da' [nb' [db'
            [Hsub [Hy [Hx' [Hc' [Hr [Ha [Hb [Hpos _]]]]]]]]]]]]]]]);
    destruct (Hpos ltac:(lia) ltac:(lia)) as [Hrd [Hda' Hdb']];
    rewrite length_app in Hy; simpl List.length in Hy;
    rewrite length_app in Hsub; simpl List.length in Hsub;
    rewrite (bind_ret_eq _ _ _ _ _ _ _ Hsub);
    (erewrite bind_ret_eq by (eapply is_negative_int; eauto)); cbv beta.
  - (* the candidate is 1/k *)
    assert (i = k) by lia. subst i.
    replace (1 * k - 1 * k) with 0 in Hr by ring.
    destruct (lowest_terms_of_zero _ _ _ Hr ltac:(nia) Hrd) as [-> ->].
    destruct (lowest_terms_of_unit _ _ _ Hb ltac:(lia) Hdb') as [-> ->].
    change (negb ((0 <? 0) && (0 <? 1)) && negb (0 =? 0)) with false.
    cbn [negb]. destruct fuel as [|fuel]; [lia|].
    cbn [Rational.as_egyptian_fraction_loop].
    erewrite bind_ret_eq by (eapply is_zero_int; eauto). cbv beta.
    change (negb (0 =? 0)) with false. cbv iota.
    exists (List.length h), h2. split; [reflexivity|assumption].
  - (* the candidate is larger than 1/k *)
    assert (Hik : i < k) by lia.
    destruct Hr as [_ [_ Hv]].
    assert (Hneg : rn < 0).
    { assert (Hki : 0 < k * i) by nia.
      assert (Hrhs : (1 * i - 1 * k) * rd < 0) by nia.
      rewrite <- Hv in Hrhs. clear - Hki Hrhs.
      destruct (Z.lt_ge_cases rn 0) as [Hlt|Hge]; [assumption|].
      exfalso. pose proof (Z.mul_nonneg_nonneg rn (k * i) Hge ltac:(lia)). lia. }
    destruct (lowest_terms_of_unit _ _ _ Ha ltac:(lia) Hda') as [-> ->].
    replace (0 <? rn) with false by (symmetry; apply Z.ltb_ge; lia).
    replace (rn =? 0) with false by (symmetry; apply Z.eqb_neq; lia).
    cbn [negb andb].
    apply (IH fuel h2 x (i + 1) k Hx'); lia.
Qed.

(** X12. [as_egyptian_fraction] of the unit fraction [1/k], for [2 <= k] with
    [k * k] below [2 ^ 53]: after the candidates [1/2], ..., [1/(k-1)],
    which are too large, the candidate [1/k] is taken and the loop stops.
    The result is a list of one Rational, [1/k]; [k] iterations are
    enough. *)
Theorem egyptian_fraction_of_unit_fraction : forall fuel h self k,
  nth_error h self = Some (ORational (I 1) (I k)) ->
  2 <= k -> k * k < 2 ^ 53 -> (Z.to_nat k <= fuel)%nat ->
  exists c h',
    Rational.as_egyptian_fraction fuel self h = (Ret [c], h') /\
    nth_error h' c = Some (ORational (I 1) (I k)).
Proof.
  intros fuel h self k Hs Hk Hsmall Hfuel. unfold Rational.as_egyptian_fraction.
  erewrite bind_ret_eq by (apply copy_exact_when_small with (n := 1) (d := k);
                           [eassumption|lia|reflexivity|nia]).
  cbv beta.
  replace (gcd 1 k) with 1 by (symmetry; apply Z.gcd_1_l). rewrite !Z.div_1_r.
  apply (egyptian_loop_unit_fraction (Z.to_nat (k - 2)) fuel _ _ 2 k
           (nth_error_alloc_new _ _)); lia.
Qed.

Lemma egyptian_fraction_of_unit_fraction_witness :
  exists c h',
    Rational.as_egyptian_fraction 3 0%nat [ORational (I 1) (I 3)] = (Ret [c], h') /\
    nth_error h' c = Some (ORational (I 1) (I 3)).
Proof.
  apply (egyptian_fraction_of_unit_fraction 3 [ORational (I 1) (I 3)] 0%nat 3);
    [reflexivity|discriminate|reflexivity|simpl; lia].
Defined.

(** ** What [find_matching_parens] finds *)

Lemma find_matching_parens_loop_sound : forall chars j level k,
  find_matching_parens_loop chars j level = Ret k ->
  exists inner rest,
    chars = inner ++ ")"%char :: rest /\
    k = (j + List.length inner)%nat /\
    balanced level inner = true.
Proof.
  induction chars as [|c chars IH]; intros j level k H; simpl in H; [discriminate|].
  destruct (Ascii.eqb c "(") eqn:Eo.
  - destruct (IH _ _ _ H) as [inner [rest [-> [-> Hb]]]].
    exists (c :: inner), rest. simpl. rewrite Eo.
    split; [reflexivity|]. split; [lia|assumption].
  - destruct (Ascii.eqb c ")") eqn:Ec.
    + destruct (level =? 0) eqn:El.
      * inversion H; subst k. apply Ascii.eqb_eq in Ec. subst c.
        exists [], chars. simpl. split; [reflexivity|]. split; [lia|assumption].
      * destruct (IH _ _ _ H) as [inner [rest [-> [-> Hb]]]].
        exists (c :: inner), rest. simpl. rewrite Eo, Ec, El.
        split; [reflexivity|]. split; [lia|assumption].
    + destruct (IH _ _ _ H) as [inner [rest [-> [-> Hb]]]].
      exists (c :: inner), rest. simpl. rewrite Eo, Ec.
      split; [reflexivity|]. split; [lia|assumption].
Qed.

Lemma find_matching_parens_loop_complete : forall inner rest j level,
  balanced level inner = true ->
  find_matching_parens_loop (inner ++ ")"%char :: rest) j level
  = Ret (j + List.length inner)%nat.
Proof.
  induction inner as [|c inner IH]; intros rest j level H; simpl in *.
  - rewrite H. f_equal. lia.
  - destruct (Ascii.eqb c "(").
    + rewrite IH by assumption. f_equal. lia.
    + destruct (Ascii.eqb c ")").
      * destruct (level =? 0); [discriminate|].
        rewrite IH by assumption. f_equal. lia.
      * rewrite IH by assumption. f_equal. lia.
Qed.

Lemma find_matching_parens_sound : forall s i j,
  find_matching_parens s i = Ret j ->
  (i < j)%nat /\ nth_error s j = Some ")"%char /\
  balanced 0 (substring s (i + 1) j) = true /\
  skipn (i + 1) s = substring s (i + 1) j ++ ")"%char :: skipn (S j) s.
Proof.
  intros s i j H. unfold find_matching_parens in H.
  destruct (find_matching_parens_loop_sound _ _ _ _ H) as [inner [rest [Hs [-> Hb]]]].
  assert (Hsub : substring s (i + 1) (i + 1 + List.length inner) = inner).
  { unfold substring. rewrite Hs.
    replace (i + 1 + List.length inner - (i + 1))%nat with (List.length inner + 0)%nat
      by lia.
    rewrite firstn_app_2. simpl. apply app_nil_r. }
  assert (Hj : nth_error s (i + 1 + List.length inner) = Some ")"%char).
  { rewrite <- nth_error_skipn, Hs, nth_error_app2 by lia.
    rewrite Nat.sub_diag. reflexivity. }
  split; [lia|]. split; [assumption|]. rewrite Hsub. split; [assumption|].
  rewrite Hs. f_equal. f_equal.
  replace (S (i + 1 + List.length inner)) with (S (List.length inner) + (i + 1))%nat
    by lia.
  rewrite <- skipn_skipn, Hs, skipn_app, skipn_all2 by lia.
  replace (S (List.length inner) - List.length inner)%nat with 1%nat by lia.
  reflexivity.
Qed.

(** X13. [find_matching_parens s i] returns [j] exactly when [j] is the position
    of a closing parenthesis after [i] and the parentheses of the text
    strictly between [i] and [j] are balanced.  When there is no such
    position it raises its ValueError; that is the case in particular when
    [i] is the last position or lies beyond the end. *)
Theorem find_matching_parens_finds_the_balanced_close : forall s i,
  (forall j,
     find_matching_parens s i = Ret j <->
     (i < j)%nat /\ nth_error s j = Some ")"%char /\
     balanced 0 (substring s (i + 1) j) = true) /\
  ((forall j, find_matching_parens s i <> Ret j) <->
   find_matching_parens s i = Raise (ValueError "Couldn't find a matching parens!")) /\
  ((List.length s <= i + 1)%nat ->
   find_matching_parens s i = Raise (ValueError "Couldn't find a matching parens!")).
Proof.
  intros s i. split; [|split].
  - intro j. split.
    + intro H. destruct (find_matching_parens_sound _ _ _ H) as [H1 [H2 [H3 _]]]. auto.
    + intros [Hij [Hj Hb]]. unfold find_matching_parens.
      assert (Hc : nth_error (skipn (i + 1) s) (j - (i + 1)) = Some ")"%char).
      { rewrite nth_error_skipn. replace (i + 1 + (j - (i + 1)))%nat with j by lia.
        assumption. }
      rewrite <- (firstn_skipn_middle _ _ Hc).
      unfold substring in Hb.
      rewrite (find_matching_parens_loop_complete _ _ _ _ Hb).
      f_equal. rewrite length_firstn.
      pose proof (nth_error_in_bounds _ _ _ _ Hc). lia.
  - unfold find_matching_parens.
    destruct (find_matching_parens_loop_cases (skipn (i + 1) s) (i + 1)%nat 0)
      as [[k [E _]] | E]; rewrite E; split.
    + intro H. exfalso. apply (H k). reflexivity.
    + discriminate.
    + reflexivity.
    + intros _ j. discriminate.
  - intro Hlen. unfold find_matching_parens. rewrite skipn_all2 by lia. reflexivity.
Qed.

(** ** Operations and their characters *)

(** X14. [Operation.parse] undoes [Operation.__str__], and finds an operation for
    no other character than the five that [__str__] produces. *)
Theorem operation_parse_inverts_str : forall o c,
  Operation_parse c = Some o <-> Operation_str o = [c].
Proof.
  intros o c. split.
  - unfold Operation_parse. intro H.
    repeat match type of H with
           | (if Ascii.eqb c ?x then _ else _) = _ =>
             let E := fresh "E" in
             destruct (Ascii.eqb c x) eqn:E;
             [apply Ascii.eqb_eq in E; subst c; inversion H; reflexivity|]
           end.
    discriminate.
  - intro H. destruct o; inversion H; reflexivity.
Qed.

(** ** [parse] only allocates *)

Lemma preserves_bind : forall (A B : Type) k (m : M A) (f : A -> M B),
  preserves_below k m -> (forall a, preserves_below k (f a)) ->
  preserves_below k (bind m f).
Proof.
  intros A B k m f Hm Hf h o h' H Hk. unfold bind in H.
  destruct (m h) as [[a|e|] h1] eqn:E.
  - destruct (Hm _ _ _ E Hk) as [Hl1 Hf1].
    destruct (Hf a _ _ _ H ltac:(lia)) as [Hl2 Hf2].
    split; [lia|]. intros i Hi. rewrite Hf2, Hf1 by assumption. reflexivity.
  - inversion H; subst. eapply Hm; eauto.
  - inversion H; subst. eapply Hm; eauto.
Qed.

Lemma preserves_same_heap : forall (A : Type) k (m : M A),
  (forall h o h', m h = (o, h') -> h' = h) -> preserves_below k m.
Proof.
  intros A k m Hm h o h' H _. rewrite (Hm _ _ _ H). auto.
Qed.

Lemma preserves_ret : forall (A : Type) k (a : A), preserves_below k (ret a).
Proof. intros. apply preserves_same_heap. intros h o h' H. inversion H. reflexivity. Qed.

Lemma preserves_raise : forall (A : Type) k e, preserves_below k (@raise A e).
Proof. intros. apply preserves_same_heap. intros h o h' H. inversion H. reflexivity. Qed.

Lemma preserves_lift : forall (A : Type) k (o : outcome A), preserves_below k (lift o).
Proof. intros. apply preserves_same_heap. intros h o' h' H. inversion H. reflexivity. Qed.

Lemma preserves_timeout : forall (A : Type) k, preserves_below k (@timeout A).
Proof. intros. apply preserves_same_heap. intros h o h' H. inversion H. reflexivity. Qed.

Lemma preserves_get_numer : forall k self, preserves_below k (get_numer self).
Proof.
  intros. apply preserves_same_heap. intros h o h' H. unfold get_numer in H.
  destruct (nth_error h self) as [[? ?|?]|]; inversion H; reflexivity.
Qed.

Lemma preserves_get_denom : forall k self, preserves_below k (get_denom self).
Proof.
  intros. apply preserves_same_heap. intros h o h' H. unfold get_denom in H.
  destruct (nth_error h self) as [[? ?|?]|]; inversion H; reflexivity.
Qed.

Lemma preserves_get_tokens : forall k self, preserves_below k (get_tokens self).
Proof.
  intros. apply preserves_same_heap. intros h o h' H. unfold get_tokens in H.
  destruct (nth_error h self) as [[? ?|?]|]; inversion H; reflexivity.
Qed.

Lemma preserves_update : forall k self (h : heap) x,
  (k <= self)%nat ->
  (List.length h <= List.length (update h self x))%nat /\
  forall i, (i < k)%nat -> nth_error (update h self x) i = nth_error h i.
Proof.
  intros k self h x Hk. rewrite update_length. split; [lia|].
  intros i Hi. apply nth_error_update_neq. lia.
Qed.

Lemma preserves_set_numer : forall k self n,
  (k <= self)%nat -> preserves_below k (set_numer self n).
Proof.
  intros k self n Hk h o h' H _. unfold set_numer in H.
  destruct (nth_error h self) as [[? ?|?]|]; inversion H; subst;
    auto using preserves_update.
Qed.

Lemma preserves_set_denom : forall k self d,
  (k <= self)%nat -> preserves_below k (set_denom self d).
Proof.
  intros k self d Hk h o h' H _. unfold set_denom in H.
  destruct (nth_error h self) as [[? ?|?]|]; inversion H; subst;
    auto using preserves_update.
Qed.

Lemma preserves_set_tokens : forall k self ts,
  (k <= self)%nat -> preserves_below k (set_tokens self ts).
Proof.
  intros k self ts Hk h o h' H _. unfold set_tokens in H.
  destruct (nth_error h self) as [[? ?|?]|]; inversion H; subst;
    auto using preserves_update.
Qed.

(** A new object lies above everything that was there. *)
Lemma preserves_bind_alloc : forall (B : Type) k x (f : ref -> M B),
  (forall self, (k <= self)%nat -> preserves_below k (f self)) ->
  preserves_below k (bind (alloc x) f).
Proof.
  intros B k x f Hf h o h' H Hk. unfold bind, alloc in H.
  destruct (Hf (List.length h) Hk _ _ _ H) as [Hl Hfr].
  { rewrite length_app. lia. }
  rewrite length_app in Hl. simpl in Hl. split; [lia|].
  intros i Hi. rewrite Hfr by assumption. apply nth_error_app1. lia.
Qed.

Lemma preserves_simplify : forall k self,
  (k <= self)%nat -> preserves_below k (Rational.simplify self).
Proof.
  intros k self Hk. unfold Rational.simplify.
  repeat first
    [ apply preserves_bind; [|intro]
    | apply preserves_get_numer | apply preserves_get_denom
    | apply preserves_set_numer; assumption
    | apply preserves_set_denom; assumption
    | apply preserves_lift ].
Qed.

Lemma preserves_init : forall k n d simp,
  preserves_below k (Rational.__init__ n d simp).
Proof.
  intros k n d simp. unfold Rational.__init__.
  destruct (py_eq d (I 0)); [apply preserves_raise|].
  apply preserves_bind_alloc. intros self Hself.
  apply preserves_bind; [|intro; apply preserves_ret].
  destruct (negb (py_eq d (I 1)) && simp);
    [apply preserves_simplify; assumption|apply preserves_ret].
Qed.

Lemma preserves_Rational_parse : forall k s, preserves_below k (Rational.parse s).
Proof.
  intros k s. unfold Rational.parse.
  destruct (Decimal_as_integer_ratio s) as [[n d]|];
    [apply preserves_init|apply preserves_raise].
Qed.

Lemma preserves_add_token : forall k self t,
  (k <= self)%nat -> preserves_below k (Expression.add_token self t).
Proof.
  intros k self t Hk. unfold Expression.add_token.
  apply preserves_bind; [apply preserves_get_tokens|].
  intro. apply preserves_set_tokens. assumption.
Qed.

Lemma preserves_flush : forall k ex b w,
  (k <= ex)%nat -> preserves_below k (Expression.flush ex b w).
Proof.
  intros k ex b w Hk. unfold Expression.flush. destruct b; [|apply preserves_ret].
  apply preserves_bind; [apply preserves_Rational_parse|].
  intro. apply preserves_add_token. assumption.
Qed.

Lemma preserves_parse_loop : forall k (parse_ : str -> M ref) s,
  (forall s', preserves_below k (parse_ s')) ->
  forall n ex i b w, (k <= ex)%nat ->
  preserves_below k (Expression.parse_loop parse_ n s ex i b w).
Proof.
  intros k parse_ s Hrec. induction n as [|n IH]; intros ex i b w Hk.
  - apply preserves_timeout.
  - cbn [Expression.parse_loop].
    destruct (nth_error s i) as [c|]; [|apply preserves_flush; assumption].
    destruct (is_digit c || Ascii.eqb c ".")%bool; [apply IH; assumption|].
    apply preserves_bind; [apply preserves_flush; assumption|]. intros _.
    destruct (Operation_parse c).
    + apply preserves_bind; [apply preserves_add_token; assumption|]. intros _.
      apply IH. assumption.
    + destruct (Ascii.eqb c "("); [|apply preserves_raise].
      apply preserves_bind; [apply preserves_get_tokens|]. intros ts.
      apply preserves_bind.
      { match goal with |- preserves_below _ (if ?c then _ else _) => destruct c end;
          [apply preserves_add_token; assumption|apply preserves_ret]. }
      intros _.
      apply preserves_bind; [apply preserves_lift|]. intros j.
      apply preserves_bind; [apply Hrec|]. intros subex.
      apply preserves_bind; [apply preserves_add_token; assumption|]. intros _.
      apply IH. assumption.
Qed.

Lemma preserves_parse_fuel : forall fuel k s,
  preserves_below k (Expression.parse_fuel fuel s).
Proof.
  induction fuel as [|fuel IH]; intros k s.
  - apply preserves_timeout.
  - cbn [Expression.parse_fuel]. cbv zeta.
    apply preserves_bind_alloc. intros ex Hex.
    apply preserves_bind; [|intro; apply preserves_ret].
    apply preserves_parse_loop; [intro; apply IH|assumption].
Qed.

Lemma extends_of_preserves : forall (h h' : heap),
  (List.length h <= List.length h')%nat ->
  (forall i, (i < List.length h)%nat -> nth_error h' i = nth_error h i) ->
  exists t, h' = h ++ t.
Proof.
  intros h h' Hl Hf. exists (skipn (List.length h) h').
  rewrite <- (firstn_skipn (List.length h) h') at 1. f_equal.
  apply nth_error_ext. intro n.
  destruct (Nat.lt_ge_cases n (List.length h)) as [Hn|Hn].
  - rewrite nth_error_firstn.
    replace (n <? List.length h)%nat with true by (symmetry; apply Nat.ltb_lt; assumption).
    apply Hf. assumption.
  - rewrite (proj2 (nth_error_None h n)) by assumption.
    apply nth_error_None. rewrite length_firstn. lia.
Qed.

(** X15. Whatever its outcome, [Expression.parse] leaves every object that was
    in the store as it was: the store after the call is the store before it
    with new objects at the end.  When it returns, the result is the first
    of the new objects, and it is an Expression. *)
Theorem parse_only_allocates : forall s h o h',
  Expression.parse s h = (o, h') ->
  (exists t, h' = h ++ t) /\
  (forall r, o = Ret r ->
     r = List.length h /\ exists ts, nth_error h' r = Some (OExpression ts)).
Proof.
  intros s h o h' H. split.
  - destruct (preserves_parse_fuel _ (List.length h) s _ _ _ H (le_n _)) as [Hl Hf].
    apply extends_of_preserves; assumption.
  - intros r ->. unfold Expression.parse in H. cbn [Expression.parse_fuel] in H.
    cbv zeta in H.
    erewrite bind_ret_eq in H by (unfold Expression.__init__, alloc; reflexivity).
    cbv beta in H.
    apply bind_ret_inv in H. destruct H as [[] [h1 [Hloop H]]].
    inversion H; subst r h1; clear H. split; [reflexivity|].
    eapply (keeps_parse_loop _ _ (keeps_parse_fuel _)); [exact Hloop|].
    apply nth_error_alloc_new.
Qed.

Lemma parse_only_allocates_witness :
  (exists t,
     snd (Expression.parse (list_ascii_of_string "1+(2") [ORational (I 7) (I 1)])
     = [ORational (I 7) (I 1)] ++ t) /\
  (forall r,
     fst (Expression.parse (list_ascii_of_string "1+(2") [ORational (I 7) (I 1)]) = Ret r ->
     r = List.length [ORational (I 7) (I 1)] /\
     exists ts,
       nth_error
         (snd (Expression.parse (list_ascii_of_string "1+(2") [ORational (I 7) (I 1)]))
         r = Some (OExpression ts)).
Proof.
  apply (parse_only_allocates (list_ascii_of_string "1+(2") [ORational (I 7) (I 1)]).
  vm_compute. reflexivity.
Defined.

(** ** Spaces *)

Lemma remove_spaces_idempotent : forall s,
  Expression.remove_spaces (Expression.remove_spaces s) = Expression.remove_spaces s.
Proof.
  intro s. unfold Expression.remove_spaces.
  apply forallb_filter_id. apply forallb_filter.
Qed.

Lemma parse_fuel_reads_without_spaces : forall fuel s,
  Expression.parse_fuel fuel s = Expression.parse_fuel fuel (Expression.remove_spaces s).
Proof.
  intros [|fuel] s; [reflexivity|].
  cbn [Expression.parse_fuel]. cbv zeta. rewrite remove_spaces_idempotent. reflexivity.
Qed.

(** Any two bounds above the length of the text give the same parse. *)
Lemma parse_fuel_enough : forall fuel s h,
  (List.length s < fuel)%nat ->
  Expression.parse_fuel fuel s h = Expression.parse s h.
Proof.
  intros fuel s h Hf. unfold Expression.parse.
  destruct (Expression.parse_fuel (S (List.length s)) s h) as [o h'] eqn:E.
  apply (parse_fuel_refines (S (List.length s)) fuel s ltac:(lia) _ _ _ E).
  eapply no_timeout_parse_fuel; [|exact E]. lia.
Qed.

Lemma parse_without_spaces : forall s h,
  Expression.parse (Expression.remove_spaces s) h = Expression.parse s h.
Proof.
  intros s h. rewrite <- (parse_fuel_enough (S (List.length s))).
  - unfold Expression.parse at 1. symmetry. rewrite parse_fuel_reads_without_spaces.
    reflexivity.
  - pose proof (remove_spaces_length s). lia.
Qed.

(** X16. [Expression.parse] ignores spaces: two texts that differ only in their
    spaces have the same outcome and leave the same store. *)
Theorem parse_ignores_spaces : forall s s' h,
  Expression.remove_spaces s = Expression.remove_spaces s' ->
  Expression.parse s h = Expression.parse s' h.
Proof.
  intros s s' h H.
  rewrite <- (parse_without_spaces s), <- (parse_without_spaces s'), H. reflexivity.
Qed.

Lemma parse_ignores_spaces_witness :
  Expression.parse (list_ascii_of_string " 1 +  2") []
  = Expression.parse (list_ascii_of_string "1+2 ") [].
Proof.
  apply (parse_ignores_spaces
           (list_ascii_of_string " 1 +  2") (list_ascii_of_string "1+2 ") []).
  reflexivity.
Defined.

Lemma remove_spaces_join : forall words,
  Expression.remove_spaces (join_spaces words)
  = Expression.remove_spaces (List.concat words).
Proof.
  induction words as [|w words IH]; [reflexivity|].
  destruct words as [|w' words].
  - simpl. rewrite app_nil_r. reflexivity.
  - change (join_spaces (w :: w' :: words))
      with (w ++ " "%char :: join_spaces (w' :: words)).
    change (List.concat (w :: w' :: words)) with (w ++ List.concat (w' :: words)).
    rewrite !remove_spaces_app, <- IH. reflexivity.
Qed.

(** X17. [main] joins the words of the command line with spaces, and [parse]
    drops the spaces: the way the expression is split into words makes no
    difference to what [main] prints or raises. *)
Theorem main_ignores_word_boundaries :
  forall float_pow float_str log10 fuel float_only words h,
  main float_pow float_str log10 fuel float_only words h
  = main float_pow float_str log10 fuel float_only [List.concat words] h.
Proof.
  intros float_pow float_str log10 fuel float_only words h. unfold main.
  assert (E : Expression.parse (join_spaces words) h
              = Expression.parse (join_spaces [List.concat words]) h).
  { rewrite <- (parse_without_spaces (join_spaces words)), remove_spaces_join.
    apply parse_without_spaces. }
  unfold bind at 1 3. rewrite E. reflexivity.
Qed.

(** ** What [parse] accepts *)

(** The characters of the alphabet and the parentheses balanced, from depth
    [level]. *)
Lemma balanced_app : forall a b level d,
  0 <= level -> 0 <= d ->
  balanced level a = true ->
  balanced (level + d) (a ++ b) = balanced d b.
Proof.
  induction a as [|c a IH]; intros b level d Hl Hd H; simpl in *.
  - apply Z.eqb_eq in H. subst level. reflexivity.
  - destruct (Ascii.eqb c "(").
    + replace (level + d + 1) with (level + 1 + d) by lia. apply IH; [lia|lia|assumption].
    + destruct (Ascii.eqb c ")").
      * destruct (level =? 0) eqn:E; [discriminate|]. apply Z.eqb_neq in E.
        replace (level + d =? 0) with false by (symmetry; apply Z.eqb_neq; lia).
        replace (level + d - 1) with (level - 1 + d) by lia.
        apply IH; [lia|lia|assumption].
      * apply IH; assumption.
Qed.

Lemma balanced_skips : forall c rest level,
  Ascii.eqb c "(" = false -> Ascii.eqb c ")" = false ->
  balanced level (c :: rest) = balanced level rest.
Proof. intros c rest level H1 H2. simpl. rewrite H1, H2. reflexivity. Qed.

Lemma literal_character_is_no_parenthesis : forall c,
  (is_digit c || Ascii.eqb c ".")%bool = true ->
  Ascii.eqb c " " = false /\ Ascii.eqb c "(" = false /\ Ascii.eqb c ")" = false.
Proof.
  intros c H. repeat split;
    match goal with
    | |- Ascii.eqb c ?x = false =>
      destruct (Ascii.eqb c x) eqn:E; [|reflexivity];
      apply Ascii.eqb_eq in E; subst c; discriminate
    end.
Qed.

Lemma operator_is_no_parenthesis : forall c o,
  Operation_parse c = Some o ->
  Ascii.eqb c " " = false /\ Ascii.eqb c "(" = false /\ Ascii.eqb c ")" = false.
Proof.
  intros c o H. repeat split;
    match goal with
    | |- Ascii.eqb c ?x = false =>
      destruct (Ascii.eqb c x) eqn:E; [|reflexivity];
      apply Ascii.eqb_eq in E; subst c; discriminate
    end.
Qed.

Lemma remove_spaces_cons : forall c rest,
  Ascii.eqb c " " = false ->
  Expression.remove_spaces (c :: rest) = c :: Expression.remove_spaces rest.
Proof. intros c rest H. unfold Expression.remove_spaces. simpl. rewrite H. reflexivity. Qed.

Lemma skipn_cons_nth : forall (A : Type) (l : list A) i a,
  nth_error l i = Some a -> skipn i l = a :: skipn (S i) l.
Proof.
  induction l as [|x l IH]; intros [|i] a H; simpl in *; try discriminate.
  - inversion H. reflexivity.
  - apply IH. assumption.
Qed.

(** If the loop of [parse] gets through the text from position [i], the
    text from [i] on, spaces apart, is made of characters of the alphabet
    and its parentheses are balanced. *)
Lemma parse_loop_accepts : forall (parse_ : str -> M ref) s,
  (forall s' h r h', parse_ s' h = (Ret r, h') ->
     forallb in_alphabet (Expression.remove_spaces s') = true /\
     balanced 0 (Expression.remove_spaces s') = true) ->
  forall n ex i b w h h',
  Expression.parse_loop parse_ n s ex i b w h = (Ret tt, h') ->
  forallb in_alphabet (Expression.remove_spaces (skipn i s)) = true /\
  balanced 0 (Expression.remove_spaces (skipn i s)) = true.
Proof.
  intros parse_ s Hrec. induction n as [|n IH]; intros ex i b w h h' H;
    [discriminate|].
  cbn [Expression.parse_loop] in H.
  destruct (nth_error s i) as [c|] eqn:Hc.
  2:{ apply nth_error_None in Hc. rewrite skipn_all2 by assumption. split; reflexivity. }
  rewrite (skipn_cons_nth _ _ _ _ Hc).
  destruct (is_digit c || Ascii.eqb c ".")%bool eqn:Edig.
  { destruct (literal_character_is_no_parenthesis c Edig) as [Es [Eo Ec]].
    destruct (IH _ _ _ _ _ _ H) as [Ha Hb].
    rewrite remove_spaces_cons by assumption. split.
    - simpl. unfold in_alphabet at 1. rewrite Edig. assumption.
    - rewrite balanced_skips; assumption. }
  apply bind_ret_inv in H. destruct H as [[] [h1 [_ H]]].
  destruct (Operation_parse c) as [o|] eqn:Eop.
  { destruct (operator_is_no_parenthesis c o Eop) as [Es [Eo Ec]].
    apply bind_ret_inv in H. destruct H as [[] [h2 [_ H]]].
    destruct (IH _ _ _ _ _ _ H) as [Ha Hb].
    rewrite remove_spaces_cons by assumption. split.
    - simpl. unfold in_alphabet at 1. rewrite Eop, Edig. assumption.
    - rewrite balanced_skips; assumption. }
  destruct (Ascii.eqb c "(") eqn:Epar; [|discriminate].
  apply Ascii.eqb_eq in Epar. subst c.
  apply bind_ret_inv in H. destruct H as [ts [h2 [_ H]]].
  apply bind_ret_inv in H. destruct H as [[] [h3 [_ H]]].
  rewrite bind_lift in H.
  destruct (find_matching_parens s i) as [j| |] eqn:Ej; try discriminate.
  destruct (find_matching_parens_sound _ _ _ Ej) as [Hij [Hj [_ Hsplit]]].
  apply bind_ret_inv in H. destruct H as [subex [h4 [Hsub H]]].
  apply bind_ret_inv in H. destruct H as [[] [h5 [_ H]]].
  destruct (Hrec _ _ _ _ Hsub) as [Hia Hib].
  destruct (IH _ _ _ _ _ _ H) as [Ha Hb].
  replace (S i) with (i + 1)%nat by lia. rewrite Hsplit.
  rewrite remove_spaces_cons by reflexivity.
  rewrite remove_spaces_app, remove_spaces_cons by reflexivity. split.
  - simpl. rewrite forallb_app, Hia. simpl. assumption.
  - simpl.
    rewrite (balanced_app _ _ 0 1 ltac:(lia) ltac:(lia) Hib). simpl. assumption.
Qed.

Lemma parse_fuel_accepts : forall fuel s h r h',
  Expression.parse_fuel fuel s h = (Ret r, h') ->
  forallb in_alphabet (Expression.remove_spaces s) = true /\
  balanced 0 (Expression.remove_spaces s) = true.
Proof.
  induction fuel as [|fuel IH]; intros s h r h' H; [discriminate|].
  cbn [Expression.parse_fuel] in H. cbv zeta in H.
  apply bind_ret_inv in H. destruct H as [ex [h1 [_ H]]].
  apply bind_ret_inv in H. destruct H as [[] [h2 [Hloop _]]].
  pose proof (parse_loop_accepts _ _ IH _ _ _ _ _ _ _ Hloop) as Hacc.
  simpl skipn in Hacc. rewrite remove_spaces_idempotent in Hacc. exact Hacc.
Qed.

(** X18. [Expression.parse] rejects, by raising, every text that holds a
    character other than a digit, a dot, one of the five operators, a
    parenthesis or a space, and every text whose parentheses are not
    balanced (an opening one without its match, or a closing one that
    closes nothing). *)
Theorem parse_rejects_malformed_text : forall s h,
  forallb in_alphabet (Expression.remove_spaces s) = false \/
  balanced 0 (Expression.remove_spaces s) = false ->
  exists e h', Expression.parse s h = (Raise e, h').
Proof.
  intros s h Hbad.
  destruct (Expression.parse s h) as [[r|e|] h'] eqn:E.
  - destruct (parse_fuel_accepts _ _ _ _ _ E) as [Ha Hb].
    rewrite Ha, Hb in Hbad. destruct Hbad; discriminate.
  - eauto.
  - exfalso. apply (parse_answers s h). rewrite E. reflexivity.
Qed.

Lemma parse_rejects_malformed_text_witness :
  exists e h', Expression.parse (list_ascii_of_string "1+2)") [] = (Raise e, h').
Proof.
  apply (parse_rejects_malformed_text (list_ascii_of_string "1+2)") []).
  right. reflexivity.
Defined.

(** ** The tokens that [parse] emits *)







(** ** Decimal digits *)

Lemma digit_of_digit_char : forall d, 0 <= d <= 9 -> digit_of (digit_char d) = Some d.
Proof.
  intros d Hd.
  assert (H : d = 0 \/ d = 1 \/ d = 2 \/ d = 3 \/ d = 4 \/ d = 5 \/ d = 6 \/ d = 7 \/
              d = 8 \/ d = 9) by lia.
  repeat (destruct H as [->|H]; [reflexivity|]). subst d. reflexivity.
Qed.

Lemma is_digit_digit_char : forall d, 0 <= d <= 9 -> is_digit (digit_char d) = true.
Proof. intros d Hd. unfold is_digit. rewrite digit_of_digit_char by assumption. reflexivity. Qed.

Lemma int_of_digits_app : forall l1 l2 a,
  int_of_digits a (l1 ++ l2)
  = match int_of_digits a l1 with
    | Some v => int_of_digits v l2
    | None => None
    end.
Proof.
  induction l1 as [|c l1 IH]; intros l2 a; simpl; [reflexivity|].
  destruct (digit_of c); [apply IH|reflexivity].
Qed.

(** [digits_of_int] puts in front of [acc] the decimal digits of [n]: at
    least one, all of them digits, and they read back as [n]. *)
Lemma digits_of_int_spec : forall fuel n acc,
  (1 <= fuel)%nat -> 0 <= n < 10 ^ Z.of_nat fuel ->
  exists ds,
    digits_of_int fuel n acc = ds ++ acc /\ ds <> [] /\
    forallb is_digit ds = true /\
    forall a, int_of_digits a ds = Some (a * 10 ^ Z.of_nat (List.length ds) + n).
Proof.
  induction fuel as [|fuel IH]; intros n acc Hf Hn; [lia|].
  cbn [digits_of_int]. cbv zeta.
  assert (Hmod : 0 <= n mod 10 <= 9) by (pose proof (Z.mod_pos_bound n 10); lia).
  destruct (n <? 10) eqn:E.
  - apply Z.ltb_lt in E. rewrite Z.mod_small by lia.
    exists [digit_char n]. split; [reflexivity|]. split; [discriminate|].
    split; [simpl; rewrite is_digit_digit_char by lia; reflexivity|].
    intro a. cbn [int_of_digits List.length]. rewrite digit_of_digit_char by lia.
    f_equal. change (Z.of_nat 1) with 1. rewrite Z.pow_1_r. lia.
  - apply Z.ltb_ge in E.
    assert (Hq : 0 <= n / 10 < 10 ^ Z.of_nat fuel).
    { split; [apply Z.div_pos; lia|].
      apply Z.div_lt_upper_bound; [lia|].
      rewrite Nat2Z.inj_succ, Z.pow_succ_r in Hn by lia. lia. }
    assert (Hfuel : (1 <= fuel)%nat).
    { destruct fuel; [|lia]. simpl in Hq.
      assert (1 <= n / 10) by (apply Z.div_le_lower_bound; lia). lia. }
    destruct (IH (n / 10) (digit_char (n mod 10) :: acc) Hfuel Hq)
      as [ds [Hds [Hne [Hall Hval]]]].
    exists (ds ++ [digit_char (n mod 10)]).
    split; [rewrite Hds, <- app_assoc; reflexivity|].
    split; [destruct ds; discriminate|].
    split.
    + rewrite forallb_app, Hall. simpl.
      rewrite is_digit_digit_char by assumption. reflexivity.
    + intro a. rewrite int_of_digits_app, Hval. cbn [int_of_digits].
      rewrite digit_of_digit_char by assumption. f_equal.
      rewrite length_app. cbn [List.length].
      rewrite Nat2Z.inj_add, Z.pow_add_r by lia.
      change (Z.of_nat 1) with 1. rewrite Z.pow_1_r.
      pose proof (Z.div_mod n 10 ltac:(lia)). lia.
Qed.

Lemma pow2_le_pow10 : forall m, 0 <= m -> 2 ^ m <= 10 ^ m.
Proof. intros m Hm. apply Z.pow_le_mono_l. lia. Qed.

(** [str] of an int that is not negative: digits only, at least one, and
    they read back as the int. *)
Lemma str_int_spec : forall n, 0 <= n ->
  str_int n <> [] /\ forallb is_digit (str_int n) = true /\
  int_of_digits 0 (str_int n) = Some n.
Proof.
  intros n Hn. unfold str_int. cbv zeta.
  replace (n <? 0) with false by (symmetry; apply Z.ltb_ge; assumption).
  rewrite Z.abs_eq by assumption.
  assert (Hb : 0 <= n < 10 ^ Z.of_nat (S (Z.to_nat (Z.log2 n)))).
  { split; [assumption|].
    rewrite Nat2Z.inj_succ, Z2Nat.id by apply Z.log2_nonneg.
    destruct (Z.eq_dec n 0) as [->|Hn0]; [reflexivity|].
    pose proof (Z.log2_spec n ltac:(lia)) as [_ Hup].
    pose proof (pow2_le_pow10 (Z.succ (Z.log2 n))
                  ltac:(pose proof (Z.log2_nonneg n); lia)).
    lia. }
  destruct (digits_of_int_spec (S (Z.to_nat (Z.log2 n))) n [] ltac:(lia) Hb)
    as [ds [Hds [Hne [Hall Hval]]]].
  rewrite Hds, app_nil_r. split; [assumption|]. split; [assumption|].
  rewrite Hval. f_equal.
Qed.

Lemma digits_hold_no_space : forall ds,
  forallb is_digit ds = true -> Expression.remove_spaces ds = ds.
Proof.
  intros ds H. unfold Expression.remove_spaces. apply forallb_filter_id.
  rewrite forallb_forall in *. intros c Hc. specialize (H c Hc).
  destruct (Ascii.eqb c " ") eqn:E; [|reflexivity].
  apply Ascii.eqb_eq in E. subst c. discriminate.
Qed.

Lemma split_dot_digits : forall ds,
  forallb is_digit ds = true -> split_dot ds = (ds, None).
Proof.
  induction ds as [|c ds IH]; intro H; simpl in *; [reflexivity|].
  apply andb_true_iff in H. destruct H as [Hc Hds].
  destruct (Ascii.eqb c ".") eqn:E.
  - apply Ascii.eqb_eq in E. subst c. discriminate.
  - rewrite (IH Hds). reflexivity.
Qed.

Lemma Decimal_of_digits : forall ds n,
  ds <> [] -> forallb is_digit ds = true -> int_of_digits 0 ds = Some n ->
  Decimal_as_integer_ratio ds = Some (n, 1).
Proof.
  intros ds n Hne Hall Hval. unfold Decimal_as_integer_ratio.
  rewrite (split_dot_digits ds Hall), app_nil_r.
  destruct ds as [|c ds]; [contradiction|]. rewrite Hval.
  cbv zeta. cbn [List.length]. change (10 ^ Z.of_nat 0) with 1.
  rewrite Z.gcd_1_r, !Z.div_1_r. reflexivity.
Qed.

(** The constructor does not simplify over the denominator 1. *)
Lemma init_over_one : forall h n simp,
  Rational.__init__ (I n) (I 1) simp h
  = (Ret (List.length h), h ++ [ORational (I n) (I 1)]).
Proof.
  intros h n simp. reflexivity.
Qed.

(** [Rational.parse] on a literal without a dot gives the int over 1,
    whatever the number of digits. *)
Lemma Rational_parse_digits : forall ds n h,
  ds <> [] -> forallb is_digit ds = true -> int_of_digits 0 ds = Some n ->
  Rational.parse ds h = (Ret (List.length h), h ++ [ORational (I n) (I 1)]).
Proof.
  intros ds n h Hne Hall Hval. unfold Rational.parse.
  rewrite (Decimal_of_digits ds n Hne Hall Hval). apply init_over_one.
Qed.

(** ** Reading back what [__str__] prints *)

(** The loop of [parse] over the digits of a literal: it collects them. *)
Lemma parse_loop_literal : forall (p : str -> M ref) ds,
  forallb is_digit ds = true ->
  forall n pre post ex b w h,
  Expression.parse_loop p (List.length ds + n) (pre ++ ds ++ post) ex
    (List.length pre) b w h
  = Expression.parse_loop p n (pre ++ ds ++ post) ex
      (List.length pre + List.length ds)
      (match ds with [] => b | _ => true end) (w ++ ds) h.
Proof.
  intros p. induction ds as [|c ds IH]; intros Hall n pre post ex b w h.
  - simpl. rewrite Nat.add_0_r, app_nil_r. reflexivity.
  - simpl in Hall. apply andb_true_iff in Hall. destruct Hall as [Hc Hds].
    cbn [List.length Nat.add Expression.parse_loop].
    assert (Hn : nth_error (pre ++ (c :: ds) ++ post) (List.length pre) = Some c).
    { rewrite nth_error_app2 by lia. rewrite Nat.sub_diag. reflexivity. }
    rewrite Hn, Hc. cbn [orb].
    replace (pre ++ (c :: ds) ++ post) with ((pre ++ [c]) ++ ds ++ post)
      by (rewrite <- app_assoc; reflexivity).
    replace (S (List.length pre)) with (List.length (pre ++ [c]))
      by (rewrite length_app; simpl; lia).
    rewrite (IH Hds n (pre ++ [c]) post ex true (w ++ [c]) h).
    rewrite length_app, <- !app_assoc. cbn [app List.length].
    replace (List.length pre + 1 + List.length ds)%nat
      with (List.length pre + S (List.length ds))%nat by lia.
    destruct ds; reflexivity.
Qed.

Lemma flush_literal : forall ex ds n h ts,
  ds <> [] -> forallb is_digit ds = true -> int_of_digits 0 ds = Some n ->
  nth_error h ex = Some (OExpression ts) ->
  Expression.flush ex true ds h
  = (Ret tt,
     update (h ++ [ORational (I n) (I 1)]) ex
       (OExpression (ts ++ [TokVal (List.length h)]))).
Proof.
  intros ex ds n h ts Hne Hall Hval Hex. unfold Expression.flush.
  erewrite bind_ret_eq by (apply Rational_parse_digits; eassumption). cbv beta.
  apply add_token_eq. apply nth_error_alloc_old. assumption.
Qed.

(** [parse] on a literal without a dot. *)
Lemma parse_integer_literal : forall ds n h,
  ds <> [] -> forallb is_digit ds = true -> int_of_digits 0 ds = Some n ->
  Expression.parse ds h
  = (Ret (List.length h),
     h ++ [OExpression [TokVal (S (List.length h))]; ORational (I n) (I 1)]).
Proof.
  intros ds n h Hne Hall Hval. unfold Expression.parse.
  cbn [Expression.parse_fuel]. cbv zeta.
  rewrite (digits_hold_no_space ds Hall).
  erewrite bind_ret_eq by (unfold Expression.__init__, alloc; reflexivity).
  cbv beta.
  pose proof (parse_loop_literal (Expression.parse_fuel (List.length ds)) ds Hall
                1 [] [] (List.length h) false [] (h ++ [OExpression []])) as Hlit.
  rewrite app_nil_r in Hlit. cbn [app List.length Nat.add] in Hlit.
  replace (S (List.length ds)) with (List.length ds + 1)%nat by lia.
  assert (Hheap : forall (o o' x : obj),
            update ((h ++ [o]) ++ [x]) (List.length h) o' = h ++ [o'; x]).
  { clear. intros o o' x. induction h as [|y h IH]; simpl; [reflexivity|].
    f_equal. apply IH. }
  erewrite bind_ret_eq.
  2:{ rewrite Hlit. cbn [Expression.parse_loop].
      rewrite (proj2 (nth_error_None ds (List.length ds)) (le_n _)).
      destruct ds as [|c ds]; [contradiction|].
      apply flush_literal with (ts := []); try eassumption.
      apply nth_error_alloc_new. }
  rewrite Hheap, length_app. cbn [List.length app].
  replace (List.length h + 1)%nat with (S (List.length h)) by lia. reflexivity.
Qed.

(** [parse] on two literals without a dot around a division sign. *)
Lemma parse_fraction_literal : forall ds1 ds2 n d h,
  ds1 <> [] -> forallb is_digit ds1 = true -> int_of_digits 0 ds1 = Some n ->
  ds2 <> [] -> forallb is_digit ds2 = true -> int_of_digits 0 ds2 = Some d ->
  exists h' ex r1 r2,
    Expression.parse (ds1 ++ "/"%char :: ds2) h = (Ret ex, h') /\
    nth_error h' ex = Some (OExpression [TokVal r1; TokOp DIVIDE; TokVal r2]) /\
    nth_error h' r1 = Some (ORational (I n) (I 1)) /\
    nth_error h' r2 = Some (ORational (I d) (I 1)).
Proof.
  intros ds1 ds2 n d h Hne1 Hall1 Hval1 Hne2 Hall2 Hval2.
  set (s := ds1 ++ "/"%char :: ds2).
  assert (Hrs : Expression.remove_spaces s = s).
  { unfold s. rewrite remove_spaces_app, remove_spaces_cons by reflexivity.
    rewrite !digits_hold_no_space by assumption. reflexivity. }
  assert (Hlen : List.length s = (List.length ds1 + S (List.length ds2))%nat)
    by (unfold s; rewrite length_app; reflexivity).
  set (ex := List.length h).
  set (h1 := h ++ [OExpression []]).
  assert (Hex1 : nth_error h1 ex = Some (OExpression [])) by apply nth_error_alloc_new.
  set (r1 := List.length h1).
  set (h2 := update (h1 ++ [ORational (I n) (I 1)]) ex (OExpression ([] ++ [TokVal r1]))).
  assert (Hl1 : List.length h1 = S ex) by (unfold h1, ex; rewrite length_app; simpl; lia).
  assert (Hl2 : List.length h2 = S (S ex))
    by (unfold h2; rewrite update_length, length_app, Hl1; simpl; lia).
  assert (Hex2 : nth_error h2 ex = Some (OExpression ([] ++ [TokVal r1]))).
  { unfold h2. apply nth_error_update_eq. rewrite length_app, Hl1. lia. }
  assert (Hr12 : nth_error h2 r1 = Some (ORational (I n) (I 1))).
  { unfold h2. rewrite nth_error_update_neq by (unfold r1; lia).
    apply nth_error_alloc_new. }
  set (h3 := update h2 ex (OExpression (([] ++ [TokVal r1]) ++ [TokOp DIVIDE]))).
  assert (Hl3 : List.length h3 = S (S ex)) by (unfold h3; rewrite update_length; exact Hl2).
  assert (Hex3 : nth_error h3 ex
                 = Some (OExpression (([] ++ [TokVal r1]) ++ [TokOp DIVIDE]))).
  { unfold h3. apply nth_error_update_eq. lia. }
  assert (Hr13 : nth_error h3 r1 = Some (ORational (I n) (I 1))).
  { unfold h3. rewrite nth_error_update_neq by (unfold r1; lia). exact Hr12. }
  set (r2 := List.length h3).
  set (h4 := update (h3 ++ [ORational (I d) (I 1)]) ex
               (OExpression ((([] ++ [TokVal r1]) ++ [TokOp DIVIDE]) ++ [TokVal r2]))).
  exists h4, ex, r1, r2.
  split; [|split; [|split]].
  - unfold Expression.parse. cbn [Expression.parse_fuel]. cbv zeta. rewrite Hrs.
    erewrite bind_ret_eq by (unfold Expression.__init__, alloc; reflexivity).
    cbv beta. fold h1. fold ex.
    erewrite bind_ret_eq; [reflexivity|].
    rewrite Hlen.
    replace (S (List.length ds1 + S (List.length ds2)))
      with (List.length ds1 + S (S (List.length ds2)))%nat by lia.
    pose proof (parse_loop_literal (Expression.parse_fuel (List.length s)) ds1 Hall1
                  (S (S (List.length ds2))) [] ("/"%char :: ds2) ex false [] h1) as HA.
    cbn [app List.length Nat.add] in HA. fold s in HA. rewrite Hlen in HA.
    rewrite HA. clear HA.
    remember (S (List.length ds2)) as m eqn:Em.
    cbn [Expression.parse_loop].
    assert (Hslash : nth_error s (List.length ds1) = Some "/"%char).
    { unfold s. rewrite nth_error_app2 by lia. rewrite Nat.sub_diag. reflexivity. }
    rewrite Hslash.
    change (is_digit "/" || Ascii.eqb "/" ".")%bool with false. cbv iota.
    destruct ds1 as [|c1 ds1']; [contradiction|].
    erewrite bind_ret_eq by (apply flush_literal with (ts := []); eassumption).
    cbv beta. fold r1. fold h2.
    change (Operation_parse "/") with (Some DIVIDE). cbv iota.
    erewrite bind_ret_eq by (apply add_token_eq; exact Hex2). cbv beta. fold h3.
    subst m. replace (S (List.length ds2)) with (List.length ds2 + 1)%nat by lia.
    match goal with
    | |- Expression.parse_loop ?p _ _ _ _ _ _ _ = _ =>
      pose proof (parse_loop_literal p ds2 Hall2
                    1 ((c1 :: ds1') ++ ["/"%char]) [] ex false [] h3) as HC
    end.
    rewrite app_nil_r in HC.
    replace (((c1 :: ds1') ++ ["/"%char]) ++ ds2) with s in HC
      by (unfold s; rewrite <- app_assoc; reflexivity).
    rewrite length_app in HC. cbn [List.length app] in HC.
    replace (S (List.length ds1') + 1)%nat with (S (S (List.length ds1'))) in HC by lia.
    cbn [List.length]. rewrite HC. clear HC.
    cbn [Expression.parse_loop].
    rewrite (proj2 (nth_error_None s _)) by (rewrite Hlen; simpl; lia).
    destruct ds2 as [|c2 ds2']; [contradiction|].
    apply flush_literal; assumption.
  - unfold h4. apply nth_error_update_eq. rewrite length_app, Hl3. lia.
  - unfold h4. rewrite nth_error_update_neq by (unfold r1; lia).
    apply nth_error_alloc_old. exact Hr13.
  - unfold h4. rewrite nth_error_update_neq by (unfold r2; lia).
    apply nth_error_alloc_new.
Qed.

(** [calculate] on an Expression of one value token that is a Rational. *)
Lemma calculate_one_token : forall float_pow fuel h ex r n d,
  nth_error h ex = Some (OExpression [TokVal r]) ->
  nth_error h r = Some (ORational n d) ->
  Expression.calculate float_pow (S (S fuel)) ex h = (Ret r, h).
Proof.
  intros float_pow fuel h ex r n d Hex Hr.
  cbn [Expression.calculate]. unfold Expression.calculate_body at 1.
  erewrite bind_ret_eq by (unfold Expression.get_obj; rewrite Hex; reflexivity).
  cbv beta iota.
  erewrite bind_ret_eq
    by (unfold Expression.is_valid; erewrite bind_ret_eq
          by (eapply get_tokens_eq; eauto); reflexivity).
  cbv beta. cbn [Expression.is_valid_loop Token_is_value Bool.eqb negb].
  erewrite bind_ret_eq by (eapply get_tokens_eq; eauto). cbv beta.
  cbn [List.length]. change (Z.of_nat 1 =? 1) with true. cbv iota.
  erewrite bind_ret_eq
    by (unfold Expression.token_at; erewrite bind_ret_eq
          by (eapply get_tokens_eq; eauto); reflexivity).
  cbv beta. cbn [Expression.value_calculate Token_value].
  unfold Expression.calculate_body.
  erewrite bind_ret_eq by (unfold Expression.get_obj; rewrite Hr; reflexivity).
  reflexivity.
Qed.

Lemma consolidate_three_tokens : forall ops h self a o b,
  nth_error h self = Some (OExpression [a; o; b]) ->
  Expression.consolidate self ops h = (Ret tt, h).
Proof.
  intros ops h self a o b Hs. unfold Expression.consolidate.
  erewrite bind_ret_eq by (eapply get_tokens_eq; eauto). cbv beta.
  unfold Expression.consolidate_fuel. change 0 with (Z.of_nat 0).
  eapply consolidate_loop_exit; [eassumption|]. right. simpl. lia.
Qed.

(** [calculate] on an Expression of three tokens, two Rationals around an
    operator: nothing is consolidated, and the result is that of [op]. *)
Lemma calculate_three_tokens : forall float_pow fuel h ex a o b na da nb db,
  nth_error h ex = Some (OExpression [TokVal a; TokOp o; TokVal b]) ->
  nth_error h a = Some (ORational na da) ->
  nth_error h b = Some (ORational nb db) ->
  Expression.calculate float_pow (S (S fuel)) ex h
  = Expression.op float_pow a b (Some o) h.
Proof.
  intros float_pow fuel h ex a o b na da nb db Hex Ha Hb.
  assert (Hvalid : Expression.is_valid ex h = (Ret true, h)).
  { unfold Expression.is_valid.
    erewrite bind_ret_eq by (eapply get_tokens_eq; eauto). reflexivity. }
  assert (Hat : forall i t, nth_error [TokVal a; TokOp o; TokVal b] i = Some t ->
            Expression.token_at ex (Z.of_nat i) h = (Ret t, h)).
  { intros i t Hi. unfold Expression.token_at.
    erewrite bind_ret_eq by (eapply get_tokens_eq; eauto). cbv beta.
    unfold lift. rewrite (py_index_of_nat _ _ _ _ Hi). reflexivity. }
  assert (Hcalc : forall r n d, nth_error h r = Some (ORational n d) ->
            Expression.calculate float_pow (S fuel) r h = (Ret r, h)).
  { intros r n d Hr. cbn [Expression.calculate]. unfold Expression.calculate_body.
    erewrite bind_ret_eq by (unfold Expression.get_obj; rewrite Hr; reflexivity).
    reflexivity. }
  cbn [Expression.calculate]. unfold Expression.calculate_body at 1.
  erewrite bind_ret_eq by (unfold Expression.get_obj; rewrite Hex; reflexivity).
  cbv beta iota.
  rewrite (bind_ret_eq _ _ _ _ _ _ _ Hvalid). cbn [negb].
  erewrite bind_ret_eq by (eapply get_tokens_eq; eauto). cbv beta.
  cbn [List.length]. change (Z.of_nat 3 =? 1) with false. cbv iota.
  erewrite bind_ret_eq.
  2:{ unfold Expression.pemdas.
      erewrite bind_ret_eq by (eapply consolidate_three_tokens; eauto). cbv beta.
      erewrite bind_ret_eq by (eapply consolidate_three_tokens; eauto). cbv beta.
      eapply consolidate_three_tokens; eauto. }
  cbv beta.
  rewrite (bind_ret_eq _ _ _ _ _ _ _ Hvalid). cbn [negb].
  erewrite bind_ret_eq by (apply (Hat 0%nat); reflexivity). cbv beta.
  cbn [Expression.value_calculate Token_value].
  erewrite bind_ret_eq by (eapply Hcalc; eauto). cbv beta.
  erewrite bind_ret_eq by (apply (Hat 2%nat); reflexivity). cbv beta.
  cbn [Expression.value_calculate Token_value].
  erewrite bind_ret_eq by (eapply Hcalc; eauto). cbv beta.
  erewrite bind_ret_eq by (apply (Hat 1%nat); reflexivity). cbv beta.
  reflexivity.
Qed.

(** X20. Printing a Rational with [__str__], parsing the text and calculating
    the Expression gives the Rational back, in lowest terms: for an int
    numerator that is not negative and a positive int denominator, both
    below [2 ^ 53], the result holds the numerator and the denominator
    divided by their gcd (the Rational itself when it was in lowest
    terms). *)
Theorem str_parse_calculate_round_trip :
  forall float_pow float_str fuel h self n d,
  nth_error h self = Some (ORational (I n) (I d)) ->
  0 <= n < 2 ^ 53 -> 0 < d < 2 ^ 53 ->
  exists r h',
    (s <- Rational.__str__ float_str self ;;
     ex <- Expression.parse s ;;
     Expression.calculate float_pow (S (S fuel)) ex) h = (Ret r, h') /\
    nth_error h' r = Some (ORational (I (n / Z.gcd n d)) (I (d / Z.gcd n d))).
Proof.
  intros float_pow float_str fuel h self n d Hs Hn Hd.
  destruct (str_int_spec n ltac:(lia)) as [Hne1 [Hall1 Hval1]].
  destruct (str_int_spec d ltac:(lia)) as [Hne2 [Hall2 Hval2]].
  assert (Hstr : Rational.__str__ float_str self h
                 = (Ret (if d =? 1 then str_int n
                         else str_int n ++ "/"%char :: str_int d), h)).
  { unfold Rational.__str__.
    erewrite bind_ret_eq by (eapply get_denom_eq; eauto). cbv beta. cbn [py_eq].
    destruct (d =? 1).
    - erewrite bind_ret_eq by (eapply get_numer_eq; eauto). reflexivity.
    - erewrite bind_ret_eq by (eapply get_numer_eq; eauto). cbv beta.
      erewrite bind_ret_eq by (eapply get_denom_eq; eauto). reflexivity. }
  rewrite (bind_ret_eq _ _ _ _ _ _ _ Hstr).
  destruct (d =? 1) eqn:E1.
  - apply Z.eqb_eq in E1. subst d.
    rewrite Z.gcd_1_r, !Z.div_1_r.
    erewrite bind_ret_eq by (apply parse_integer_literal; eassumption). cbv beta.
    assert (Hex : nth_error
                    (h ++ [OExpression [TokVal (S (List.length h))]; ORational (I n) (I 1)])
                    (List.length h)
                  = Some (OExpression [TokVal (S (List.length h))])).
    { rewrite nth_error_app2 by lia. rewrite Nat.sub_diag. reflexivity. }
    assert (Hr : nth_error
                   (h ++ [OExpression [TokVal (S (List.length h))]; ORational (I n) (I 1)])
                   (S (List.length h))
                 = Some (ORational (I n) (I 1))).
    { rewrite nth_error_app2 by lia.
      replace (S (List.length h) - List.length h)%nat with 1%nat by lia. reflexivity. }
    eexists _, _. split; [eapply calculate_one_token; eassumption|exact Hr].
  - destruct (parse_fraction_literal _ _ n d h Hne1 Hall1 Hval1 Hne2 Hall2 Hval2)
      as [h' [ex [r1 [r2 [Hp [Hex [Hr1 Hr2]]]]]]].
    rewrite (bind_ret_eq _ _ _ _ _ _ _ Hp).
    rewrite (calculate_three_tokens _ _ _ _ _ _ _ _ _ _ _ Hex Hr1 Hr2).
    cbn [Expression.op].
    rewrite (divide_exact h' r1 r2 n 1 d 1 Hr1 Hr2) by (rewrite ?Z.mul_1_r, ?Z.mul_1_l; lia).
    eexists _, _. split; [reflexivity|].
    rewrite Z.mul_1_r, Z.mul_1_l.
    replace (S (List.length h')) with (List.length (h' ++ [ORational (I 1) (I d)]))
      by (rewrite length_app; simpl; lia).
    replace (h' ++ [ORational (I 1) (I d);
                    ORational (I (n / gcd n d)) (I (d / gcd n d))])
      with ((h' ++ [ORational (I 1) (I d)])
            ++ [ORational (I (n / gcd n d)) (I (d / gcd n d))])
      by (rewrite <- app_assoc; reflexivity).
    apply nth_error_alloc_new.
Qed.

Lemma str_parse_calculate_round_trip_witness :
  exists r h',
    (s <- Rational.__str__ (fun _ => []) 0%nat ;;
     ex <- Expression.parse s ;;
     Expression.calculate pow_undefined 2 ex) [ORational (I 6) (I 8)] = (Ret r, h') /\
    nth_error h' r = Some (ORational (I (6 / Z.gcd 6 8)) (I (8 / Z.gcd 6 8))).
Proof.
  apply (str_parse_calculate_round_trip pow_undefined (fun _ => []) 0%nat
           [ORational (I 6) (I 8)] 0%nat 6 8);
    [reflexivity|lia|lia].
Defined.

(** ** Validity, termination and precedence *)

(** X21. [is_valid] returns True for more than the alternating token lists: also
    for the empty list and for an alternating list followed by one more
    operator.  It returns False for every other list, and never changes the
    store. *)
Theorem is_valid_accepts_trailing_operator : forall h self ts,
  nth_error h self = Some (OExpression ts) ->
  exists b,
    Expression.is_valid self h = (Ret b, h) /\
    (b = true <->
     ts = [] \/ alternating ts \/
     exists ts' o, alternating ts' /\ ts = ts' ++ [TokOp o]).
Proof.
  intros h self ts Hs. exists (Expression.is_valid_loop ts true). split.
  - unfold Expression.is_valid.
    erewrite bind_ret_eq by (eapply get_tokens_eq; eauto). reflexivity.
  - apply is_valid_loop_accepts.
Qed.

Lemma is_valid_accepts_trailing_operator_witness :
  exists b,
    Expression.is_valid 0%nat [OExpression [TokVal 1%nat; TokOp ADD]; ORational (I 1) (I 1)]
    = (Ret b, [OExpression [TokVal 1%nat; TokOp ADD]; ORational (I 1) (I 1)]) /\
    (b = true <->
     [TokVal 1%nat; TokOp ADD] = [] \/ alternating [TokVal 1%nat; TokOp ADD] \/
     exists ts' o, alternating ts' /\ [TokVal 1%nat; TokOp ADD] = ts' ++ [TokOp o]).
Proof.
  apply (is_valid_accepts_trailing_operator
           [OExpression [TokVal 1%nat; TokOp ADD]; ORational (I 1) (I 1)] 0%nat
           [TokVal 1%nat; TokOp ADD]).
  reflexivity.
Defined.

(** The loop of [consolidate] on an Expression returns or raises an
    IndexError; it does not run out of steps. *)
Lemma consolidate_loop_outcomes : forall ops self fuel i h ts,
  0 <= i ->
  nth_error h self = Some (OExpression ts) ->
  enough_steps fuel (List.length ts) i ->
  exists h',
    Expression.consolidate_loop fuel self ops i h = (Ret tt, h') \/
    Expression.consolidate_loop fuel self ops i h
    = (Raise (IndexError "list index out of range"), h').
Proof.
  intros ops self. induction fuel as [|fuel IH]; intros i h ts Hi Hs Hfuel;
    [destruct Hfuel; lia|].
  destruct Hfuel as [_ [Hzero Hpos]].
  cbn [Expression.consolidate_loop].
  erewrite bind_ret_eq by (eapply get_tokens_eq; eauto). cbv beta zeta.
  destruct ((i <? Z.of_nat (List.length ts)) && (4 <=? Z.of_nat (List.length ts)))
    eqn:Hcond; [|exists h; left; reflexivity].
  apply andb_true_iff in Hcond. destruct Hcond as [Hlt H4].
  apply Z.ltb_lt in Hlt. apply Z.leb_le in H4.
  assert (Hnext : exists h',
            Expression.consolidate_loop fuel self ops (i + 1) h = (Ret tt, h') \/
            Expression.consolidate_loop fuel self ops (i + 1) h
            = (Raise (IndexError "list index out of range"), h')).
  { apply (IH (i + 1) h ts); [lia|assumption|].
    unfold enough_steps. destruct (Z.eq_dec i 0) as [->|Hne].
    - specialize (Hzero eq_refl). split; [lia|]. split; [lia|]. intros _. nia.
    - specialize (Hpos ltac:(lia)). split; [nia|]. split; [lia|]. intros _. lia. }
  assert (Hidx : forall k, py_index ts k = Raise (IndexError "list index out of range")
                           \/ exists t, py_index ts k = Ret t).
  { intro k. unfold py_index.
    match goal with |- context [match ?x with _ => _ end] => destruct x end; eauto. }
  rewrite bind_lift.
  destruct (Hidx i) as [E|[t E]]; rewrite E; [exists h; right; reflexivity|].
  destruct (Token_is_operation t && Expression.in_operations t ops);
    [|exact Hnext].
  rewrite bind_lift.
  destruct (Hidx (i - 1)) as [E1|[t1 E1]]; rewrite E1; [exists h; right; reflexivity|].
  rewrite bind_lift. cbv iota. rewrite bind_lift.
  destruct (Hidx (i + 1)) as [E3|[t3 E3]]; rewrite E3; [exists h; right; reflexivity|].
  apply py_index_in_range in E3.
  pose proof (nth_error_in_bounds _ _ _ _ Hs) as Hb.
  erewrite bind_ret_eq by (unfold Expression.__init__, alloc; reflexivity). cbv beta.
  erewrite bind_ret_eq by (eapply get_tokens_eq; eapply nth_error_alloc_old; eauto).
  cbv beta.
  erewrite bind_ret_eq by (eapply set_tokens_eq; eapply nth_error_alloc_old; eauto).
  cbv beta.
  assert (Hto : List.length (py_slice_to ts (i - 1))
                = if i =? 0 then (List.length ts - 1)%nat else Z.to_nat (i - 1)).
  { rewrite py_slice_to_length. unfold slice_bound.
    destruct (i =? 0) eqn:E0; [apply Z.eqb_eq in E0|apply Z.eqb_neq in E0].
    - subst i. replace (0 - 1 <? 0) with true by reflexivity. lia.
    - replace (i - 1 <? 0) with false by (symmetry; apply Z.ltb_ge; lia). lia. }
  assert (Hfrom : List.length (py_slice_from ts (i + 2))
                  = (List.length ts - Z.to_nat (i + 2))%nat).
  { rewrite py_slice_from_length. unfold slice_bound.
    replace (i + 2 <? 0) with false by (symmetry; apply Z.ltb_ge; lia). lia. }
  eapply (IH (0 + 1)); [lia| |].
  - apply nth_error_update_eq. rewrite length_app. lia.
  - rewrite length_app. simpl List.length. rewrite Hto, Hfrom.
    unfold enough_steps. change (0 + 1) with 1.
    destruct (i =? 0) eqn:E0; [apply Z.eqb_eq in E0|apply Z.eqb_neq in E0].
    + subst i. specialize (Hzero eq_refl).
      split; [lia|]. split; [lia|]. intros _. nia.
    + specialize (Hpos ltac:(lia)).
      split; [nia|]. split; [lia|]. intros _. nia.
Qed.

(** X22. The [while] loop of [consolidate] terminates on every token list, also
    on lists that do not alternate (where a match at index 0 wraps around
    and makes the list longer): on an Expression, [consolidate] returns, or
    raises the IndexError of an operator that is the last token. *)
Theorem consolidate_terminates : forall self ops h ts,
  nth_error h self = Some (OExpression ts) ->
  exists h',
    Expression.consolidate self ops h = (Ret tt, h') \/
    Expression.consolidate self ops h
    = (Raise (IndexError "list index out of range"), h').
Proof.
  intros self ops h ts Hs. unfold Expression.consolidate.
  erewrite bind_ret_eq by (eapply get_tokens_eq; eauto). cbv beta.
  apply (consolidate_loop_outcomes ops self _ 0 h ts); [lia|assumption|].
  unfold enough_steps, Expression.consolidate_fuel.
  split; [lia|]. split; [lia|]. lia.
Qed.

Lemma consolidate_terminates_witness :
  exists h',
    Expression.consolidate 0%nat [MULTIPLY]
      [OExpression [TokVal 1%nat; TokOp ADD; TokVal 1%nat; TokOp MULTIPLY];
       ORational (I 1) (I 1)] = (Ret tt, h') \/
    Expression.consolidate 0%nat [MULTIPLY]
      [OExpression [TokVal 1%nat; TokOp ADD; TokVal 1%nat; TokOp MULTIPLY];
       ORational (I 1) (I 1)]
    = (Raise (IndexError "list index out of range"), h').
Proof.
  apply (consolidate_terminates 0%nat [MULTIPLY]
           [OExpression [TokVal 1%nat; TokOp ADD; TokVal 1%nat; TokOp MULTIPLY];
            ORational (I 1) (I 1)]
           [TokVal 1%nat; TokOp ADD; TokVal 1%nat; TokOp MULTIPLY]).
  reflexivity.
Defined.

(** The operators of the other tiers are neither removed nor added by a run
    of the loop of [consolidate] on an alternating list. *)
Lemma consolidate_loop_other_operators : forall ops self fuel n h ts h' ts',
  nth_error h self = Some (OExpression ts) ->
  alternating ts ->
  Expression.consolidate_loop fuel self ops (Z.of_nat n) h = (Ret tt, h') ->
  nth_error h' self = Some (OExpression ts') ->
  forall o, Expression.in_operations (TokOp o) ops = false ->
  (In (TokOp o) ts <-> In (TokOp o) ts').
Proof.
  intros ops self. induction fuel as [|fuel IH];
    intros n h ts h' ts' Hs Halt Hrun Hs' o Ho; [discriminate|].
  destruct (Nat.le_gt_cases (List.length ts) n) as [Hend|Hlt];
    [|destruct (Nat.le_gt_cases 4 (List.length ts)) as [H4|Hshort]].
  - rewrite (consolidate_loop_exit ops self fuel h ts n Hs (or_introl Hend)) in Hrun.
    inversion Hrun; subst h'. rewrite Hs in Hs'. inversion Hs'. reflexivity.
  - destruct (nth_error ts n) as [t|] eqn:Ht; [|apply nth_error_None in Ht; lia].
    destruct (Expression.in_operations t ops) eqn:Hin.
    + destruct t as [o0|v]; [|discriminate].
      destruct (alternating_operator_context _ Halt _ _ Ht)
        as [pre [a [b [post [Hts [Hpre Hnew]]]]]].
      assert (Hl : List.length ts = (List.length pre + 3 + List.length post)%nat)
        by (rewrite Hts, length_app; simpl; lia).
      rewrite Hts in Hs. rewrite <- Hpre in Hrun.
      rewrite (consolidate_loop_collapse ops self fuel h pre _ o0 _ post Hs
                 ltac:(lia) Hin) in Hrun.
      change 1 with (Z.of_nat 1) in Hrun.
      assert (Hs2 : nth_error
                      (update (h ++ [OExpression [TokVal a; TokOp o0; TokVal b]]) self
                         (OExpression (pre ++ TokVal (List.length h) :: post)))
                      self
                    = Some (OExpression (pre ++ TokVal (List.length h) :: post))).
      { apply nth_error_update_eq. rewrite length_app.
        apply nth_error_in_bounds in Hs. lia. }
      rewrite <- (IH 1%nat _ _ _ _ Hs2 (Hnew _) Hrun Hs' o Ho).
      assert (Hne : o <> o0) by (intro; subst o0; rewrite Hin in Ho; discriminate).
      rewrite Hts, !in_app_iff. simpl.
      split; (intros [H|H]; [left; assumption|right]).
      * destruct H as [H|[H|[H|H]]]; try discriminate; [|right; assumption].
        inversion H. congruence.
      * destruct H as [H|H]; [discriminate|]. right. right. right. assumption.
    + rewrite (consolidate_loop_skip ops self fuel h ts n t Hs H4 Ht Hin) in Hrun.
      apply (IH (S n) _ _ _ _ Hs Halt Hrun Hs' o Ho).
  - rewrite (consolidate_loop_exit ops self fuel h ts n Hs (or_intror Hshort)) in Hrun.
    inversion Hrun; subst h'. rewrite Hs in Hs'. inversion Hs'. reflexivity.
Qed.

Lemma Token_eq_dec : forall x y : Token, {x = y} + {x <> y}.
Proof. decide equality; [decide equality|apply Nat.eq_dec]. Defined.

(** One tier of [pemdas] on an alternating list: what
    [consolidate_alternating] says, and the operators of the other tiers
    stay. *)
Lemma consolidate_tier : forall ops self h ts,
  nth_error h self = Some (OExpression ts) ->
  alternating ts ->
  exists h' ts',
    Expression.consolidate self ops h = (Ret tt, h') /\
    nth_error h' self = Some (OExpression ts') /\
    alternating ts' /\
    (List.length ts' <= List.length ts)%nat /\
    ((List.length ts' < 4)%nat \/ free_of ops ts') /\
    (3 <= List.length ts -> 3 <= List.length ts')%nat /\
    (forall ops', free_of ops' ts -> free_of ops' ts') /\
    (forall o, In (TokOp o) ts' -> In (TokOp o) ts) /\
    (forall o, Expression.in_operations (TokOp o) ops = false ->
               In (TokOp o) ts -> In (TokOp o) ts').
Proof.
  intros ops self h ts Hs Halt.
  destruct (consolidate_alternating ops _ _ _ Hs Halt)
    as [h' [ts' [Hrun [Hs' [Halt' [Hle [Hdone [H3 Hkeep]]]]]]]].
  exists h', ts'. split; [assumption|]. split; [assumption|]. split; [assumption|].
  split; [assumption|]. split; [assumption|]. split; [assumption|].
  split; [assumption|]. split.
  - intros o Hin.
    destruct (in_dec Token_eq_dec (TokOp o) ts) as [Hyes|Hno]; [assumption|].
    exfalso.
    assert (Hfree : free_of [o] ts).
    { intros t Ht. destruct t as [o1|v]; [|reflexivity].
      unfold Expression.in_operations. simpl. rewrite orb_false_r.
      destruct (Operation_eqb o1 o) eqn:E; [|reflexivity].
      exfalso. apply Hno. destruct o1, o; try discriminate; assumption. }
    specialize (Hkeep [o] Hfree _ Hin). unfold Expression.in_operations in Hkeep.
    simpl in Hkeep. destruct o; discriminate.
  - intros o Ho Hin. unfold Expression.consolidate in Hrun.
    erewrite bind_ret_eq in Hrun by (eapply get_tokens_eq; eauto). cbv beta in Hrun.
    change 0 with (Z.of_nat 0) in Hrun.
    apply (consolidate_loop_other_operators _ _ _ _ _ _ _ _ Hs Halt Hrun Hs' o Ho).
    assumption.
Qed.

Lemma alternating_three : forall ts,
  alternating ts -> (3 <= List.length ts < 4)%nat ->
  exists a o b, ts = [TokVal a; TokOp o; TokVal b].
Proof.
  intros ts Halt Hl.
  inversion Halt as [v Hv|a o rest Hrest Hv]; subst ts; [simpl in Hl; lia|].
  inversion Hrest as [b Hb|b o' rest' Hrest' Hb]; subst rest; [eauto|].
  simpl in Hl. lia.
Qed.

Lemma operator_of_three : forall a o b o',
  In (TokOp o') [TokVal a; TokOp o; TokVal b] -> o' = o.
Proof.
  intros a o b o' [H|[H|[H|[]]]]; try discriminate. inversion H. reflexivity.
Qed.

(** X23. Precedence.  On an alternating list of at least 4 tokens, [pemdas]
    leaves the triple [value, operator, value] whose operator is one of the
    operators of the list that bind the loosest: an ADD or SUBTRACT if there
    is one; otherwise a MULTIPLY or DIVIDE if there is one; an EXPONENT only
    when the list holds nothing else.  That operator is applied last by
    [calculate]. *)
Theorem pemdas_applies_the_loosest_operator_last : forall h self ts,
  nth_error h self = Some (OExpression ts) ->
  alternating ts ->
  (4 <= List.length ts)%nat ->
  exists h' a o b,
    Expression.pemdas self h = (Ret tt, h') /\
    nth_error h' self = Some (OExpression [TokVal a; TokOp o; TokVal b]) /\
    In (TokOp o) ts /\
    forall o', In (TokOp o') ts -> (tier o <= tier o')%nat.
Proof.
  intros h self ts Hs Halt Hlen. unfold Expression.pemdas.
  destruct (consolidate_tier [EXPONENT] _ _ _ Hs Halt)
    as [h1 [ts1 [Hrun1 [Hs1 [Halt1 [Hle1 [Hdone1 [H31 [Hkeep1 [Hfrom1 Hto1]]]]]]]]]].
  destruct (consolidate_tier [MULTIPLY; DIVIDE] _ _ _ Hs1 Halt1)
    as [h2 [ts2 [Hrun2 [Hs2 [Halt2 [Hle2 [Hdone2 [H32 [Hkeep2 [Hfrom2 Hto2]]]]]]]]]].
  destruct (consolidate_tier [ADD; SUBTRACT] _ _ _ Hs2 Halt2)
    as [h3 [ts3 [Hrun3 [Hs3 [Halt3 [Hle3 [Hdone3 [H33 [Hkeep3 [Hfrom3 Hto3]]]]]]]]]].
  rewrite (bind_ret_eq _ _ _ _ _ _ _ Hrun1).
  rewrite (bind_ret_eq _ _ _ _ _ _ _ Hrun2).
  rewrite Hrun3.
  assert (Hl1 : (3 <= List.length ts1)%nat) by (apply H31; lia).
  assert (Hl2 : (3 <= List.length ts2)%nat) by (apply H32; assumption).
  assert (Hl3 : (3 <= List.length ts3)%nat) by (apply H33; assumption).
  assert (Hshape : exists a o b, ts3 = [TokVal a; TokOp o; TokVal b]).
  { inversion Halt3 as [v Hv|a o rest Hrest Hv]; subst ts3; [simpl in Hl3; lia|].
    inversion Hrest as [b Hb|b o' rest' Hrest' Hb]; subst rest; [eauto|].
    exfalso.
    assert (Hin : In (TokOp o) (TokVal a :: TokOp o :: TokVal b :: TokOp o' :: rest'))
      by (simpl; auto).
    simpl List.length in Hle3, Hdone3.
    destruct Hdone3 as [Hd3|Hf3]; [lia|].
    destruct Hdone2 as [Hd2|Hf2]; [lia|].
    destruct Hdone1 as [Hd1|Hf1]; [lia|].
    pose proof (Hf3 _ Hin) as F3.
    pose proof (Hkeep3 _ Hf2 _ Hin) as F2.
    pose proof (Hkeep3 _ (Hkeep2 _ Hf1) _ Hin) as F1.
    destruct o; simpl in F1, F2, F3; discriminate. }
  destruct Hshape as [a [o [b ->]]].
  exists h3, a, o, b. split; [reflexivity|]. split; [assumption|].
  assert (Hin3 : In (TokOp o) [TokVal a; TokOp o; TokVal b]) by (simpl; auto).
  split; [apply Hfrom1, Hfrom2, Hfrom3; assumption|].
  intros o' Hin'.
  destruct (Nat.le_gt_cases (tier o) (tier o')) as [Hok|Hbad]; [assumption|].
  exfalso.
  (* [o'] binds looser than [o]: it is in no tier up to that of [o], so it is
     still there when the tier of [o] has run, and that tier leaves three
     tokens, with [o] as their operator. *)
  assert (Hin2 : In (TokOp o) ts2).
  { destruct (Expression.in_operations (TokOp o) [ADD; SUBTRACT]) eqn:E.
    - destruct o; simpl in E; try discriminate; simpl in Hbad; lia.
    - apply Hfrom3. assumption. }
  assert (Hin'1 : In (TokOp o') ts1).
  { apply Hto1; [|assumption]. destruct o', o; simpl in Hbad; try lia; reflexivity. }
  destruct (Expression.in_operations (TokOp o) [MULTIPLY; DIVIDE]) eqn:E2.
  - (* [o] is a MULTIPLY or a DIVIDE, [o'] an ADD or a SUBTRACT *)
    assert (Hin'2 : In (TokOp o') ts2).
    { apply Hto2; [|assumption].
      destruct o', o; simpl in Hbad, E2; try lia; try discriminate; reflexivity. }
    destruct Hdone2 as [Hd2|Hf2].
    + destruct (alternating_three _ Halt2 ltac:(lia)) as [x [o2 [y ->]]].
      pose proof (operator_of_three _ _ _ _ Hin2).
      pose proof (operator_of_three _ _ _ _ Hin'2). subst. lia.
    + pose proof (Hf2 _ Hin2) as F. rewrite E2 in F. discriminate.
  - (* [o] is an EXPONENT *)
    assert (Ho : o = EXPONENT).
    { destruct o; simpl in E2, Hbad; try discriminate; try lia; reflexivity. }
    subst o.
    assert (Hin1 : In (TokOp EXPONENT) ts1) by (apply Hfrom2; assumption).
    destruct Hdone1 as [Hd1|Hf1].
    + destruct (alternating_three _ Halt1 ltac:(lia)) as [x [o1 [y ->]]].
      pose proof (operator_of_three _ _ _ _ Hin1).
      pose proof (operator_of_three _ _ _ _ Hin'1). subst. lia.
    + pose proof (Hf1 _ Hin1) as F. discriminate.
Qed.

Lemma pemdas_applies_the_loosest_operator_last_witness :
  exists h' a o b,
    Expression.pemdas 0%nat
      [OExpression [TokVal 1%nat; TokOp MULTIPLY; TokVal 2%nat; TokOp ADD; TokVal 3%nat];
       ORational (I 2) (I 1); ORational (I 3) (I 1); ORational (I 4) (I 1)]
    = (Ret tt, h') /\
    nth_error h' 0%nat = Some (OExpression [TokVal a; TokOp o; TokVal b]) /\
    In (TokOp o) [TokVal 1%nat; TokOp MULTIPLY; TokVal 2%nat; TokOp ADD; TokVal 3%nat] /\
    forall o',
      In (TokOp o') [TokVal 1%nat; TokOp MULTIPLY; TokVal 2%nat; TokOp ADD; TokVal 3%nat] ->
      (tier o <= tier o')%nat.
Proof.
  apply (pemdas_applies_the_loosest_operator_last
    [OExpression [TokVal 1%nat; TokOp MULTIPLY; TokVal 2%nat; TokOp ADD; TokVal 3%nat];
     ORational (I 2) (I 1); ORational (I 3) (I 1); ORational (I 4) (I 1)]
    0%nat
    [TokVal 1%nat; TokOp MULTIPLY; TokVal 2%nat; TokOp ADD; TokVal 3%nat]).
  - reflexivity.
  - repeat constructor.
  - simpl. lia.
Defined.

(** ** Two operators *)

(** One tier on a list of five tokens: the first operator is collapsed if
    it is of the tier, or else the second one if it is. *)
Lemma consolidate_five_tokens : forall ops h self a o1 b o2 c,
  nth_error h self
  = Some (OExpression [TokVal a; TokOp o1; TokVal b; TokOp o2; TokVal c]) ->
  Expression.consolidate self ops h
  = (Ret tt,
     if Expression.in_operations (TokOp o1) ops
     then update (h ++ [OExpression [TokVal a; TokOp o1; TokVal b]]) self
            (OExpression [TokVal (List.length h); TokOp o2; TokVal c])
     else if Expression.in_operations (TokOp o2) ops
     then update (h ++ [OExpression [TokVal b; TokOp o2; TokVal c]]) self
            (OExpression [TokVal a; TokOp o1; TokVal (List.length h)])
     else h).
Proof.
  intros ops h self a o1 b o2 c Hs.
  pose proof (nth_error_in_bounds _ _ _ _ Hs) as Hb.
  unfold Expression.consolidate.
  erewrite bind_ret_eq by (eapply get_tokens_eq; eauto). cbv beta.
  unfold Expression.consolidate_fuel.
  remember ((2 * List.length [TokVal a; TokOp o1; TokVal b; TokOp o2; TokVal c] + 2)
            * (2 * List.length [TokVal a; TokOp o1; TokVal b; TokOp o2; TokVal c] + 2))%nat
    as fuel eqn:Efuel.
  assert (Hfuel : exists f, fuel = S (S (S (S (S (S f))))))
    by (subst fuel; simpl; eauto).
  destruct Hfuel as [f ->]. clear Efuel.
  change 0 with (Z.of_nat 0).
  rewrite (consolidate_loop_skip ops self _ h _ 0 (TokVal a) Hs)
    by (simpl; first [lia|reflexivity]).
  destruct (Expression.in_operations (TokOp o1) ops) eqn:E1.
  - change (Z.of_nat 1) with (Z.of_nat (S (@List.length Token []))).
    rewrite (consolidate_loop_collapse ops self _ h [] (TokVal a) o1 (TokVal b)
               [TokOp o2; TokVal c] Hs) by (simpl; first [lia|assumption]).
    change 1 with (Z.of_nat 1).
    eapply consolidate_loop_exit;
      [apply nth_error_update_eq; rewrite length_app; simpl; lia|right; simpl; lia].
  - rewrite (consolidate_loop_skip ops self _ h _ 1 (TokOp o1) Hs)
      by (simpl; first [lia|reflexivity|assumption]).
    rewrite (consolidate_loop_skip ops self _ h _ 2 (TokVal b) Hs)
      by (simpl; first [lia|reflexivity]).
    destruct (Expression.in_operations (TokOp o2) ops) eqn:E2.
    + change (Z.of_nat 3)
        with (Z.of_nat (S (List.length [TokVal a; TokOp o1]))).
      rewrite (consolidate_loop_collapse ops self _ h [TokVal a; TokOp o1] (TokVal b) o2
                 (TokVal c) [] Hs) by (simpl; first [lia|assumption]).
      change 1 with (Z.of_nat 1).
      eapply consolidate_loop_exit;
        [apply nth_error_update_eq; rewrite length_app; simpl; lia|right; simpl; lia].
    + rewrite (consolidate_loop_skip ops self _ h _ 3 (TokOp o2) Hs)
        by (simpl; first [lia|reflexivity|assumption]).
      rewrite (consolidate_loop_skip ops self _ h _ 4 (TokVal c) Hs)
        by (simpl; first [lia|reflexivity]).
      eapply consolidate_loop_exit; [eassumption|left; simpl; lia].
Qed.

(** X24. With two operators the looser one is applied last, and of two operators
    of one tier the right one: [pemdas] groups [a o1 b o2 c] as
    [(a o1 b) o2 c] unless [o2] binds tighter than [o1], and as
    [a o1 (b o2 c)] if it does. The group is a new Expression at the end of
    the store. *)
Theorem pemdas_groups_two_operators : forall h self a o1 b o2 c,
  nth_error h self
  = Some (OExpression [TokVal a; TokOp o1; TokVal b; TokOp o2; TokVal c]) ->
  Expression.pemdas self h
  = (Ret tt,
     if (tier o2 <=? tier o1)%nat
     then update (h ++ [OExpression [TokVal a; TokOp o1; TokVal b]]) self
            (OExpression [TokVal (List.length h); TokOp o2; TokVal c])
     else update (h ++ [OExpression [TokVal b; TokOp o2; TokVal c]]) self
            (OExpression [TokVal a; TokOp o1; TokVal (List.length h)])).
Proof.
  intros h self a o1 b o2 c Hs.
  pose proof (nth_error_in_bounds _ _ _ _ Hs) as Hb.
  assert (H3 : forall ops x y z t,
            Expression.consolidate self ops (update (h ++ [x]) self (OExpression [y; z; t]))
            = (Ret tt, update (h ++ [x]) self (OExpression [y; z; t]))).
  { intros ops x y z t. eapply consolidate_three_tokens.
    apply nth_error_update_eq. rewrite length_app. simpl. lia. }
  unfold Expression.pemdas.
  erewrite bind_ret_eq by (apply (consolidate_five_tokens _ _ _ _ _ _ _ _ Hs)).
  cbv beta.
  destruct (Expression.in_operations (TokOp o1) [EXPONENT]) eqn:E1;
    [|destruct (Expression.in_operations (TokOp o2) [EXPONENT]) eqn:E2].
  1, 2: erewrite bind_ret_eq by (apply H3); cbv beta; rewrite H3;
        destruct o1, o2; try discriminate; reflexivity.
  erewrite bind_ret_eq by (apply (consolidate_five_tokens _ _ _ _ _ _ _ _ Hs)).
  cbv beta.
  destruct (Expression.in_operations (TokOp o1) [MULTIPLY; DIVIDE]) eqn:M1;
    [|destruct (Expression.in_operations (TokOp o2) [MULTIPLY; DIVIDE]) eqn:M2].
  1, 2: rewrite H3; destruct o1, o2; try discriminate; reflexivity.
  rewrite (consolidate_five_tokens _ _ _ _ _ _ _ _ Hs).
  destruct o1, o2; try discriminate; reflexivity.
Qed.

Lemma pemdas_groups_two_operators_witness :
  Expression.pemdas 3%nat
    [ORational (I 7) (I 1); ORational (I 2) (I 1); ORational (I 3) (I 1);
     OExpression [TokVal 0%nat; TokOp SUBTRACT; TokVal 1%nat; TokOp SUBTRACT;
                  TokVal 2%nat]]
  = (Ret tt,
     [ORational (I 7) (I 1); ORational (I 2) (I 1); ORational (I 3) (I 1);
      OExpression [TokVal 4%nat; TokOp SUBTRACT; TokVal 2%nat];
      OExpression [TokVal 0%nat; TokOp SUBTRACT; TokVal 1%nat]]).
Proof.
  exact (pemdas_groups_two_operators
           [ORational (I 7) (I 1); ORational (I 2) (I 1); ORational (I 3) (I 1);
            OExpression [TokVal 0%nat; TokOp SUBTRACT; TokVal 1%nat; TokOp SUBTRACT;
                         TokVal 2%nat]]
           3%nat 0%nat SUBTRACT 1%nat SUBTRACT 2%nat eq_refl).
Defined.


(** ** Literals *)

Lemma split_dot_at_dot : forall ip fp,
  forallb is_digit ip = true ->
  split_dot (ip ++ "."%char :: fp) = (ip, Some fp).
Proof.
  induction ip as [|c ip IH]; intros fp H; simpl in *; [reflexivity|].
  apply andb_true_iff in H. destruct H as [Hc Hip].
  destruct (Ascii.eqb c ".") eqn:E.
  - apply Ascii.eqb_eq in E. subst c. discriminate.
  - rewrite (IH fp Hip). reflexivity.
Qed.

Lemma int_of_digits_bounds : forall ds a v,
  0 <= a -> int_of_digits a ds = Some v ->
  a * 10 ^ Z.of_nat (List.length ds) <= v < (a + 1) * 10 ^ Z.of_nat (List.length ds).
Proof.
  induction ds as [|c ds IH]; intros a v Ha H.
  - simpl in H. inversion H; subst v. simpl. lia.
  - cbn [int_of_digits] in H. unfold digit_of in H.
    destruct ((48 <=? Z.of_nat (nat_of_ascii c)) && (Z.of_nat (nat_of_ascii c) <=? 57))
      eqn:E; [|discriminate].
    apply andb_true_iff in E. destruct E as [E1 E2].
    apply Z.leb_le in E1. apply Z.leb_le in E2.
    apply IH in H; [|lia].
    cbn [List.length]. rewrite Nat2Z.inj_succ, Z.pow_succ_r by lia.
    assert (0 < 10 ^ Z.of_nat (List.length ds)) by (apply Z.pow_pos_nonneg; lia).
    nia.
Qed.

Lemma int_of_digits_total : forall ds a,
  forallb is_digit ds = true -> exists v, int_of_digits a ds = Some v.
Proof.
  induction ds as [|c ds IH]; intros a H; simpl in *; [eauto|].
  apply andb_true_iff in H. destruct H as [Hc Hds]. unfold is_digit in Hc.
  destruct (digit_of c); [apply IH; assumption|discriminate].
Qed.

(** X25. [Rational.parse] on a literal of at most 15 digits with a dot: the
    value of the digits over the power of ten, in lowest terms, exactly.
    On a literal without a dot: the int over 1, whatever its length. *)
Theorem Rational_parse_is_exact_for_short_literals : forall ip fp h,
  forallb is_digit ip = true -> forallb is_digit fp = true ->
  ip ++ fp <> [] ->
  exists N,
    int_of_digits 0 (ip ++ fp) = Some N /\
    (fp = [] ->
     Rational.parse ip h = (Ret (List.length h), h ++ [ORational (I N) (I 1)])) /\
    ((List.length (ip ++ fp) <= 15)%nat ->
     exists n d,
       Rational.parse (ip ++ "."%char :: fp) h
       = (Ret (List.length h), h ++ [ORational (I n) (I d)]) /\
       lowest_terms_of N (10 ^ Z.of_nat (List.length fp)) n d /\ 0 < d).
Proof.
  intros ip fp h Hip Hfp Hne.
  assert (Hall : forallb is_digit (ip ++ fp) = true)
    by (rewrite forallb_app, Hip, Hfp; reflexivity).
  destruct (int_of_digits_total (ip ++ fp) 0 Hall) as [N HN].
  exists N. split; [assumption|]. split.
  - intros ->. rewrite app_nil_r in *.
    apply Rational_parse_digits; assumption.
  - intro Hlen.
    pose proof (int_of_digits_bounds (ip ++ fp) 0 N ltac:(lia) HN) as HNb.
    set (D := 10 ^ Z.of_nat (List.length fp)) in *.
    assert (HD : 0 < D) by (apply Z.pow_pos_nonneg; lia).
    assert (HD15 : D <= 10 ^ 15).
    { unfold D. apply Z.pow_le_mono_r; [lia|]. rewrite length_app in Hlen. lia. }
    assert (HN15 : 0 <= N < 10 ^ 15).
    { assert (10 ^ Z.of_nat (List.length (ip ++ fp)) <= 10 ^ 15)
        by (apply Z.pow_le_mono_r; lia).
      lia. }
    assert (H1553 : 10 ^ 15 < 2 ^ 53) by reflexivity.
    destruct (gcd_quotients N D ltac:(lia)) as [Hg [HNq [HDq [Hco [Hd0 Hsgn]]]]].
    pose proof (lowest_terms_of_quotients N D ltac:(lia)) as Hlow.
    pose proof (quotient_by_gcd_positive N D HD) as Hdpos.
    exists (N / gcd N D), (D / gcd N D).
    split; [|split; assumption].
    unfold Rational.parse, Decimal_as_integer_ratio.
    rewrite (split_dot_at_dot ip fp Hip).
    destruct (ip ++ fp) as [|c rest] eqn:Eds; [contradiction|].
    rewrite HN. cbv zeta. fold D. fold (gcd N D).
    set (n := N / gcd N D) in *. set (d := D / gcd N D) in *.
    assert (Hn53 : Z.abs n < 2 ^ 53) by nia.
    assert (Hd53 : Z.abs d < 2 ^ 53) by nia.
    rewrite (init_exact_when_small h n d Hd0 Hn53 Hd53).
    unfold gcd at 1 2. rewrite Hco, !Z.div_1_r. reflexivity.
Qed.

Lemma Rational_parse_is_exact_for_short_literals_witness :
  exists N,
    int_of_digits 0 (list_ascii_of_string "1" ++ list_ascii_of_string "25") = Some N /\
    (list_ascii_of_string "25" = [] ->
     Rational.parse (list_ascii_of_string "1") []
     = (Ret (List.length (@nil obj)), [] ++ [ORational (I N) (I 1)])) /\
    ((List.length (list_ascii_of_string "1" ++ list_ascii_of_string "25") <= 15)%nat ->
     exists n d,
       Rational.parse (list_ascii_of_string "1" ++ "."%char :: list_ascii_of_string "25") []
       = (Ret (List.length (@nil obj)), [] ++ [ORational (I n) (I d)]) /\
       lowest_terms_of N (10 ^ Z.of_nat (List.length (list_ascii_of_string "25"))) n d /\
       0 < d).
Proof.
  apply (Rational_parse_is_exact_for_short_literals
           (list_ascii_of_string "1") (list_ascii_of_string "25") []);
    [reflexivity|reflexivity|discriminate].
Defined.

Lemma int_of_digits_stops_at_dot : forall l1 l2 a,
  int_of_digits a (l1 ++ "."%char :: l2) = None.
Proof.
  induction l1 as [|c l1 IH]; intros l2 a; simpl; [reflexivity|].
  destruct (digit_of c); [apply IH|reflexivity].
Qed.

Lemma split_dot_with_two_dots : forall a b c,
  exists ip b1 b2, split_dot (a ++ "."%char :: b ++ "."%char :: c)
                   = (ip, Some (b1 ++ "."%char :: b2)).
Proof.
  induction a as [|x a IH]; intros b c.
  - exists [], b, c. reflexivity.
  - simpl. destruct (Ascii.eqb x ".").
    + exists [], (a ++ "."%char :: b), c. rewrite <- app_assoc. reflexivity.
    + destruct (IH b c) as [ip [b1 [b2 E]]]. rewrite E.
      exists (x :: ip), b1, b2. reflexivity.
Qed.

(** X26. [Rational.parse] refuses a literal with two dots, and a literal without
    any digit: it raises its ValueError and leaves the store as it is. *)
Theorem Rational_parse_refuses_malformed_literals : forall s h,
  s = [] \/ s = ["."%char] \/ (exists a b c, s = a ++ "."%char :: b ++ "."%char :: c) ->
  Rational.parse s h = (Raise (ValueError "Couldn't parse as a Rational!"), h).
Proof.
  intros s h [->|[->|[a [b [c ->]]]]]; try reflexivity.
  unfold Rational.parse, Decimal_as_integer_ratio.
  destruct (split_dot_with_two_dots a b c) as [ip [b1 [b2 E]]]. rewrite E.
  cbv beta iota zeta.
  assert (Hnone : int_of_digits 0 (ip ++ b1 ++ "."%char :: b2) = None)
    by (rewrite app_assoc; apply int_of_digits_stops_at_dot).
  destruct (ip ++ b1 ++ "."%char :: b2); [reflexivity|].
  rewrite Hnone. reflexivity.
Qed.

Lemma Rational_parse_refuses_malformed_literals_witness :
  Rational.parse (list_ascii_of_string "1.2.3") []
  = (Raise (ValueError "Couldn't parse as a Rational!"), []).
Proof.
  apply (Rational_parse_refuses_malformed_literals (list_ascii_of_string "1.2.3") []).
  right. right.
  exists (list_ascii_of_string "1"), (list_ascii_of_string "2"), (list_ascii_of_string "3").
  reflexivity.
Defined.

(** ** Printing *)

(** X27. [to_string] on a Rational of ints, whatever the functions that print a
    float and compute [log10].  Over the denominator 1 it prints the
    numerator (of at most 4300 digits).  Over a negative denominator it raises the ValueError of
    [math.log10], unless [float_only] is set.  With [float_only] it prints
    the float quotient. *)
Theorem to_string_needs_a_positive_denominator :
  forall float_str log10 h self n d,
  nth_error h self = Some (ORational (I n) (I d)) ->
  (d = 1 -> Z.abs n < 10 ^ 4300 ->
   Rational.to_string float_str log10 self false h = (Ret (str_int n), h)) /\
  (d < 0 ->
   exists msg,
     Rational.to_string float_str log10 self false h
     = (Raise (ValueError msg), h)) /\
  (d <> 0 -> is_finite (round_ratio n d) = true ->
   Rational.to_string float_str log10 self true h
   = (Ret (float_str (round_ratio n d)), h)).
Proof.
  intros float_str log10 h self n d Hs. split; [|split].
  - intros -> _. unfold Rational.to_string.
    erewrite bind_ret_eq
      by (erewrite bind_ret_eq by (eapply get_denom_eq; eauto); reflexivity).
    cbv beta iota. unfold Rational.__str__.
    erewrite bind_ret_eq by (eapply get_denom_eq; eauto). cbv beta.
    change (py_eq (I 1) (I 1)) with true. cbv iota.
    erewrite bind_ret_eq by (eapply get_numer_eq; eauto). reflexivity.
  - intro Hd. eexists. unfold Rational.to_string.
    erewrite bind_raise_eq; [reflexivity|].
    erewrite bind_ret_eq by (eapply get_denom_eq; eauto). cbv beta. cbn [py_eq].
    replace (d =? 1) with false by (symmetry; apply Z.eqb_neq; lia). cbn [negb].
    erewrite bind_ret_eq by (eapply get_denom_eq; eauto). cbv beta.
    rewrite bind_lift. unfold Rational.py_log10. rewrite py_gt_int.
    replace (0 <? d) with false by (symmetry; apply Z.ltb_ge; lia). reflexivity.
  - intros Hd Hfin. unfold Rational.to_string.
    erewrite bind_ret_eq by reflexivity. cbv beta iota.
    erewrite bind_ret_eq by (eapply get_numer_eq; eauto). cbv beta.
    erewrite bind_ret_eq by (eapply get_denom_eq; eauto). cbv beta.
    rewrite bind_lift. cbn [py_truediv].
    replace (d =? 0) with false by (symmetry; apply Z.eqb_neq; assumption).
    rewrite Hfin. reflexivity.
Qed.

Lemma to_string_needs_a_positive_denominator_witness :
  exists msg,
    Rational.to_string (fun _ => []) (fun _ => S754_zero false) 0%nat false
      [ORational (I 1) (I (-2))]
    = (Raise (ValueError msg), [ORational (I 1) (I (-2))]).
Proof.
  apply (proj1 (proj2 (to_string_needs_a_positive_denominator
                         (fun _ => []) (fun _ => S754_zero false)
                         [ORational (I 1) (I (-2))] 0%nat 1 (-2) eq_refl))).
  reflexivity.
Defined.

(** X28. [main] on one word that is a literal without a dot, of at most 4300
    digits: the number is parsed, calculated and printed as an int, without
    its leading zeros. *)
Theorem main_prints_an_integer_literal :
  forall float_pow float_str log10 fuel ds h,
  ds <> [] -> forallb is_digit ds = true ->
  Z.of_nat (List.length ds) <= 4300 ->
  exists N h',
    int_of_digits 0 ds = Some N /\
    main float_pow float_str log10 (S (S fuel)) false [ds] h = (Ret (str_int N), h').
Proof.
  intros float_pow float_str log10 fuel ds h Hne Hall _.
  destruct (int_of_digits_total ds 0 Hall) as [N HN].
  exists N. eexists. split; [assumption|]. unfold main. cbn [join_spaces].
  erewrite bind_ret_eq by (apply parse_integer_literal; eassumption). cbv beta.
  assert (Hex : nth_error
                  (h ++ [OExpression [TokVal (S (List.length h))]; ORational (I N) (I 1)])
                  (List.length h)
                = Some (OExpression [TokVal (S (List.length h))])).
  { rewrite nth_error_app2 by lia. rewrite Nat.sub_diag. reflexivity. }
  assert (Hr : nth_error
                 (h ++ [OExpression [TokVal (S (List.length h))]; ORational (I N) (I 1)])
                 (S (List.length h))
               = Some (ORational (I N) (I 1))).
  { rewrite nth_error_app2 by lia.
    replace (S (List.length h) - List.length h)%nat with 1%nat by lia. reflexivity. }
  erewrite bind_ret_eq by (eapply calculate_one_token; eassumption). cbv beta.
  unfold Rational.to_string.
  erewrite bind_ret_eq
    by (erewrite bind_ret_eq by (eapply get_denom_eq; eauto); reflexivity).
  cbv beta iota. unfold Rational.__str__.
  erewrite bind_ret_eq by (eapply get_denom_eq; eauto). cbv beta.
  change (py_eq (I 1) (I 1)) with true. cbv iota.
  erewrite bind_ret_eq by (eapply get_numer_eq; eauto). reflexivity.
Qed.

Lemma main_prints_an_integer_literal_witness :
  exists N h',
    int_of_digits 0 (list_ascii_of_string "007") = Some N /\
    main pow_undefined (fun _ => []) (fun _ => S754_zero false) 2 false
      [list_ascii_of_string "007"] []
    = (Ret (str_int N), h').
Proof.
  apply (main_prints_an_integer_literal pow_undefined (fun _ => [])
           (fun _ => S754_zero false) 0%nat (list_ascii_of_string "007") []);
    [discriminate|reflexivity|discriminate].
Defined.
